(** * Bookmark organiser: batched reorganisation, tree building and validation

    A shallow embedding of [bookmark_organiser] (models.py, organiser.py,
    html_writer.py, validator.py, config.py, and the metadata cache of
    main.py) and the properties of its reorganisation-and-validation
    pipeline.

    Conventions of the embedding:
    - a Python [str] is a [string] whose characters are code points below 256;
    - record objects live in a heap indexed by object identity, because the
      organiser mutates them in place and the tree keeps references to them;
    - the completion client is a script: the outcome of its n-th call;
    - [time.sleep] is an event of the trace, so no floating point is needed;
    - what only the Python runtime or pydantic decide ([str()] of a float or
      of a container, the lax coercion of a float or a string to [int]) is a
      parameter, the class [Runtime]. *)

From Stdlib Require Import ZArith NArith Strings.String Strings.Ascii.
From Stdlib Require Import Floats.PrimFloat Numbers.DecimalString.
From Stdlib Require Import Sorting.Sorted.
From stdpp Require Import base option list functions gmap gmultiset strings.

Open Scope string_scope.
Set Warnings "-register-all".

(** ** Python strings *)

Module Py.

(** [str.isspace] on one character: TAB..CR, FS..US, SPACE, NEL and NBSP. *)
Definition isspace (c : ascii) : bool :=
  let n := N_of_ascii c in
  ((9 <=? n) && (n <=? 13) || (28 <=? n) && (n <=? 32)
   || (n =? 133) || (n =? 160))%N.

Fixpoint lstrip (s : string) : string :=
  match s with
  | EmptyString => EmptyString
  | String c s' => if isspace c then lstrip s' else s
  end.

Fixpoint rstrip (s : string) : string :=
  match s with
  | EmptyString => EmptyString
  | String c s' =>
      match rstrip s' with
      | EmptyString => if isspace c then EmptyString else String c EmptyString
      | r => String c r
      end
  end.

(** [s.strip()] *)
Definition strip (s : string) : string := rstrip (lstrip s).

(** Truth value of a string: [bool(s)]. *)
Definition truthy (s : string) : bool :=
  match s with EmptyString => false | _ => true end.

(** [a or b] on strings. *)
Definition or_else (a b : string) : string := if truthy a then a else b.

(** [s.split(sep)] for a one-character separator: never an empty list. *)
Fixpoint split (sep : ascii) (s : string) : list string :=
  match s with
  | EmptyString => [EmptyString]
  | String c s' =>
      if Ascii.eqb c sep then EmptyString :: split sep s'
      else match split sep s' with
           | h :: t => String c h :: t
           | [] => [String c EmptyString]
           end
  end.

(** [sep.join(parts)] *)
Fixpoint join (sep : string) (parts : list string) : string :=
  match parts with
  | [] => EmptyString
  | [p] => p
  | p :: ps => p ++ sep ++ join sep ps
  end.

(** [str.lower] on one character: A..Z and the Latin-1 capitals. *)
Definition lower_char (c : ascii) : ascii :=
  let n := N_of_ascii c in
  if ((65 <=? n) && (n <=? 90) || (192 <=? n) && (n <=? 222) && negb (n =? 215))%N
  then ascii_of_N (n + 32) else c.

Fixpoint lower (s : string) : string :=
  match s with
  | EmptyString => EmptyString
  | String c s' => String (lower_char c) (lower s')
  end.

(** [needle in hay] *)
Fixpoint contains (needle hay : string) : bool :=
  String.prefix needle hay
  || match hay with
     | EmptyString => false
     | String _ hay' => contains needle hay'
     end.

(** A string with nothing but white space (the empty string included). *)
Fixpoint blank (s : string) : bool :=
  match s with
  | EmptyString => true
  | String c s' => isspace c && blank s'
  end.

(** [[p.strip() for p in s.split("/") if p.strip()]], the comprehension of
    [build_tree] and of [_validate_item]. *)
Definition path_parts (s : string) : list string :=
  map strip (filter (fun p => truthy (strip p)) (split "/" s)).

(** [str(n)] for an [int]. *)
Definition str_of_int (z : Z) : string := NilZero.string_of_int (Z.to_int z).

End Py.

(** ** config.py *)

Module Config.

(** Maximum allowed folder nesting depth for reorganised bookmarks: a number
    of levels. *)
Definition MAX_FOLDER_DEPTH : nat := 4.

(** Default batch size for LLM processing. *)
Definition DEFAULT_BATCH_SIZE : Z := 25.

End Config.

(** ** Dynamic values: what [json.loads] returns *)

Inductive pyval : Type :=
| PNone
| PBool (b : bool)
| PInt (z : Z)
| PFloat (f : float)
| PStr (s : string)
| PList (items : list pyval)
| PDict (entries : list (string * pyval)).

(** A [dict] with string keys, in insertion order, keys unique. *)
Abbreviation pydict := (list (string * pyval)).

(** The text of a JSON document, as [json.loads] sees it. *)
Inductive Content : Type :=
| Malformed (msg : string)   (* json.loads raises JSONDecodeError(msg) *)
| Parsed (v : pyval).

(** Exception classes, and an exception with its [str(exc)]. *)
Inductive ExcType : Type :=
| LLMInvocationError
| ValueError
| RuntimeError
| TypeError
| AttributeError
| ValidationError
| JSONDecodeError
| FileNotFoundError
| ProviderError (class_name : string).

Record PyExc : Type := Exc { exc_type : ExcType; exc_str : string }.

(** What the Python runtime and pydantic decide on values whose printed form
    or numeric reading is outside this development. *)
Class Runtime : Type := {
  (** [str(v)] for a float, a list or a dict *)
  repr : pyval -> string;
  (** pydantic's lax [int] from a float or from a string *)
  int_lax : pyval -> option Z
}.

Module Dyn.

Fixpoint get (k : string) (d : pydict) : option pyval :=
  match d with
  | [] => None
  | (k', v) :: d' => if String.eqb k k' then Some v else get k d'
  end.

(** [k in d] *)
Definition mem (k : string) (d : pydict) : bool :=
  match get k d with Some _ => true | None => false end.

(** [d.get(k, default)] *)
Definition get_default (k : string) (default : pyval) (d : pydict) : pyval :=
  match get k d with Some v => v | None => default end.

(** [d[k] = v]: the key keeps its place, a new key goes last. *)
Fixpoint set (k : string) (v : pyval) (d : pydict) : pydict :=
  match d with
  | [] => [(k, v)]
  | (k', v') :: d' =>
      if String.eqb k k' then (k, v) :: d' else (k', v') :: set k v d'
  end.

(** [bool(v)] *)
Definition truthy (v : pyval) : bool :=
  match v with
  | PNone => false
  | PBool b => b
  | PInt z => negb (z =? 0)%Z
  | PFloat f => negb (PrimFloat.eqb f PrimFloat.zero)
  | PStr s => Py.truthy s
  | PList l => match l with [] => false | _ => true end
  | PDict d => match d with [] => false | _ => true end
  end.

Fixpoint chars (s : string) : list pyval :=
  match s with
  | EmptyString => []
  | String c s' => PStr (String c EmptyString) :: chars s'
  end.

(** [iter(v)]: the elements of a list, the characters of a string, the keys
    of a dict; [None] where Python raises [TypeError]. *)
Definition iterate (v : pyval) : option (list pyval) :=
  match v with
  | PList l => Some l
  | PStr s => Some (chars s)
  | PDict d => Some (map (fun kv => PStr (fst kv)) d)
  | _ => None
  end.

(** [str(v)] *)
Definition str `{Runtime} (v : pyval) : string :=
  match v with
  | PStr s => s
  | PNone => "None"
  | PBool true => "True"
  | PBool false => "False"
  | PInt z => Py.str_of_int z
  | _ => repr v
  end.

End Dyn.

(** ** models.py *)

(** Metadata scraped from the bookmark target. *)
Module BookmarkMetadata.
Record t : Type := mk {
  title : string;
  description : string;
  tags : list string
}.
Definition with_tags (v : list string) (m : t) : t :=
  mk (title m) (description m) v.
End BookmarkMetadata.

(** Bookmark entry captured from the HTML export. The metadata object is
    created with its record by every constructor of the repository and is
    never shared, so it is part of the record's cell. *)
Module BookmarkRecord.
Record t : Type := mk {
  title_before : string;
  url : string;
  location_before : string;
  metadata : BookmarkMetadata.t;
  title_after : string;
  location_after : string
}.
Definition with_title_after (v : string) (r : t) : t :=
  mk (title_before r) (url r) (location_before r) (metadata r) v (location_after r).
Definition with_location_after (v : string) (r : t) : t :=
  mk (title_before r) (url r) (location_before r) (metadata r) (title_after r) v.
Definition with_metadata (v : BookmarkMetadata.t) (r : t) : t :=
  mk (title_before r) (url r) (location_before r) v (title_after r) (location_after r).
End BookmarkRecord.

(** The outcome of validating one value against a pydantic schema: the value,
    a validation error (collected, raised as [ValidationError] at the end),
    or an exception a validator function raised, which escapes at once. *)
Inductive Validated (A : Type) : Type :=
| Valid (a : A)
| Invalid
| Crash (e : ExcType).
Arguments Valid {A} a.
Arguments Invalid {A}.
Arguments Crash {A} e.

Module Pydantic.

(** Fields are validated in order; a validator's own exception escapes when
    it is reached, also after an earlier field was found invalid. *)
Definition ap {A B : Type} (f : Validated (A -> B)) (x : Validated A) : Validated B :=
  match f, x with
  | Crash e, _ => Crash e
  | _, Crash e => Crash e
  | Invalid, _ => Invalid
  | _, Invalid => Invalid
  | Valid g, Valid a => Valid (g a)
  end.

(** A [str] field takes a string and nothing else. *)
Definition str_field (v : pyval) : Validated string :=
  match v with PStr s => Valid s | _ => Invalid end.

(** An [int] field in lax mode. *)
Definition int_field `{Runtime} (v : pyval) : Validated Z :=
  match v with
  | PInt z => Valid z
  | PBool b => Valid (Z.b2z b)
  | PFloat _ | PStr _ => match int_lax v with Some z => Valid z | None => Invalid end
  | _ => Invalid
  end.

(** A required field, and a field with a default. *)
Definition required {A : Type} (check : pyval -> Validated A) (k : string) (d : pydict)
  : Validated A :=
  match Dyn.get k d with Some v => check v | None => Invalid end.

Definition optional {A : Type} (check : pyval -> Validated A) (default : A)
    (k : string) (d : pydict) : Validated A :=
  match Dyn.get k d with Some v => check v | None => Valid default end.

(** [model_validate] either returns the model or raises. *)
Definition raise_or {A : Type} (v : Validated A) : ExcType + A :=
  match v with
  | Valid a => inr a
  | Invalid => inl ValidationError
  | Crash e => inl e
  end.

End Pydantic.

(** Pydantic model for bookmark metadata. *)
Module BookmarkMetadataModel.
Record t : Type := mk {
  title : string;
  description : string;
  tags : list string
}.

(** [tag.strip()] needs a string. *)
Fixpoint strip_each (l : list pyval) : Validated (list string) :=
  match l with
  | [] => Valid []
  | PStr s :: l' =>
      match strip_each l' with
      | Valid r => Valid (Py.strip s :: r)
      | other => other
      end
  | _ :: _ => Crash AttributeError
  end.

(** [[tag.strip() for tag in value] if value else []], run before the
    [list[str]] check, which its result always passes. *)
Definition _normalise_tags (value : pyval) : Validated (list string) :=
  if Dyn.truthy value then
    match Dyn.iterate value with
    | Some l => strip_each l
    | None => Crash TypeError
    end
  else Valid [].

Definition validate (v : pyval) : Validated t :=
  match v with
  | PDict d =>
      Pydantic.ap (Pydantic.ap (Pydantic.ap (Valid mk)
        (Pydantic.optional Pydantic.str_field "" "title" d))
        (Pydantic.optional Pydantic.str_field "" "description" d))
        (Pydantic.optional _normalise_tags [] "tags" d)
  | _ => Invalid
  end.

(** [BookmarkMetadataModel(title=..., description=..., tags=...)] *)
Definition init (title description : string) (tags : list string) : t :=
  mk title description (map Py.strip tags).

(** [model_dump(mode="json")] *)
Definition model_dump (m : t) : pyval :=
  PDict [("title", PStr (title m));
         ("description", PStr (description m));
         ("tags", PList (map PStr (tags m)))].
End BookmarkMetadataModel.

(** Pydantic model for a bookmark entry. *)
Module BookmarkEntryModel.
Record t : Type := mk {
  title_before : string;
  title_after : string;
  url : string;
  location_before : string;
  location_after : string;
  link_metadata : BookmarkMetadataModel.t
}.

Definition validate (v : pyval) : Validated t :=
  match v with
  | PDict d =>
      Pydantic.ap (Pydantic.ap (Pydantic.ap (Pydantic.ap (Pydantic.ap (Pydantic.ap
        (Valid mk)
        (Pydantic.required Pydantic.str_field "title_before" d))
        (Pydantic.optional Pydantic.str_field "" "title_after" d))
        (Pydantic.required Pydantic.str_field "url" d))
        (Pydantic.required Pydantic.str_field "location_before" d))
        (Pydantic.optional Pydantic.str_field "" "location_after" d))
        (Pydantic.required BookmarkMetadataModel.validate "link_metadata" d)
  | _ => Invalid
  end.

Definition model_validate (v : pyval) : ExcType + t := Pydantic.raise_or (validate v).

Definition model_dump (m : t) : pyval :=
  PDict [("title_before", PStr (title_before m));
         ("title_after", PStr (title_after m));
         ("url", PStr (url m));
         ("location_before", PStr (location_before m));
         ("location_after", PStr (location_after m));
         ("link_metadata", BookmarkMetadataModel.model_dump (link_metadata m))].
End BookmarkEntryModel.

(** Model representing a single LLM reorganisation output entry. *)
Module LLMReorgEntryModel.
Record t : Type := mk {
  index : Z;
  title_after : string;
  location_after : string;
  tags : list string
}.

(** [[str(tag).strip() for tag in value] if value else []] *)
Definition _clean_tags `{Runtime} (value : pyval) : Validated (list string) :=
  if Dyn.truthy value then
    match Dyn.iterate value with
    | Some l => Valid (map (fun tag => Py.strip (Dyn.str tag)) l)
    | None => Crash TypeError
    end
  else Valid [].

Definition validate `{Runtime} (d : pydict) : Validated t :=
  Pydantic.ap (Pydantic.ap (Pydantic.ap (Pydantic.ap (Valid mk)
    (Pydantic.required Pydantic.int_field "index" d))
    (Pydantic.optional Pydantic.str_field "" "title_after" d))
    (Pydantic.required Pydantic.str_field "location_after" d))
    (Pydantic.optional _clean_tags [] "tags" d).

Definition model_validate `{Runtime} (d : pydict) : ExcType + t :=
  Pydantic.raise_or (validate d).
End LLMReorgEntryModel.

(** [BookmarkRecord.to_model] and [BookmarkRecord.from_model] *)
Definition to_model (self : BookmarkRecord.t) : BookmarkEntryModel.t :=
  BookmarkEntryModel.mk
    (BookmarkRecord.title_before self)
    (BookmarkRecord.title_after self)
    (BookmarkRecord.url self)
    (BookmarkRecord.location_before self)
    (BookmarkRecord.location_after self)
    (BookmarkMetadataModel.init
       (BookmarkMetadata.title (BookmarkRecord.metadata self))
       (BookmarkMetadata.description (BookmarkRecord.metadata self))
       (BookmarkMetadata.tags (BookmarkRecord.metadata self))).

Definition from_model (model : BookmarkEntryModel.t) : BookmarkRecord.t :=
  let metadata :=
    BookmarkMetadata.mk
      (BookmarkMetadataModel.title (BookmarkEntryModel.link_metadata model))
      (BookmarkMetadataModel.description (BookmarkEntryModel.link_metadata model))
      (BookmarkMetadataModel.tags (BookmarkEntryModel.link_metadata model)) in
  BookmarkRecord.mk
    (BookmarkEntryModel.title_before model)
    (BookmarkEntryModel.url model)
    (BookmarkEntryModel.location_before model)
    metadata
    (BookmarkEntryModel.title_after model)
    (BookmarkEntryModel.location_after model).

(** A record object is known by its identity. *)
Abbreviation loc := nat (only parsing).

(** Tree node used when rendering the reorganised bookmark HTML. Its
    bookmarks are references to the records, not copies. *)
Inductive BookmarkTreeNode : Type :=
| Node (name : string) (children : list BookmarkTreeNode) (bookmarks : list loc).

Module Tree.

Definition name (n : BookmarkTreeNode) : string :=
  match n with Node s _ _ => s end.
Definition children (n : BookmarkTreeNode) : list BookmarkTreeNode :=
  match n with Node _ cs _ => cs end.
Definition bookmarks (n : BookmarkTreeNode) : list loc :=
  match n with Node _ _ bs => bs end.

(** [BookmarkTreeNode(name)] *)
Definition init (child_name : string) : BookmarkTreeNode := Node child_name [] [].

(** [node.add_bookmark(record)] *)
Definition add_bookmark (record : loc) (n : BookmarkTreeNode) : BookmarkTreeNode :=
  Node (name n) (children n) (bookmarks n ++ [record]).

(** [get_or_create_child(child_name)] followed by an update [f] of the child
    it returns: the first child of that name, or a new last child. *)
Fixpoint get_or_create_child (child_name : string)
    (f : BookmarkTreeNode -> BookmarkTreeNode) (cs : list BookmarkTreeNode)
  : list BookmarkTreeNode :=
  match cs with
  | [] => [f (init child_name)]
  | c :: cs' =>
      if String.eqb (name c) child_name then f c :: cs'
      else c :: get_or_create_child child_name f cs'
  end.

(** Every path of folder names that leads from [n] to a node holding the
    record [r]. *)
Fixpoint paths_to (r : loc) (n : BookmarkTreeNode) : list (list string) :=
  match n with
  | Node _ cs bs =>
      (if bool_decide (r ∈ bs) then [[]] else [])
      ++ flat_map (fun c => map (cons (name c)) (paths_to r c)) cs
  end.

(** The depth the tests measure: folder levels below the node. *)
Fixpoint depth (n : BookmarkTreeNode) : nat :=
  match n with
  | Node _ cs _ => fold_right (fun c d => Nat.max (S (depth c)) d) 0 cs
  end.

End Tree.

(** ** html_writer.py *)

Module HtmlWriter.

(** The parts of a record's location, before the depth limit. *)
Definition effective_parts (record : BookmarkRecord.t) : list string :=
  let location :=
    Py.or_else (BookmarkRecord.location_after record)
               (BookmarkRecord.location_before record) in
  let parts := Py.path_parts location in
  match parts with [] => ["Unsorted"] | _ => parts end.

(** The folder path [build_tree] files a record under. *)
Definition folder_path (MAX_FOLDER_DEPTH : nat) (record : BookmarkRecord.t) : list string :=
  let parts := effective_parts record in
  if (MAX_FOLDER_DEPTH <? length parts)%nat then take MAX_FOLDER_DEPTH parts else parts.

(** The walk from the root along [parts], creating folders on the way, and
    [add_bookmark] at its end. *)
Fixpoint place (parts : list string) (record : loc) (node : BookmarkTreeNode)
  : BookmarkTreeNode :=
  match parts with
  | [] => Tree.add_bookmark record node
  | part :: rest =>
      Node (Tree.name node)
           (Tree.get_or_create_child part (place rest record) (Tree.children node))
           (Tree.bookmarks node)
  end.

(** Build a tree of bookmark folders and bookmarks from a list of records. *)
Definition build_tree (MAX_FOLDER_DEPTH : nat) (heap : loc -> BookmarkRecord.t)
    (records : list loc) : BookmarkTreeNode :=
  fold_left
    (fun root record => place (folder_path MAX_FOLDER_DEPTH (heap record)) record root)
    records (Tree.init "Bookmarks Bar").

End HtmlWriter.

(** ** validator.py *)

Module Validator.

(** What [validate_reorganisation] raises. All but the last are [ValueError]s
    told apart by their message; the URL mismatch carries its payload. *)
Inductive Failure : Type :=
| CountMismatch (n_original n_reorganised : nat)
| UrlMultisetMismatch (missing extra : gmap string nat)
| EmptyLocation (n_records : nat)
| InvalidSnapshot
| SnapshotCountMismatch (n_models n_reorganised : nat)
| SnapshotUrlMismatch
| NoAttribute (attr : string).

Definition check (failed : bool) (f : Failure) : Failure + unit :=
  if failed then inl f else inr tt.

Definition and_then (a : Failure + unit) (b : Failure + unit) : Failure + unit :=
  match a with inl f => inl f | inr _ => b end.

(** [collections.Counter(iterable)] *)
Definition Counter (items : list string) : gmultiset string := list_to_set_disj items.

(** [dict(counter)]: the elements with their positive counts. *)
Definition counts (c : gmultiset string) : gmap string nat :=
  Pos.to_nat <$> gmultiset_car c.

Definition _assert_counts (original reorganised : list BookmarkRecord.t) : Failure + unit :=
  check (negb (length original =? length reorganised)%nat)
        (CountMismatch (length original) (length reorganised)).

Definition _assert_url_multiset (original reorganised : list BookmarkRecord.t)
  : Failure + unit :=
  let original_urls := Counter (map BookmarkRecord.url original) in
  let new_urls := Counter (map BookmarkRecord.url reorganised) in
  if bool_decide (original_urls ≠ new_urls) then
    let missing := original_urls ∖ new_urls in
    let extras := new_urls ∖ original_urls in
    inl (UrlMultisetMismatch (counts missing) (counts extras))
  else inr tt.

Definition unplaced (r : BookmarkRecord.t) : bool :=
  negb (Py.truthy (Py.strip (BookmarkRecord.location_after r)))
  && negb (Py.truthy (Py.strip (BookmarkRecord.location_before r))).

Definition _assert_locations (reorganised : list BookmarkRecord.t) : Failure + unit :=
  let empty_locations := filter (fun r => unplaced r) reorganised in
  check (match empty_locations with [] => false | _ => true end)
        (EmptyLocation (length empty_locations)).

(** [BookmarkEntryListModel.model_validate_json(raw_text)] *)
Fixpoint validate_entries (items : list pyval) : Validated (list BookmarkEntryModel.t) :=
  match items with
  | [] => Valid []
  | item :: rest =>
      Pydantic.ap (Pydantic.ap (Valid cons) (BookmarkEntryModel.validate item))
                  (validate_entries rest)
  end.

Definition model_validate_json (raw_text : Content)
  : ExcType + list BookmarkEntryModel.t :=
  match raw_text with
  | Malformed _ => inl ValidationError
  | Parsed (PList items) => Pydantic.raise_or (validate_entries items)
  | Parsed _ => inl ValidationError
  end.

(** [list_model.__root__]: a [RootModel] keeps its list in [root] and has no
    attribute of this name. *)
Definition dunder_root (list_model : list BookmarkEntryModel.t)
  : Failure + list BookmarkEntryModel.t :=
  inl (NoAttribute "__root__").

Definition _assert_json_consistency (raw_text : Content)
    (reorganised : list BookmarkRecord.t) : Failure + unit :=
  match model_validate_json raw_text with
  | inl _ => inl InvalidSnapshot
  | inr list_model =>
      match dunder_root list_model with
      | inl f => inl f
      | inr parsed_models =>
          and_then
            (check (negb (length parsed_models =? length reorganised)%nat)
                   (SnapshotCountMismatch (length parsed_models) (length reorganised)))
            (check (bool_decide
                      (Counter (map BookmarkEntryModel.url parsed_models)
                       ≠ Counter (map BookmarkRecord.url reorganised)))
                   SnapshotUrlMismatch)
      end
  end.

(** Validate reorganised output against originals. [reorganised_records] is
    what [parse_bookmark_html] read back from the rendered file, and
    [json_records] the snapshot's text when a path was given and exists. *)
Definition validate_reorganisation (original_list reorganised_records : list BookmarkRecord.t)
    (json_records : option Content) : Failure + unit :=
  and_then (_assert_counts original_list reorganised_records)
  (and_then (_assert_url_multiset original_list reorganised_records)
  (and_then (_assert_locations reorganised_records)
     match json_records with
     | Some raw_text => _assert_json_consistency raw_text reorganised_records
     | None => inr tt
     end)).

End Validator.

(** ** organiser.py *)

Module Organiser.

Definition DEFAULT_MODEL : string := "gpt-4.1-mini".

(** One chat completion: the [message.content] of each of its choices. *)
Record ChatCompletion : Type := { choices : list (option Content) }.

(** What one call of [chat.completions.create] does. *)
Inductive Outcome : Type :=
| Raises (exc : PyExc)
| Returns (response : ChatCompletion).

(** The completion client: the outcome of its n-th call (from 0), given the
    model asked for and whether a temperature was passed. The messages of a
    request reach nothing but the client, so a client that reads them is one
    of these scripts. *)
Definition Client : Type := nat -> string -> bool -> Outcome.

(** What a run does besides computing: client calls and sleeps. *)
Inductive Event : Type :=
| Call (model : string) (temperature : bool)
| Pause                      (* time.sleep(0.1) *)
| Backoff (attempt : nat).   (* time.sleep(backoff_seconds * attempt) *)

(** The organiser object. *)
Record t : Type := mk {
  _model : string;
  _fallback_model : string;
  _batch_size : positive;   (* [max(1, batch_size)] *)
  _supports_temperature : bool
}.

(** [fallback_model or os.getenv("OPENAI_FALLBACK_MODEL") or DEFAULT_MODEL] *)
Definition or_default (a : option string) (b : string) : string :=
  match a with
  | Some s => Py.or_else s b
  | None => b
  end.

(** [BookmarkOrganiser(model, batch_size, fallback_model=...)]; [env] is the
    value of [OPENAI_FALLBACK_MODEL]. *)
Definition init (model : string) (batch_size : Z) (fallback_model env : option string) : t :=
  mk model
     (or_default fallback_model (or_default env DEFAULT_MODEL))
     (Z.to_pos (Z.max 1 batch_size))
     true.

(** The state a run works on. *)
Record World : Type := mkWorld {
  heap : loc -> BookmarkRecord.t;     (* the record objects *)
  next_loc : loc;                     (* the next object to be created *)
  files : gmap string Content;        (* the JSON files, by path *)
  self : t;                           (* the organiser *)
  calls : nat;                        (* client calls made so far *)
  trace : list Event                  (* what happened, latest last *)
}.

Definition set_heap (h : loc -> BookmarkRecord.t) (w : World) : World :=
  mkWorld h (next_loc w) (files w) (self w) (calls w) (trace w).
Definition set_self (o : t) (w : World) : World :=
  mkWorld (heap w) (next_loc w) (files w) o (calls w) (trace w).
Definition emit (e : Event) (w : World) : World :=
  mkWorld (heap w) (next_loc w) (files w) (self w) (calls w) (trace w ++ [e]).
Definition count_call (w : World) : World :=
  mkWorld (heap w) (next_loc w) (files w) (self w) (S (calls w)) (trace w).

(** A computation that reads and writes the world and may raise. *)
Definition M (E A : Type) : Type := World -> (E + A) * World.

Definition ret {E A : Type} (a : A) : M E A := fun w => (inr a, w).
Definition bind {E A B : Type} (c : M E A) (k : A -> M E B) : M E B :=
  fun w => match c w with
           | (inl e, w') => (inl e, w')
           | (inr a, w') => k a w'
           end.

Notation "'do' x <- c ; k" := (bind c (fun x => k))
  (at level 10, x name, c at level 100, k at level 200).

Definition _extract_items (response : ChatCompletion) : PyExc + list pydict :=
  match choices response with
  | [] => inl (Exc RuntimeError "OpenAI response missing choices")
  | None :: _ => inl (Exc RuntimeError "OpenAI response content empty")
  | Some (Malformed msg) :: _ => inl (Exc JSONDecodeError msg)
  | Some (Parsed (PList raw_list)) :: _ =>
      inr (omap (fun item => match item with PDict d => Some d | _ => None end) raw_list)
  | Some (Parsed _) :: _ => inl (Exc TypeError "LLM response root is not a list")
  end.

Definition _validate_item `{Runtime} (MAX_FOLDER_DEPTH : nat) (obj : pydict)
  : option LLMReorgEntryModel.t :=
  if negb (Dyn.mem "index" obj) || negb (Dyn.mem "location_after" obj) then None
  else
    let location := Py.strip (Dyn.str (Dyn.get_default "location_after" (PStr "") obj)) in
    let obj :=
      if Py.truthy location then
        let parts := Py.path_parts location in
        let parts :=
          if (MAX_FOLDER_DEPTH <? length parts)%nat
          then take MAX_FOLDER_DEPTH parts else parts in
        Dyn.set "location_after" (PStr (Py.join "/" parts)) obj
      else obj in
    match LLMReorgEntryModel.model_validate obj with
    | inr item => Some item
    | inl _ => None
    end.

(** One call of the client and the validation of what it returns. *)
Definition _single_attempt `{Runtime} (MAX_FOLDER_DEPTH : nat) (client : Client)
  : M PyExc (list LLMReorgEntryModel.t) :=
  fun w =>
    let temperature := _supports_temperature (self w) in
    let outcome := client (calls w) (_model (self w)) temperature in
    let w := count_call (emit (Call (_model (self w)) temperature) w) in
    match outcome with
    | Raises exc => (inl exc, w)
    | Returns response =>
        match _extract_items response with
        | inl exc => (inl exc, w)
        | inr raw_items => (inr (omap (_validate_item MAX_FOLDER_DEPTH) raw_items), w)
        end
    end.

(** Handle an exception and decide whether to immediate-continue. *)
Definition _process_exception (exc : PyExc) (attempt max_attempts : nat) (w : World)
  : bool * World :=
  let message := Py.lower (exc_str exc) in
  if _supports_temperature (self w)
     && Py.contains "temperature" message
     && Py.contains "unsupported" message
  then
    let o := self w in
    (true, emit Pause (set_self (mk (_model o) (_fallback_model o) (_batch_size o) false) w))
  else if (attempt =? 1)%nat
          && negb (String.eqb (_fallback_model (self w)) (_model (self w)))
          && Py.contains "model" message
          && (Py.contains "not found" message || Py.contains "does not exist" message)
  then
    let o := self w in
    (true, emit (Backoff attempt)
             (set_self (mk (_fallback_model o) (_fallback_model o) (_batch_size o)
                           (_supports_temperature o)) w))
  else (false, w).

(** The body of [for attempt in range(1, max_attempts + 1)] and what follows
    the loop; [attempts] are the attempts still to run. *)
Fixpoint retry_loop `{Runtime} (MAX_FOLDER_DEPTH : nat) (client : Client)
    (max_attempts : nat) (attempts : list nat) (last_error : option PyExc)
  : M PyExc (list LLMReorgEntryModel.t) :=
  fun w =>
    match attempts with
    | [] =>
        match last_error with
        | Some e => (inl e, w)
        | None => (inl (Exc LLMInvocationError ""), w)
        end
    | attempt :: rest =>
        match _single_attempt MAX_FOLDER_DEPTH client w with
        | (inr validated, w1) =>
            match validated with
            | _ :: _ => (inr validated, w1)
            | [] =>
                retry_loop MAX_FOLDER_DEPTH client max_attempts rest
                  (Some (Exc ValueError "No valid items after validation")) w1
            end
        | (inl exc, w1) =>
            let '(immediate, w2) := _process_exception exc attempt max_attempts w1 in
            let w3 := if immediate then w2 else emit (Backoff attempt) w2 in
            retry_loop MAX_FOLDER_DEPTH client max_attempts rest last_error w3
        end
    end.

(** Invoke chat completion with retry/backoff and return validated items. *)
Definition _invoke_with_retry `{Runtime} (MAX_FOLDER_DEPTH : nat) (client : Client)
    (max_attempts : nat) : M PyExc (list LLMReorgEntryModel.t) :=
  retry_loop MAX_FOLDER_DEPTH client max_attempts (seq 1 max_attempts) None.

(** [{item.index: item for item in parsed}]: a later item replaces an earlier
    one of the same index. *)
Definition index_map (parsed : list LLMReorgEntryModel.t) : gmap Z LLMReorgEntryModel.t :=
  foldl (fun m item => <[LLMReorgEntryModel.index item := item]> m) ∅ parsed.

(** The three assignments the merge loop makes on a record with an entry. *)
Definition apply_entry (entry : LLMReorgEntryModel.t) (record : BookmarkRecord.t)
  : BookmarkRecord.t :=
  let record :=
    BookmarkRecord.with_title_after
      (Py.or_else (LLMReorgEntryModel.title_after entry)
                  (BookmarkRecord.title_before record)) record in
  let record :=
    BookmarkRecord.with_location_after
      (Py.or_else (LLMReorgEntryModel.location_after entry)
                  (BookmarkRecord.location_before record)) record in
  let tags_list :=
    map Py.strip
      (filter (fun tag => Py.truthy (Py.strip tag)) (LLMReorgEntryModel.tags entry)) in
  BookmarkRecord.with_metadata
    (BookmarkMetadata.with_tags tags_list (BookmarkRecord.metadata record)) record.

(** [for idx, record in enumerate(chunk, start=start)] *)
Fixpoint merge_loop (entries : gmap Z LLMReorgEntryModel.t) (idx : nat) (chunk : list loc)
    (h : loc -> BookmarkRecord.t) : loc -> BookmarkRecord.t :=
  match chunk with
  | [] => h
  | record :: rest =>
      merge_loop entries (S idx) rest
        match entries !! Z.of_nat idx with
        | None => h
        | Some entry => <[record := apply_entry entry (h record)]> h
        end
  end.

(** [range(0, n, step)] for a positive [step] *)
Definition range_step (n step : nat) : list nat :=
  map (fun k => k * step) (seq 0 ((n + step - 1) / step)).

(** [for start in range(0, len(mutable_records), self._batch_size)] *)
Fixpoint batch_loop `{Runtime} (MAX_FOLDER_DEPTH : nat) (client : Client)
    (mutable_records : list loc) (starts : list nat) : M PyExc unit :=
  match starts with
  | [] => ret tt
  | start :: rest =>
      fun w =>
        let chunk := take (Pos.to_nat (_batch_size (self w))) (drop start mutable_records) in
        (do parsed <- _invoke_with_retry MAX_FOLDER_DEPTH client 3;
         do _ <- (fun w => (inr tt, set_heap (merge_loop (index_map parsed) start chunk (heap w)) w));
         batch_loop MAX_FOLDER_DEPTH client mutable_records rest) w
  end.

(** Reorganise bookmarks using the LLM model. The payload, the structure
    summary and the messages of a batch are built from the records without
    changing them and go to the client only; they are left out with the
    client's reading of them. *)
Definition reorganise `{Runtime} (MAX_FOLDER_DEPTH : nat) (client : Client)
    (records : list loc) : M PyExc (list loc) :=
  fun w =>
    let mutable_records := records in
    (do _ <- batch_loop MAX_FOLDER_DEPTH client mutable_records
               (range_step (length mutable_records) (Pos.to_nat (_batch_size (self w))));
     ret mutable_records) w.

(** Write bookmark records to a JSON file. *)
Definition write_json (records : list loc) (path : string) : M ExcType unit :=
  fun w =>
    let models := map (fun record => to_model (heap w record)) records in
    let payload := map BookmarkEntryModel.model_dump models in
    (inr tt, mkWorld (heap w) (next_loc w) (<[path := Parsed (PList payload)]> (files w))
                     (self w) (calls w) (trace w)).

(** [[BookmarkEntryModel.model_validate(item) for item in raw]] *)
Fixpoint validate_each (raw : list pyval) : ExcType + list BookmarkEntryModel.t :=
  match raw with
  | [] => inr []
  | item :: rest =>
      match BookmarkEntryModel.model_validate item with
      | inl e => inl e
      | inr model =>
          match validate_each rest with
          | inl e => inl e
          | inr models => inr (model :: models)
          end
      end
  end.

(** Creating record objects, one after the other. *)
Fixpoint create_all (values : list BookmarkRecord.t) (w : World) : list loc * World :=
  match values with
  | [] => ([], w)
  | v :: rest =>
      let r := next_loc w in
      let w := mkWorld (<[r := v]> (heap w)) (S r) (files w) (self w) (calls w) (trace w) in
      let '(rs, w) := create_all rest w in
      (r :: rs, w)
  end.

(** Load bookmark records from a JSON file. *)
Definition load_json (path : string) : M ExcType (list loc) :=
  fun w =>
    match files w !! path with
    | None => (inl FileNotFoundError, w)
    | Some (Malformed _) => (inl JSONDecodeError, w)
    | Some (Parsed raw) =>
        match Dyn.iterate raw with
        | None => (inl TypeError, w)
        | Some items =>
            match validate_each items with
            | inl e => (inl e, w)
            | inr models =>
                let '(records, w) := create_all (map from_model models) w in
                (inr records, w)
            end
        end
    end.

End Organiser.

(** ** Notions the properties are stated with *)

(** A runtime for examples: it prints every float and container as the empty
    string and reads no float or string as an [int]. The examples below hold
    no such value. *)
Module Sample.
Definition runtime : Runtime := {| repr := fun _ => ""; int_lax := fun _ => None |}.
End Sample.

(** The fields the reorganisation never writes. *)
Definition same_frame (a b : BookmarkRecord.t) : Prop :=
  BookmarkRecord.title_before a = BookmarkRecord.title_before b
  /\ BookmarkRecord.url a = BookmarkRecord.url b
  /\ BookmarkRecord.location_before a = BookmarkRecord.location_before b
  /\ BookmarkMetadata.title (BookmarkRecord.metadata a)
     = BookmarkMetadata.title (BookmarkRecord.metadata b)
  /\ BookmarkMetadata.description (BookmarkRecord.metadata a)
     = BookmarkMetadata.description (BookmarkRecord.metadata b).

(** [entry] is the item of [parsed] that the index map keeps for [idx]: the
    last one with that index. *)
Definition carries (parsed : list LLMReorgEntryModel.t) (idx : Z)
    (entry : LLMReorgEntryModel.t) : Prop :=
  exists before after,
    parsed = (before ++ entry :: after)%list
    /\ LLMReorgEntryModel.index entry = idx
    /\ Forall (fun e => LLMReorgEntryModel.index e ≠ idx) after.

(** The index lies in the batch that starts at [start] and has [n] records. *)
Definition in_batch (start n : nat) (idx : Z) : bool :=
  (Z.of_nat start <=? idx)%Z && (idx <? Z.of_nat (start + n))%Z.

(** The record store is the same in both worlds. *)
Definition same_store (w w' : Organiser.World) : Prop :=
  Organiser.heap w' = Organiser.heap w
  /\ Organiser.next_loc w' = Organiser.next_loc w
  /\ Organiser.files w' = Organiser.files w.

(** The organiser with its custom temperature switched off. *)
Definition without_temperature (o : Organiser.t) : Organiser.t :=
  Organiser.mk (Organiser._model o) (Organiser._fallback_model o)
               (Organiser._batch_size o) false.

(** The world after a call that passed a temperature was rejected for it:
    one more call made, the temperature off, and the short pause taken. *)
Definition after_rejection (w : Organiser.World) : Organiser.World :=
  Organiser.mkWorld (Organiser.heap w) (Organiser.next_loc w) (Organiser.files w)
    (without_temperature (Organiser.self w))
    (S (Organiser.calls w))
    (Organiser.trace w
     ++ [Organiser.Call (Organiser._model (Organiser.self w)) true; Organiser.Pause]).

(** An event that is not a call with a temperature. *)
Definition plain (e : Organiser.Event) : Prop :=
  match e with
  | Organiser.Call _ temperature => temperature = false
  | _ => True
  end.

(** [w'] continues [w] with the temperature still off and no call passing
    one. *)
Definition stays_off (w w' : Organiser.World) : Prop :=
  Organiser._supports_temperature (Organiser.self w') = false
  /\ exists events,
       Organiser.trace w' = (Organiser.trace w ++ events)%list /\ Forall plain events.

(** A record with each of its tags trimmed. *)
Definition trimmed (r : BookmarkRecord.t) : BookmarkRecord.t :=
  BookmarkRecord.with_metadata
    (BookmarkMetadata.with_tags
       (map Py.strip (BookmarkMetadata.tags (BookmarkRecord.metadata r)))
       (BookmarkRecord.metadata r)) r.

(** Writing the records to [path] and loading them back. *)
Definition round_trip (records : list loc) (path : string)
  : Organiser.M ExcType (list loc) :=
  Organiser.bind (Organiser.write_json records path)
                 (fun _ => Organiser.load_json path).

(** No white space in front. *)
Definition clean_front (s : string) : Prop :=
  match s with
  | EmptyString => True
  | String c _ => Py.isspace c = false
  end.

(** How many times [u] occurs in [l]. *)
Fixpoint occurrences (u : string) (l : list string) : nat :=
  match l with
  | [] => 0
  | x :: l' => (if String.eqb x u then 1 else 0) + occurrences u l'
  end.

(** A client whose every call returns a response with a valid item in it. *)
Definition answers `{Runtime} (MAX_FOLDER_DEPTH : nat) (client : Organiser.Client) : Prop :=
  forall n model temperature,
  exists response raw_items item items,
    client n model temperature = Organiser.Returns response
    /\ Organiser._extract_items response = inr raw_items
    /\ omap (Organiser._validate_item MAX_FOLDER_DEPTH) raw_items = item :: items.

(** The paths to [r] that start in one of the children [cs]. *)
Definition child_paths (r : loc) (cs : list BookmarkTreeNode) : list (list string) :=
  flat_map (fun c => map (cons (Tree.name c)) (Tree.paths_to r c)) cs.

(** The depth of a node, one level down. *)
Definition level (cs : list BookmarkTreeNode) : nat :=
  fold_right (fun c d => Nat.max (S (Tree.depth c)) d) 0 cs.

(** The parts [_validate_item] keeps of a location. *)
Definition clamped_parts (D : nat) (location : string) : list string :=
  if (D <? length (Py.path_parts location))%nat
  then take D (Py.path_parts location) else Py.path_parts location.

(** ** Notions of the further properties *)

(** The slices [mutable_records[start : start + B]] that the batch loop of
    [reorganise] takes, in the order it takes them. *)
Definition batch_slices (B : positive) (records : list loc) : list (list loc) :=
  map (fun start => take (Pos.to_nat B) (drop start records))
      (Organiser.range_step (length records) (Pos.to_nat B)).

(** What a run may do to the organiser [o]: replace its model by its
    fallback model and switch its temperature off, nothing else. *)
Definition settings_kept (o o' : Organiser.t) : Prop :=
  Organiser._fallback_model o' = Organiser._fallback_model o
  /\ Organiser._batch_size o' = Organiser._batch_size o
  /\ (Organiser._model o' = Organiser._model o
      \/ Organiser._model o' = Organiser._fallback_model o)
  /\ (Organiser._supports_temperature o = false ->
      Organiser._supports_temperature o' = false).

(** The organiser switched to its fallback model. *)
Definition with_fallback (o : Organiser.t) : Organiser.t :=
  Organiser.mk (Organiser._fallback_model o) (Organiser._fallback_model o)
               (Organiser._batch_size o) (Organiser._supports_temperature o).

(** The world after the first attempt found the model missing: one more call
    made, the fallback model in place, and the first backoff taken. *)
Definition after_fallback (w : Organiser.World) : Organiser.World :=
  Organiser.mkWorld (Organiser.heap w) (Organiser.next_loc w) (Organiser.files w)
    (with_fallback (Organiser.self w))
    (S (Organiser.calls w))
    (Organiser.trace w
     ++ [Organiser.Call (Organiser._model (Organiser.self w))
                        (Organiser._supports_temperature (Organiser.self w));
         Organiser.Backoff 1]).

(** The character [c] occurs in [s]. *)
Fixpoint has_char (c : ascii) (s : string) : bool :=
  match s with
  | EmptyString => false
  | String a s' => Ascii.eqb a c || has_char c s'
  end.

(** A folder name as the normalisation leaves it: not empty, trimmed, and
    without a separator. *)
Definition folder_name (p : string) : Prop :=
  p ≠ "" /\ Py.strip p = p /\ has_char "/" p = false.

(** Every bookmark of a tree: those of the node, then those of its folders. *)
Fixpoint all_bookmarks (n : BookmarkTreeNode) : list loc :=
  match n with
  | Node _ cs bs => bs ++ flat_map all_bookmarks cs
  end.

(** The child that [get_or_create_child] finds, when there is one. *)
Fixpoint find_child (child_name : string) (cs : list BookmarkTreeNode)
  : option BookmarkTreeNode :=
  match cs with
  | [] => None
  | c :: cs' =>
      if String.eqb (Tree.name c) child_name then Some c else find_child child_name cs'
  end.

(** The node a path of folder names leads to. *)
Fixpoint descend (path : list string) (n : BookmarkTreeNode) : option BookmarkTreeNode :=
  match path with
  | [] => Some n
  | part :: rest =>
      match find_child part (Tree.children n) with
      | Some c => descend rest c
      | None => None
      end
  end.

(** The bookmarks filed directly under a path. *)
Definition content (path : list string) (n : BookmarkTreeNode) : list loc :=
  match descend path n with
  | Some m => Tree.bookmarks m
  | None => []
  end.

(** No two folders of one node have the same name, at every level. *)
Fixpoint unique_names (n : BookmarkTreeNode) : Prop :=
  match n with
  | Node _ cs _ =>
      NoDup (map Tree.name cs)
      /\ (fix all (cs : list BookmarkTreeNode) : Prop :=
            match cs with
            | [] => True
            | c :: cs' => unique_names c /\ all cs'
            end) cs
  end.

(** ** Built-in functions on lists *)

Module Builtins.

(** Where [x] goes in a list that is sorted by [key]: in front of the first
    element whose key is not smaller. *)
Fixpoint insert_by {A : Type} (key : A -> string) (x : A) (l : list A) : list A :=
  match l with
  | [] => [x]
  | y :: l' => if String.ltb (key y) (key x) then y :: insert_by key x l' else x :: l
  end.

(** [sorted(l, key=key)] for string keys: by code points, and elements of
    equal key in the order they had. *)
Definition sorted {A : Type} (key : A -> string) (l : list A) : list A :=
  foldr (insert_by key) [] l.

End Builtins.

(** ** organiser.py: what a request is built from *)

Module Request.

(** [_build_payload(records, start_index)] *)
Definition _build_payload (records : list BookmarkRecord.t) (start_index : nat)
  : list pydict :=
  imap (fun offset record =>
          let idx := start_index + offset in
          [("index", PInt (Z.of_nat idx));
           ("title_before", PStr (BookmarkRecord.title_before record));
           ("url", PStr (BookmarkRecord.url record));
           ("location_before", PStr (BookmarkRecord.location_before record));
           ("metadata",
            PDict
              [("title", PStr (BookmarkMetadata.title (BookmarkRecord.metadata record)));
               ("description",
                PStr (BookmarkMetadata.description (BookmarkRecord.metadata record)));
               ("tags",
                PList (map PStr (BookmarkMetadata.tags (BookmarkRecord.metadata record))))])])
       records.

(** One item of the structure summary: its ["path"], ["count"] and
    ["examples"]. *)
Record FolderSummary : Type := mkFolderSummary {
  path : string;
  count : nat;
  examples : list string
}.

(** [folders[location].append(title)] on a [defaultdict(list)]: a key that is
    new goes last. *)
Fixpoint append_to (location title : string) (folders : list (string * list string))
  : list (string * list string) :=
  match folders with
  | [] => [(location, [title])]
  | (key, titles) :: rest =>
      if String.eqb key location then (key, (titles ++ [title])%list) :: rest
      else (key, titles) :: append_to location title rest
  end.

(** The body of [for record in records] of [_summarise_structure]. *)
Definition collect (folders : list (string * list string)) (record : BookmarkRecord.t)
  : list (string * list string) :=
  let location := Py.strip (BookmarkRecord.location_after record) in
  if negb (Py.truthy location) then folders
  else
    let representative_title :=
      Py.or_else (Py.strip (BookmarkRecord.title_after record))
                 (BookmarkRecord.title_before record) in
    if Py.truthy representative_title
    then append_to location representative_title folders
    else folders.

(** [_summarise_structure(records)]: the list under ["folders"]. *)
Definition _summarise_structure (records : list BookmarkRecord.t) : list FolderSummary :=
  let folders := foldl collect [] records in
  let summary :=
    map (fun '(key, titles) => mkFolderSummary key (length titles) (take 5 titles))
        folders in
  let ordered := Builtins.sorted (fun item => Py.lower (path item)) summary in
  ordered.

End Request.

(** ** html_writer.py: the text of the bookmark file *)

Module Html.

(** [html.escape(s)] with [quote=True], its default: one character at a
    time. *)
Definition escape_char (c : ascii) : string :=
  if Ascii.eqb c "&" then "&amp;"
  else if Ascii.eqb c "<" then "&lt;"
  else if Ascii.eqb c ">" then "&gt;"
  else if Ascii.eqb c "034" then "&quot;"
  else if Ascii.eqb c "'" then "&#x27;"
  else String c EmptyString.

Fixpoint escape (s : string) : string :=
  match s with
  | EmptyString => EmptyString
  | String c s' => escape_char c ++ escape s'
  end.

End Html.

Module Render.

(** A line of the output, before it is printed. *)
Inductive Line : Type :=
| FolderTitle (depth : nat) (name : string)   (* {indent}<DT><H3>{name}</H3> *)
| ListOpen (depth : nat)                      (* {indent}<DL><p> *)
| ListClose (depth : nat)                     (* {indent}</DL><p> *)
| Link (depth : nat) (url title : string).    (* {indent}<DT><A HREF=...>{title}</A> *)

(** [s * n] *)
Fixpoint times (s : string) (n : nat) : string :=
  match n with
  | 0 => EmptyString
  | S n' => s ++ times s n'
  end.

Definition dq : string := String "034" EmptyString.
Definition nl : string := String "010" EmptyString.

(** The f-strings of [_render_node]. *)
Definition show (line : Line) : string :=
  match line with
  | FolderTitle depth name =>
      times "    " depth ++ "<DT><H3>" ++ Html.escape name ++ "</H3>"
  | ListOpen depth => times "    " depth ++ "<DL><p>"
  | ListClose depth => times "    " depth ++ "</DL><p>"
  | Link depth url title =>
      times "    " depth ++ "<DT><A HREF=" ++ dq ++ Html.escape url ++ dq
      ++ " ADD_DATE=" ++ dq ++ "0" ++ dq ++ ">" ++ Html.escape title ++ "</A>"
  end.

(** The key the bookmarks of a node are sorted by. *)
Definition bookmark_key (item : BookmarkRecord.t) : string :=
  Py.or_else (Py.lower (BookmarkRecord.title_after item))
             (Py.lower (BookmarkRecord.title_before item)).

(** The lines [_render_node(node, output, depth)] appends to [output]. The
    lines of a folder do not depend on its place among the folders, so the
    folders are rendered first and sorted by name with their lines. *)
Fixpoint _render_node (heap : loc -> BookmarkRecord.t) (node : BookmarkTreeNode)
    (depth : nat) : list Line :=
  match node with
  | Node _ children bookmarks =>
      (flat_map
         (fun folder =>
            [FolderTitle depth (fst folder); ListOpen depth]
            ++ snd folder ++ [ListClose depth])
         (Builtins.sorted (fun folder => Py.lower (fst folder))
            (map (fun child => (Tree.name child, _render_node heap child (S depth)))
                 children))
       ++ map (fun record =>
                 let title := Py.or_else (BookmarkRecord.title_after (heap record))
                                         (BookmarkRecord.title_before (heap record)) in
                 Link depth (BookmarkRecord.url (heap record)) title)
              (Builtins.sorted (fun record => bookmark_key (heap record)) bookmarks))%list
  end.

Definition HTML_HEADER : string :=
  "<!DOCTYPE NETSCAPE-Bookmark-file-1>" ++ nl
  ++ "<!-- This is an automatically generated file." ++ nl
  ++ "     It will be read and overwritten." ++ nl
  ++ "     DO NOT EDIT! -->" ++ nl
  ++ "<META HTTP-EQUIV=" ++ dq ++ "Content-Type" ++ dq
  ++ " CONTENT=" ++ dq ++ "text/html; charset=UTF-8" ++ dq ++ ">" ++ nl
  ++ "<TITLE>Bookmarks</TITLE>" ++ nl
  ++ "<H1>Bookmarks</H1>" ++ nl.

(** Render the bookmark tree as HTML. *)
Definition render_html (heap : loc -> BookmarkRecord.t) (root : BookmarkTreeNode) : string :=
  let lines := [Py.strip HTML_HEADER; "<DL><p>"] in
  let lines := (lines ++ map show (_render_node heap root 1))%list in
  let lines := (lines ++ ["</DL><p>"])%list in
  Py.join nl lines.

(** The text [write_bookmark_html(records, output_path)] writes. *)
Definition write_bookmark_html (MAX_FOLDER_DEPTH : nat) (heap : loc -> BookmarkRecord.t)
    (records : list loc) : string :=
  let tree := HtmlWriter.build_tree MAX_FOLDER_DEPTH heap records in
  let html_text := render_html heap tree in
  html_text ++ nl.

End Render.

(** ** main.py: the metadata cache *)

Module Main.

(** [{entry.url: entry for entry in cached_records}] *)
Definition url_map (heap : loc -> BookmarkRecord.t) (cached_records : list loc)
  : gmap string loc :=
  foldl (fun m entry => <[BookmarkRecord.url (heap entry) := entry]> m) ∅ cached_records.

(** [_load_cache(json_path, logger)]: no file and a file that does not load
    both give the empty cache. *)
Definition _load_cache (json_path : string)
  : Organiser.World -> gmap string loc * Organiser.World :=
  fun w =>
    match Organiser.files w !! json_path with
    | None => (∅, w)
    | Some _ =>
        match Organiser.load_json json_path w with
        | (inl _, w) => (∅, w)
        | (inr cached_records, w) => (url_map (Organiser.heap w) cached_records, w)
        end
    end.

(** [m.title or m.description or m.tags] as a condition *)
Definition has_metadata (m : BookmarkMetadata.t) : bool :=
  Py.truthy (BookmarkMetadata.title m)
  || Py.truthy (BookmarkMetadata.description m)
  || match BookmarkMetadata.tags m with [] => false | _ => true end.

(** [for record in records] of [_reuse_metadata] *)
Fixpoint reuse_loop (cache_map : gmap string loc) (records : list loc) (reused : nat)
    (heap : loc -> BookmarkRecord.t) : nat * (loc -> BookmarkRecord.t) :=
  match records with
  | [] => (reused, heap)
  | record :: rest =>
      match cache_map !! BookmarkRecord.url (heap record) with
      | None => reuse_loop cache_map rest reused heap
      | Some cached =>
          let m := BookmarkRecord.metadata (heap cached) in
          if has_metadata m then
            let metadata :=
              BookmarkMetadata.mk (BookmarkMetadata.title m)
                                  (BookmarkMetadata.description m)
                                  (BookmarkMetadata.tags m) in
            reuse_loop cache_map rest (S reused)
              (<[record := BookmarkRecord.with_metadata metadata (heap record)]> heap)
          else reuse_loop cache_map rest reused heap
      end
  end.

(** [_reuse_metadata(records, cache_map, logger)] *)
Definition _reuse_metadata (records : list loc) (cache_map : gmap string loc)
  : Organiser.World -> nat * Organiser.World :=
  fun w =>
    let '(reused, heap) := reuse_loop cache_map records 0 (Organiser.heap w) in
    (reused, Organiser.set_heap heap w).

(** [_maybe_reuse_cache(args, json_path, records, logger, effective_mode)] *)
Definition _maybe_reuse_cache (use_json_cache fresh_scrape : bool) (json_path : string)
    (records : list loc) (effective_mode : string)
  : Organiser.World -> gmap string loc * Organiser.World :=
  fun w =>
    let '(cache_map, w) :=
      if use_json_cache then _load_cache json_path w else (∅, w) in
    if negb (bool_decide (cache_map = ∅))
       && (String.eqb effective_mode "metadata" || String.eqb effective_mode "llm")
       && negb fresh_scrape
    then
      let '(_, w) := _reuse_metadata records cache_map w in
      (cache_map, w)
    else (cache_map, w).

End Main.

(** ** Notions of the properties of requests, output and cache *)

(** The entry [_build_payload] makes of a record at position [idx]. *)
Definition payload_index (entry : pydict) : option pyval := Dyn.get "index" entry.

(** The title the structure summary shows for a record. *)
Definition summary_title (record : BookmarkRecord.t) : string :=
  Py.or_else (Py.strip (BookmarkRecord.title_after record))
             (BookmarkRecord.title_before record).

(** The record counts for the folder [p] of the summary. *)
Definition summarised (p : string) (record : BookmarkRecord.t) : bool :=
  String.eqb (Py.strip (BookmarkRecord.location_after record)) p
  && Py.truthy (summary_title record).

(** The titles the summary has for the folder [p], in the order of the
    records. *)
Definition titles_under (p : string) (records : list BookmarkRecord.t) : list string :=
  map summary_title (filter (fun record => summarised p record) records).

(** The first list under a key. *)
Fixpoint get_titles (k : string) (folders : list (string * list string))
  : option (list string) :=
  match folders with
  | [] => None
  | (key, titles) :: rest => if String.eqb key k then Some titles else get_titles k rest
  end.

(** The order of [sorted]: by key, smaller or equal. *)
Definition key_le {A : Type} (key : A -> string) (a b : A) : Prop :=
  String.leb (key a) (key b) = true.

(** The links among the lines, as (url, title). *)
Definition links (lines : list Render.Line) : list (string * string) :=
  omap (fun line => match line with
                    | Render.Link _ url title => Some (url, title)
                    | _ => None
                    end) lines.

(** The link a record is written as. *)
Definition link_of (record : BookmarkRecord.t) : string * string :=
  (BookmarkRecord.url record,
   Py.or_else (BookmarkRecord.title_after record) (BookmarkRecord.title_before record)).

(** Reading the lines as nested lists: the level after the lines, when
    every line stands at the level of the list it is in. *)
Fixpoint nesting (level : nat) (lines : list Render.Line) : option nat :=
  match lines with
  | [] => Some level
  | Render.FolderTitle d _ :: rest => if (d =? level)%nat then nesting level rest else None
  | Render.ListOpen d :: rest => if (d =? level)%nat then nesting (S level) rest else None
  | Render.ListClose d :: rest => if (S d =? level)%nat then nesting d rest else None
  | Render.Link d _ _ :: rest => if (d =? level)%nat then nesting level rest else None
  end.

(** The level a line is indented to. *)
Definition line_depth (line : Render.Line) : nat :=
  match line with
  | Render.FolderTitle d _ | Render.ListOpen d | Render.ListClose d | Render.Link d _ _ => d
  end.

(** The fields [_reuse_metadata] never writes. *)
Definition same_but_metadata (a b : BookmarkRecord.t) : Prop :=
  BookmarkRecord.title_before a = BookmarkRecord.title_before b
  /\ BookmarkRecord.url a = BookmarkRecord.url b
  /\ BookmarkRecord.location_before a = BookmarkRecord.location_before b
  /\ BookmarkRecord.title_after a = BookmarkRecord.title_after b
  /\ BookmarkRecord.location_after a = BookmarkRecord.location_after b.

(** The cache has metadata for the record. *)
Definition reusable (cache_map : gmap string loc) (heap : loc -> BookmarkRecord.t)
    (record : loc) : bool :=
  match cache_map !! BookmarkRecord.url (heap record) with
  | Some cached => Main.has_metadata (BookmarkRecord.metadata (heap cached))
  | None => false
  end.

(** The record after [_reuse_metadata], by the heap before it. *)
Definition reused_record (cache_map : gmap string loc) (heap : loc -> BookmarkRecord.t)
    (record : loc) : BookmarkRecord.t :=
  match cache_map !! BookmarkRecord.url (heap record) with
  | Some cached =>
      if Main.has_metadata (BookmarkRecord.metadata (heap cached))
      then BookmarkRecord.with_metadata (BookmarkRecord.metadata (heap cached)) (heap record)
      else heap record
  | None => heap record
  end.

(** The folder titles that stand at level [d], in the order of the lines. *)
Definition folder_titles_at (d : nat) (lines : list Render.Line) : list string :=
  omap (fun line => match line with
                    | Render.FolderTitle d' name => if (d' =? d)%nat then Some name else None
                    | _ => None
                    end) lines.

(** The links that stand at level [d], in the order of the lines. *)
Definition links_at (d : nat) (lines : list Render.Line) : list (string * string) :=
  omap (fun line => match line with
                    | Render.Link d' url title =>
                        if (d' =? d)%nat then Some (url, title) else None
                    | _ => None
                    end) lines.

(** ** Notions of the batches of a run *)

(** The validated lists the batches of a run get, batch by batch: what
    [_invoke_with_retry] returns for each of the first [batches] batches, up
    to the first one for which it raises. *)
Fixpoint responses `{Runtime} (MAX_FOLDER_DEPTH : nat) (client : Organiser.Client)
    (batches : nat) (w : Organiser.World) : list (list LLMReorgEntryModel.t) :=
  match batches with
  | 0 => []
  | S batches' =>
      match Organiser._invoke_with_retry MAX_FOLDER_DEPTH client 3 w with
      | (inr parsed, w') => parsed :: responses MAX_FOLDER_DEPTH client batches' w'
      | (inl _, _) => []
      end
  end.

(** The entry a run has for the record at position [i] of the list: the one
    that the answer to the batch of [i] (the batch number [i / B]) carries
    for the index [i]. *)
Definition entry_at (B : nat) (replies : list (list LLMReorgEntryModel.t)) (i : nat)
  : option LLMReorgEntryModel.t :=
  match replies !! (i / B) with
  | Some parsed => Organiser.index_map parsed !! Z.of_nat i
  | None => None
  end.

(** The records taken one by one from position [idx] on, each given the
    entry of its position. *)
Fixpoint merge_positions (entry_of : nat -> option LLMReorgEntryModel.t) (idx : nat)
    (records : list loc) (h : loc -> BookmarkRecord.t) : loc -> BookmarkRecord.t :=
  match records with
  | [] => h
  | record :: rest =>
      merge_positions entry_of (S idx) rest
        match entry_of idx with
        | None => h
        | Some entry => <[record := Organiser.apply_entry entry (h record)]> h
        end
  end.

(** The replies for [n] records without the entries whose index is outside
    the range of their batch: the batch number [k] starts at [k * B] and has
    [min B (n - k * B)] records. *)
Definition in_range (B n : nat) (replies : list (list LLMReorgEntryModel.t))
  : list (list LLMReorgEntryModel.t) :=
  imap (fun k parsed =>
          filter (fun e => in_batch (k * B) (Nat.min B (n - k * B))
                             (LLMReorgEntryModel.index e)) parsed)
       replies.

(** * Properties *)

(** ** Strings *)

Section StringFacts.

Example strip_ex : Py.strip "  a b  " = "a b".
Proof. reflexivity. Qed.

Example split_ex : Py.split "/" "a//b/" = ["a"; ""; "b"; ""].
Proof. reflexivity. Qed.

Example str_of_int_ex : Py.str_of_int (-12) = "-12" /\ Py.str_of_int 0 = "0".
Proof. split; reflexivity. Qed.

Lemma rstrip_empty_blank (s : string) : Py.rstrip s = "" <-> Py.blank s = true.
Proof.
  induction s as [|c s IH]; simpl; [tauto|].
  destruct (Py.rstrip s) eqn:Hr.
  - destruct (Py.isspace c); simpl.
    + tauto.
    + split; discriminate.
  - split; [discriminate|].
    intros [_ Hb]%andb_prop. apply IH in Hb. discriminate.
Qed.

Lemma blank_lstrip (s : string) : Py.blank (Py.lstrip s) = Py.blank s.
Proof.
  induction s as [|c s IH]; simpl; [reflexivity|].
  destruct (Py.isspace c) eqn:Hc; simpl; [exact IH|].
  now rewrite Hc.
Qed.

(** [s.strip()] is empty exactly for a string of white space. *)
Lemma truthy_strip (s : string) : Py.truthy (Py.strip s) = negb (Py.blank s).
Proof.
  unfold Py.strip. rewrite <- (blank_lstrip s).
  destruct (Py.rstrip (Py.lstrip s)) eqn:Hr; simpl.
  - apply rstrip_empty_blank in Hr. now rewrite Hr.
  - destruct (Py.blank (Py.lstrip s)) eqn:Hb; [|reflexivity].
    apply rstrip_empty_blank in Hb. congruence.
Qed.

Lemma rstrip_idem (s : string) : Py.rstrip (Py.rstrip s) = Py.rstrip s.
Proof.
  induction s as [|c s IH]; simpl; [reflexivity|].
  destruct (Py.rstrip s) as [|d r] eqn:Hr.
  - destruct (Py.isspace c) eqn:Hc; simpl; [reflexivity|]. now rewrite Hc.
  - change (Py.rstrip (String c (String d r)) = String c (String d r)).
    cbn [Py.rstrip]. cbn [Py.rstrip] in IH. now rewrite IH.
Qed.

Lemma lstrip_clean (s : string) : clean_front (Py.lstrip s).
Proof.
  induction s as [|c s IH]; simpl; [exact I|].
  destruct (Py.isspace c) eqn:Hc; [exact IH|exact Hc].
Qed.

Lemma lstrip_of_clean (s : string) : clean_front s -> Py.lstrip s = s.
Proof. destruct s as [|c s]; simpl; [reflexivity|]. now intros ->. Qed.

Lemma rstrip_clean (s : string) : clean_front s -> clean_front (Py.rstrip s).
Proof.
  destruct s as [|c s]; simpl; [exact id|]. intros Hc.
  destruct (Py.rstrip s); [rewrite Hc|]; exact Hc.
Qed.

(** Stripping twice strips once. *)
Lemma strip_idem (s : string) : Py.strip (Py.strip s) = Py.strip s.
Proof.
  unfold Py.strip.
  rewrite (lstrip_of_clean (Py.rstrip (Py.lstrip s))).
  - apply rstrip_idem.
  - apply rstrip_clean, lstrip_clean.
Qed.

Lemma prefix_lower (p s : string) :
  String.prefix p s = true -> String.prefix (Py.lower p) (Py.lower s) = true.
Proof.
  revert s. induction p as [|a p IH]; intros [|b s]; simpl; try easy.
  destruct (ascii_dec a b) as [->|]; [|discriminate].
  intros Hp. destruct (ascii_dec (Py.lower_char b) (Py.lower_char b)); [|congruence].
  now apply IH.
Qed.

(** Lower-casing the haystack keeps a lower-case needle in it. *)
Lemma contains_lower (p s : string) :
  Py.lower p = p -> Py.contains p s = true -> Py.contains p (Py.lower s) = true.
Proof.
  intros Hp. induction s as [|b s IH]; cbn [Py.contains Py.lower].
  - rewrite !orb_false_r. intros H. apply prefix_lower in H. now rewrite Hp in H.
  - intros [H|H]%orb_prop.
    + apply prefix_lower in H. rewrite Hp in H. cbn [Py.lower] in H. now rewrite H.
    + rewrite (IH H). apply orb_true_r.
Qed.

End StringFacts.

(** ** The validator's checks *)

Section ValidatorFacts.

Import Validator.

Lemma unplaced_blank (r : BookmarkRecord.t) :
  unplaced r = true <->
  Py.blank (BookmarkRecord.location_after r) = true
  /\ Py.blank (BookmarkRecord.location_before r) = true.
Proof.
  unfold unplaced. rewrite !truthy_strip, !negb_involutive.
  apply andb_true_iff.
Qed.

Lemma assert_locations_ok (rs : list BookmarkRecord.t) :
  _assert_locations rs = inr tt <-> Forall (fun r => unplaced r = false) rs.
Proof.
  unfold _assert_locations, check.
  destruct (filter _ rs) as [|x l] eqn:Hf.
  - split; [intros _|reflexivity].
    apply Forall_forall. intros r Hr.
    destruct (unplaced r) eqn:Hu; [|reflexivity].
    assert (Hin : r ∈ filter (fun r => unplaced r) rs).
    { apply list_elem_of_filter. split; [now rewrite Hu|exact Hr]. }
    rewrite Hf in Hin. inversion Hin.
  - split; [discriminate|]. intros Hall.
    assert (Hin : x ∈ filter (fun r => unplaced r) rs) by (rewrite Hf; left).
    apply list_elem_of_filter in Hin as [Hu Hx].
    rewrite Forall_forall in Hall. rewrite (Hall x Hx) in Hu. destruct Hu.
Qed.

Lemma assert_locations_failure (rs : list BookmarkRecord.t) (f : Failure) :
  _assert_locations rs = inl f ->
  f = EmptyLocation (length (filter (fun r => unplaced r) rs)).
Proof.
  unfold _assert_locations, check.
  destruct (filter _ rs); [discriminate|]. now intros [= <-].
Qed.

(** C8: the location check fails exactly when some output record has a blank
    (empty or white-space only) [location_after] and a blank
    [location_before]; the failure counts these records; and where every
    record has a [location_before] that is not blank, the check passes
    whatever the [location_after]s are. *)
Theorem assert_locations_fails_iff (reorganised : list BookmarkRecord.t) :
  let never_placed r :=
    Py.blank (BookmarkRecord.location_after r) = true
    /\ Py.blank (BookmarkRecord.location_before r) = true in
  ((exists f, Validator._assert_locations reorganised = inl f)
   <-> Exists never_placed reorganised)
  /\ (forall f, Validator._assert_locations reorganised = inl f ->
        f = Validator.EmptyLocation
              (length (filter (fun r => Validator.unplaced r) reorganised)))
  /\ (Forall (fun r => Py.blank (BookmarkRecord.location_before r) = false) reorganised ->
        Validator._assert_locations reorganised = inr tt).
Proof.
  intros never_placed. split; [|split].
  - split.
    + intros [f Hf].
      assert (dec : forall r, {unplaced r = false} + {unplaced r = true})
        by (intros r; destruct (unplaced r); auto).
      destruct (Forall_Exists_dec _ _ dec reorganised) as [Hall|Hex].
      * apply assert_locations_ok in Hall. congruence.
      * eapply Exists_impl; [exact Hex|]. intros r Hr. now apply unplaced_blank.
    + intros Hex. destruct (_assert_locations reorganised) as [f|[]] eqn:Hr; [eauto|].
      apply assert_locations_ok in Hr. rewrite Forall_forall in Hr.
      apply Exists_exists in Hex as (r & Hin & Hb).
      apply unplaced_blank in Hb. rewrite (Hr r Hin) in Hb. discriminate.
  - apply assert_locations_failure.
  - intros Hall. apply assert_locations_ok.
    eapply Forall_impl; [exact Hall|]. intros r Hb. simpl in Hb.
    destruct (unplaced r) eqn:Hu; [|reflexivity].
    apply unplaced_blank in Hu as [_ Hu]. congruence.
Qed.

End ValidatorFacts.

Section UrlMultiset.

Import Validator.

Lemma multiplicity_Counter (u : string) (l : list string) :
  multiplicity u (Counter l) = occurrences u l.
Proof.
  unfold Counter. induction l as [|x l IH]; simpl.
  - apply multiplicity_empty.
  - rewrite multiplicity_disj_union, multiplicity_singleton, IH.
    destruct (String.eqb_spec x u) as [->|Hne].
    + now rewrite decide_True.
    + rewrite decide_False; [reflexivity|congruence].
Qed.

Lemma occurrences_absent (u : string) (l : list string) :
  u ∉ l -> occurrences u l = 0.
Proof.
  induction l as [|x l IH]; simpl; [reflexivity|].
  intros Hn. rewrite not_elem_of_cons in Hn. destruct Hn as [Hne Hn].
  rewrite (IH Hn). destruct (String.eqb_spec x u); [congruence|reflexivity].
Qed.

Lemma Counter_eq (l k : list string) :
  Counter l = Counter k <-> forall u, occurrences u l = occurrences u k.
Proof.
  rewrite gmultiset_eq. setoid_rewrite multiplicity_Counter. reflexivity.
Qed.

(** Two lists that do not hold the same multiset differ on one of their own
    elements. *)
Lemma Counter_ne (l k : list string) :
  Counter l ≠ Counter k <-> exists u, occurrences u l ≠ occurrences u k.
Proof.
  split.
  - intros Hne.
    destruct (Exists_dec (fun u => occurrences u l ≠ occurrences u k) (l ++ k)%list)
      as [Hex|Hno].
    + apply Exists_exists in Hex as (u & _ & Hu). eauto.
    + exfalso. apply Hne, Counter_eq. intros u.
      destruct (decide (u ∈ (l ++ k)%list)) as [Hin|Hout].
      * destruct (decide (occurrences u l = occurrences u k)) as [|Hd]; [assumption|].
        exfalso. apply Hno, Exists_exists. eauto.
      * rewrite elem_of_app in Hout.
        rewrite !occurrences_absent; tauto.
  - intros [u Hu] Heq. apply Hu. now apply Counter_eq.
Qed.

Lemma counts_lookup (c : gmultiset string) (u : string) :
  counts c !! u =
  if (0 <? multiplicity u c)%nat then Some (multiplicity u c) else None.
Proof.
  unfold counts, multiplicity. rewrite lookup_fmap.
  destruct (gmultiset_car c !! u) as [n|]; simpl; [|reflexivity].
  destruct (Nat.ltb_spec 0 (Pos.to_nat n)); [reflexivity|lia].
Qed.

(** C4: the URL check fails exactly when some URL occurs a different number
    of times among the original records and among the re-parsed ones (so
    equal sets of URLs with different duplicate counts fail); it passes
    exactly when the two URL lists are permutations of each other; and the
    failure's payload maps each URL that the output has fewer (more) of to
    the number that is missing (extra), and holds no other URL. *)
Theorem assert_url_multiset_fails_iff (original reorganised : list BookmarkRecord.t) :
  let us := map BookmarkRecord.url original in
  let vs := map BookmarkRecord.url reorganised in
  ((exists f, Validator._assert_url_multiset original reorganised = inl f)
   <-> exists u, occurrences u us ≠ occurrences u vs)
  /\ (Validator._assert_url_multiset original reorganised = inr tt <-> us ≡ₚ vs)
  /\ (forall f, Validator._assert_url_multiset original reorganised = inl f ->
      exists missing extra,
        f = Validator.UrlMultisetMismatch missing extra
        /\ forall u,
            missing !! u =
              (if (occurrences u vs <? occurrences u us)%nat
               then Some (occurrences u us - occurrences u vs) else None)
            /\ extra !! u =
              (if (occurrences u us <? occurrences u vs)%nat
               then Some (occurrences u vs - occurrences u us) else None)).
Proof.
  intros us vs. unfold _assert_url_multiset. fold us vs.
  split; [|split].
  - case_bool_decide as Hd.
    + split; [intros _; now apply Counter_ne|eauto].
    + split; [intros [f [=]]|]. intros Hex. apply Counter_ne in Hex. tauto.
  - case_bool_decide as Hd.
    + split; [discriminate|]. intros Hp. exfalso. apply Hd.
      unfold Counter. now rewrite Hp.
    + split; [intros _|reflexivity].
      apply Permutation_count_occ with (eq_dec := string_dec).
      intros u. rewrite Counter_eq in Hd. specialize (Hd u).
      revert Hd. clear. generalize us vs. intros l k.
      assert (Hc : forall l, count_occ string_dec l u = occurrences u l).
      { clear. induction l as [|x l IH]; simpl; [reflexivity|].
        destruct (string_dec x u) as [->|Hne].
        - now rewrite String.eqb_refl, IH.
        - destruct (String.eqb_spec x u); [congruence|]. now rewrite IH. }
      now rewrite !Hc.
  - case_bool_decide as Hd; [|discriminate].
    intros f [= <-]. eexists _, _. split; [reflexivity|]. intros u.
    rewrite !counts_lookup, !multiplicity_difference, !multiplicity_Counter.
    split.
    + destruct (Nat.ltb_spec (occurrences u vs) (occurrences u us));
        destruct (Nat.ltb_spec 0 (occurrences u us - occurrences u vs));
        first [reflexivity|lia].
    + destruct (Nat.ltb_spec (occurrences u us) (occurrences u vs));
        destruct (Nat.ltb_spec 0 (occurrences u vs - occurrences u us));
        first [reflexivity|lia].
Qed.

End UrlMultiset.

(** ** The organiser's loops *)

Section OrganiserFacts.

Context `{rt : Runtime}.
Import Organiser.

Variable MAX_FOLDER_DEPTH : nat.
Variable client : Client.

Lemma single_attempt_answers (w : World) :
  answers MAX_FOLDER_DEPTH client ->
  exists item items w',
    _single_attempt MAX_FOLDER_DEPTH client w = (inr (item :: items), w').
Proof.
  intros Ha. unfold _single_attempt.
  destruct (Ha (calls w) (_model (self w)) (_supports_temperature (self w)))
    as (response & raw & item & items & -> & -> & ->).
  eauto.
Qed.

Lemma invoke_with_retry_answers (max_attempts : nat) (w : World) :
  answers MAX_FOLDER_DEPTH client ->
  exists parsed w',
    _invoke_with_retry MAX_FOLDER_DEPTH client (S max_attempts) w = (inr parsed, w').
Proof.
  intros Ha. unfold _invoke_with_retry. cbn [seq retry_loop].
  destruct (single_attempt_answers w Ha) as (item & items & w' & ->). eauto.
Qed.

Lemma batch_loop_answers (records : list loc) (starts : list nat) (w : World) :
  answers MAX_FOLDER_DEPTH client ->
  exists w', batch_loop MAX_FOLDER_DEPTH client records starts w = (inr tt, w').
Proof.
  intros Ha. revert w. induction starts as [|start rest IH]; intros w.
  - now exists w.
  - cbn [batch_loop]. unfold bind.
    destruct (invoke_with_retry_answers 2 w Ha) as (parsed & w' & ->).
    apply IH.
Qed.

Lemma reorganise_result (records : list loc) (w : World) :
  (exists e, fst (reorganise MAX_FOLDER_DEPTH client records w) = inl e)
  \/ fst (reorganise MAX_FOLDER_DEPTH client records w) = inr records.
Proof.
  unfold reorganise, bind, ret.
  destruct (batch_loop _ _ _ _ w) as [[e|[]] w']; simpl; eauto.
Qed.

Lemma reorganise_answers (records : list loc) (w : World) :
  answers MAX_FOLDER_DEPTH client ->
  exists w', reorganise MAX_FOLDER_DEPTH client records w = (inr records, w').
Proof.
  intros Ha. unfold reorganise, bind, ret.
  destruct (batch_loop_answers records
              (range_step (length records) (Pos.to_nat (_batch_size (self w)))) w Ha) as (w' & ->).
  eauto.
Qed.

End OrganiserFacts.

Section CountPreservation.

Context `{rt : Runtime}.

Lemma validate_count_mismatch (original reorganised : list BookmarkRecord.t)
    (json : option Content) :
  (exists n m, Validator.validate_reorganisation original reorganised json
               = inl (Validator.CountMismatch n m))
  <-> length original ≠ length reorganised.
Proof.
  unfold Validator.validate_reorganisation, Validator._assert_counts, Validator.check.
  destruct (Nat.eqb_spec (length original) (length reorganised)) as [Heq|Hne]; simpl.
  - split; [|tauto]. intros (n & m & Hf). exfalso.
    unfold Validator._assert_url_multiset in Hf.
    case_bool_decide; simpl in Hf; [discriminate|].
    unfold Validator._assert_locations, Validator.check in Hf.
    destruct (filter _ reorganised); simpl in Hf; [|discriminate].
    destruct json as [raw|]; [|discriminate].
    unfold Validator._assert_json_consistency in Hf.
    destruct (Validator.model_validate_json raw); simpl in Hf; discriminate.
  - split; [tauto|]. intros _. eauto.
Qed.

(** C3: [reorganise] either raises or returns the list it was given, so any
    list it returns has the length of its input; it does return when the
    client answers every call with at least one valid item; and
    [validate_reorganisation] fails with the count mismatch exactly when the
    original records and the re-parsed records differ in number. *)
Theorem reorganise_count_preserved (MAX_FOLDER_DEPTH : nat) (client : Organiser.Client)
    (records : list loc) (w : Organiser.World)
    (original reorganised : list BookmarkRecord.t) (json : option Content) :
  (forall out, fst (Organiser.reorganise MAX_FOLDER_DEPTH client records w) = inr out ->
     out = records /\ length out = length records)
  /\ (answers MAX_FOLDER_DEPTH client ->
      exists w', Organiser.reorganise MAX_FOLDER_DEPTH client records w = (inr records, w'))
  /\ ((exists n m, Validator.validate_reorganisation original reorganised json
                   = inl (Validator.CountMismatch n m))
      <-> length original ≠ length reorganised).
Proof.
  split; [|split].
  - intros out Hout.
    destruct (reorganise_result MAX_FOLDER_DEPTH client records w) as [[e He]|Hr].
    + congruence.
    + rewrite Hr in Hout. injection Hout as <-. auto.
  - apply reorganise_answers.
  - apply validate_count_mismatch.
Qed.

End CountPreservation.

(** ** The folder tree *)

Section TreeFacts.

Import Tree HtmlWriter.

Lemma paths_to_node (r : loc) (s : string) (cs : list BookmarkTreeNode)
    (bs : list loc) (p : list string) :
  In p (paths_to r (Node s cs bs)) <-> (p = [] /\ In r bs) \/ In p (child_paths r cs).
Proof.
  cbn [paths_to]. fold (child_paths r cs). rewrite in_app_iff.
  case_bool_decide as Hb; rewrite list_elem_of_In in Hb; simpl; intuition congruence.
Qed.

Lemma child_paths_cons (r : loc) (c : BookmarkTreeNode) (cs : list BookmarkTreeNode)
    (p : list string) :
  In p (child_paths r (c :: cs)) <->
  (exists q, p = name c :: q /\ In q (paths_to r c)) \/ In p (child_paths r cs).
Proof.
  unfold child_paths. cbn [flat_map]. rewrite in_app_iff, in_map_iff.
  split; intros [(q & Hq & Hin)|Hr]; eauto.
Qed.

Lemma name_place (parts : list string) (r : loc) (n : BookmarkTreeNode) :
  name (place parts r n) = name n.
Proof. destruct parts; reflexivity. Qed.

(** Updating the child called [part] by an [f] that adds the paths [Q] adds
    the paths [part :: q] for [q] in [Q]. *)
Lemma child_paths_get_or_create (r : loc) (part : string)
    (f : BookmarkTreeNode -> BookmarkTreeNode) (Q : list string -> Prop)
    (cs : list BookmarkTreeNode) (p : list string) :
  (forall n, name (f n) = name n) ->
  (forall n q, In q (paths_to r (f n)) <-> In q (paths_to r n) \/ Q q) ->
  In p (child_paths r (get_or_create_child part f cs)) <->
  In p (child_paths r cs) \/ exists q, p = part :: q /\ Q q.
Proof.
  intros Hname Hf. induction cs as [|c cs IH]; cbn [get_or_create_child].
  - rewrite child_paths_cons. setoid_rewrite Hf. rewrite Hname. simpl.
    split.
    + intros [(q & -> & [[]|Hq])|[]]. eauto.
    + intros [[]|(q & -> & Hq)]. eauto.
  - destruct (String.eqb_spec (name c) part) as [Hc|Hc].
    + rewrite !child_paths_cons. setoid_rewrite Hf. rewrite Hname, Hc.
      split.
      * intros [(q & -> & [Hq|Hq])|Hr]; eauto.
      * intros [[(q & -> & Hq)|Hr]|(q & -> & Hq)]; eauto.
    + rewrite !child_paths_cons, IH. tauto.
Qed.

(** Filing [r'] under [parts] adds the path [parts] to [r'], and no other. *)
Lemma paths_to_place (r r' : loc) (parts : list string) (n : BookmarkTreeNode)
    (p : list string) :
  In p (paths_to r (place parts r' n)) <-> In p (paths_to r n) \/ (r = r' /\ p = parts).
Proof.
  revert n p. induction parts as [|part rest IH]; intros [s cs bs] p.
  - cbn [place]. unfold add_bookmark. cbn [name children bookmarks].
    rewrite !paths_to_node, in_app_iff. simpl. intuition congruence.
  - cbn [place name children bookmarks]. rewrite !paths_to_node.
    rewrite (child_paths_get_or_create r part (place rest r')
               (fun q => r = r' /\ q = rest)).
    + split.
      * intros [H|[H|(q & -> & -> & ->)]]; auto.
      * intros [[H|H]|[-> ->]]; eauto 6.
    + intros n. apply name_place.
    + intros n q. apply IH.
Qed.

Lemma paths_to_fold (D : nat) (heap : loc -> BookmarkRecord.t) (records : list loc)
    (root : BookmarkTreeNode) (r : loc) (p : list string) :
  In p (paths_to r
          (fold_left (fun root record => place (folder_path D (heap record)) record root)
                     records root))
  <-> In p (paths_to r root) \/ (In r records /\ p = folder_path D (heap r)).
Proof.
  revert root. induction records as [|r' records IH]; intros root; cbn [fold_left].
  - simpl. tauto.
  - rewrite IH, paths_to_place. simpl.
    split.
    + intros [[H|[-> ->]]|[H ->]]; auto.
    + intros [H|[[->|H] ->]]; auto.
Qed.

Lemma folder_path_length (D : nat) (record : BookmarkRecord.t) :
  length (folder_path D record) <= D.
Proof.
  unfold folder_path.
  destruct (Nat.ltb_spec D (length (effective_parts record))).
  - rewrite length_take. lia.
  - assumption.
Qed.

Lemma folder_path_take (D : nat) (record : BookmarkRecord.t) :
  folder_path D record = take D (effective_parts record).
Proof.
  unfold folder_path.
  destruct (Nat.ltb_spec D (length (effective_parts record))); [reflexivity|].
  now rewrite take_ge.
Qed.

Lemma level_get_or_create (part : string) (f : BookmarkTreeNode -> BookmarkTreeNode)
    (k : nat) (cs : list BookmarkTreeNode) :
  (forall n, depth (f n) <= Nat.max (depth n) k) ->
  level (get_or_create_child part f cs) <= Nat.max (level cs) (S k).
Proof.
  intros Hf. induction cs as [|c cs IH]; cbn [get_or_create_child].
  - specialize (Hf (init part)). cbn [level fold_right init depth] in *. lia.
  - destruct (String.eqb (name c) part).
    + specialize (Hf c). cbn [level fold_right]. fold (level cs). lia.
    + cbn [level fold_right]. fold (level cs).
      fold (level (get_or_create_child part f cs)). lia.
Qed.

Lemma depth_place (parts : list string) (r : loc) (n : BookmarkTreeNode) :
  depth (place parts r n) <= Nat.max (depth n) (length parts).
Proof.
  revert n. induction parts as [|part rest IH]; intros [s cs bs].
  - cbn [place]. unfold add_bookmark. cbn [name children bookmarks depth]. lia.
  - cbn [place name children bookmarks depth length]. fold (level cs).
    fold (level (get_or_create_child part (place rest r) cs)).
    apply level_get_or_create. exact IH.
Qed.

Lemma depth_build_tree (D : nat) (heap : loc -> BookmarkRecord.t) (records : list loc) :
  depth (build_tree D heap records) <= D.
Proof.
  unfold build_tree.
  assert (H0 : depth (init "Bookmarks Bar") <= D) by (simpl; lia).
  revert H0. generalize (init "Bookmarks Bar").
  induction records as [|r records IH]; intros root Hroot; cbn [fold_left]; [exact Hroot|].
  apply IH.
  pose proof (depth_place (folder_path D (heap r)) r root).
  pose proof (folder_path_length D (heap r)). lia.
Qed.

End TreeFacts.

(** C2: in the tree that [build_tree] makes with depth limit [D], a path of
    folders leads to a node holding the record [r] exactly when [r] is one of
    the records and the path is the first [D] parts of its effective location
    (the parts of [location_after], or of [location_before] when that is
    empty, or ["Unsorted"] when there is no part); so every such path has at
    most [D] segments, however many the location has, and no folder lies
    deeper than [D]. With the configured limit of 4, "L1/L2/L3/L4/L5/L6" is
    filed under L1/L2/L3/L4 and nowhere else. *)
Theorem build_tree_depth_bound (D : nat) (heap : loc -> BookmarkRecord.t)
    (records : list loc) :
  let tree := HtmlWriter.build_tree D heap records in
  (forall r p,
     In p (Tree.paths_to r tree)
     <-> In r records /\ p = take D (HtmlWriter.effective_parts (heap r)))
  /\ (forall r p, In p (Tree.paths_to r tree) -> length p <= D)
  /\ Tree.depth tree <= D
  /\ (let deep :=
        BookmarkRecord.mk "Deep Item" "https://example.com/deep" "L1/L2/L3/L4/L5/L6"
          (BookmarkMetadata.mk "" "" []) "" "L1/L2/L3/L4/L5/L6" in
      HtmlWriter.build_tree Config.MAX_FOLDER_DEPTH (fun _ => deep) [0]
      = Node "Bookmarks Bar"
          [Node "L1" [Node "L2" [Node "L3" [Node "L4" [] [0]] []] []] []] []
      /\ Tree.paths_to 0 (HtmlWriter.build_tree Config.MAX_FOLDER_DEPTH (fun _ => deep) [0])
         = [["L1"; "L2"; "L3"; "L4"]]).
Proof.
  intros tree.
  assert (Hpaths : forall r p,
             In p (Tree.paths_to r tree)
             <-> In r records /\ p = take D (HtmlWriter.effective_parts (heap r))).
  { intros r p. unfold tree, HtmlWriter.build_tree.
    rewrite paths_to_fold, <- folder_path_take. simpl. tauto. }
  split; [exact Hpaths|]. split; [|split].
  - intros r p [_ ->]%Hpaths. rewrite length_take. lia.
  - apply depth_build_tree.
  - split; reflexivity.
Qed.

(** ** The response validator *)

Section ResponseValidator.

Context `{rt : Runtime}.
Import Organiser.

Lemma get_set_eq (k : string) (v : pyval) (d : pydict) :
  Dyn.get k (Dyn.set k v d) = Some v.
Proof.
  induction d as [|[k' v'] d IH]; simpl.
  - now rewrite String.eqb_refl.
  - destruct (String.eqb k k') eqn:Hk; simpl; rewrite ?String.eqb_refl, ?Hk; auto.
Qed.

Lemma ap_valid {A B : Type} (f : Validated (A -> B)) (x : Validated A) (b : B) :
  Pydantic.ap f x = Valid b -> exists g a, f = Valid g /\ x = Valid a /\ b = g a.
Proof. destruct f, x; simpl; intros [=]; eauto. Qed.

Lemma validate_location (d : pydict) (item : LLMReorgEntryModel.t) :
  LLMReorgEntryModel.validate d = Valid item ->
  Dyn.get "location_after" d = Some (PStr (LLMReorgEntryModel.location_after item)).
Proof.
  unfold LLMReorgEntryModel.validate.
  intros (g3 & tags & H3 & _ & ->)%ap_valid.
  apply ap_valid in H3 as (g2 & la & H2 & Hla & ->).
  apply ap_valid in H2 as (g1 & ta & H1 & _ & ->).
  apply ap_valid in H1 as (g0 & ix & [= <-] & _ & ->).
  simpl. unfold Pydantic.required in Hla.
  destruct (Dyn.get "location_after" d) as [[]|]; simpl in Hla; congruence.
Qed.

Lemma path_parts_clean (s : string) :
  Forall (fun p => p ≠ "" /\ Py.strip p = p) (Py.path_parts s).
Proof.
  unfold Py.path_parts. apply Forall_forall. intros p Hp.
  apply list_elem_of_In, in_map_iff in Hp as (q & <- & Hq).
  apply list_elem_of_In, list_elem_of_filter in Hq as [Hq _].
  split; [|apply strip_idem].
  intros Heq. rewrite Heq in Hq. exact Hq.
Qed.

Lemma join_nonempty (sep : string) (parts : list string) :
  Forall (fun p => p ≠ "") parts -> parts ≠ [] -> Py.join sep parts ≠ "".
Proof.
  destruct parts as [|p ps]; [congruence|].
  intros Hall _. apply Forall_cons in Hall as [Hp _].
  destruct p; [congruence|]. destruct ps; simpl; discriminate.
Qed.

Lemma clamped_parts_take (D : nat) (location : string) :
  clamped_parts D location = take D (Py.path_parts location).
Proof.
  unfold clamped_parts.
  destruct (Nat.ltb_spec D (length (Py.path_parts location))); [reflexivity|].
  now rewrite take_ge.
Qed.

Lemma validate_item_some (D : nat) (obj : pydict) (entry : LLMReorgEntryModel.t) :
  _validate_item D obj = Some entry ->
  exists v, Dyn.get "location_after" obj = Some v
    /\ if Py.truthy (Py.strip (Dyn.str v))
       then LLMReorgEntryModel.location_after entry
            = Py.join "/" (take D (Py.path_parts (Py.strip (Dyn.str v))))
       else v = PStr (LLMReorgEntryModel.location_after entry)
            /\ Py.blank (LLMReorgEntryModel.location_after entry) = true.
Proof.
  unfold _validate_item, Dyn.mem, Dyn.get_default.
  destruct (Dyn.get "index" obj) as [ix|]; [|discriminate].
  destruct (Dyn.get "location_after" obj) as [v|] eqn:Hv; [|discriminate].
  cbn [negb orb]. intros Hsome. exists v. split; [reflexivity|].
  fold (clamped_parts D (Py.strip (Dyn.str v))) in Hsome.
  destruct (Py.truthy (Py.strip (Dyn.str v))) eqn:Ht.
  - destruct (LLMReorgEntryModel.model_validate _) as [e|item] eqn:Hm; [discriminate|].
    injection Hsome as ->.
    unfold LLMReorgEntryModel.model_validate, Pydantic.raise_or in Hm.
    destruct (LLMReorgEntryModel.validate _) as [item| |] eqn:Hval; try discriminate.
    injection Hm as ->. apply validate_location in Hval.
    rewrite get_set_eq in Hval. injection Hval as Hval.
    now rewrite <- Hval, clamped_parts_take.
  - destruct (LLMReorgEntryModel.model_validate obj) as [e|item] eqn:Hm; [discriminate|].
    injection Hsome as ->.
    unfold LLMReorgEntryModel.model_validate, Pydantic.raise_or in Hm.
    destruct (LLMReorgEntryModel.validate obj) as [item| |] eqn:Hval; try discriminate.
    injection Hm as ->. apply validate_location in Hval.
    rewrite Hv in Hval. injection Hval as ->. split; [reflexivity|].
    simpl in Ht. rewrite truthy_strip in Ht. now destruct (Py.blank _).
Qed.

End ResponseValidator.

(** C7, as amended: an entry the response validator returns comes from an
    item with a [location_after] key; when the item's location has a
    character that is not white space, the entry's [location_after] is the
    join of its first [D] trimmed, non-empty parts, which is non-empty as
    soon as there is such a part and [D] is positive. An item without the key
    is dropped; an item whose [location_after] is the empty string is
    validated, not dropped, with an empty [location_after], and for an entry
    with an empty [location_after] the merge falls back to the record's
    [location_before]. *)
Theorem validate_item_location_after `{rt : Runtime} (D : nat) (obj : pydict) :
  (forall entry, Organiser._validate_item D obj = Some entry ->
     exists v, Dyn.get "location_after" obj = Some v
       /\ let location := Py.strip (Dyn.str v) in
          let parts := take D (Py.path_parts location) in
          if Py.truthy location
          then LLMReorgEntryModel.location_after entry = Py.join "/" parts
               /\ length parts <= D
               /\ Forall (fun p => p ≠ "" /\ Py.strip p = p) parts
               /\ (parts ≠ [] -> LLMReorgEntryModel.location_after entry ≠ "")
          else v = PStr "" -> LLMReorgEntryModel.location_after entry = "")
  /\ (Dyn.get "location_after" obj = None -> Organiser._validate_item D obj = None)
  /\ (forall z,
        Organiser._validate_item D [("index", PInt z); ("location_after", PStr "")]
        = Some (LLMReorgEntryModel.mk z "" "" []))
  /\ (forall entry record,
        LLMReorgEntryModel.location_after entry = "" ->
        BookmarkRecord.location_after (Organiser.apply_entry entry record)
        = BookmarkRecord.location_before record).
Proof.
  split; [|split; [|split]].
  - intros entry (v & Hv & Hloc)%validate_item_some. exists v. split; [exact Hv|].
    cbv zeta. destruct (Py.truthy (Py.strip (Dyn.str v))).
    + assert (Hclean : Forall (fun p => p ≠ "" /\ Py.strip p = p)
                         (take D (Py.path_parts (Py.strip (Dyn.str v)))))
        by apply Forall_take, path_parts_clean.
      split; [exact Hloc|]. split; [rewrite length_take; lia|]. split; [exact Hclean|].
      intros Hne. rewrite Hloc. apply join_nonempty; [|exact Hne].
      eapply Forall_impl; [exact Hclean|]. now intros p [Hp _].
    + destruct Hloc as [Hkept _]. intros Hempty. rewrite Hempty in Hkept.
      now injection Hkept as <-.
  - intros Hnone. unfold Organiser._validate_item, Dyn.mem. rewrite Hnone.
    now rewrite orb_true_r.
  - intros z. reflexivity.
  - intros entry record Hempty. unfold Organiser.apply_entry. cbn. now rewrite Hempty.
Qed.

(** C7 as first stated fails: an empty and a separators-only
    [location_after] both pass the validator, and both entries have an empty
    [location_after]. *)
Lemma validate_item_keeps_empty_location :
  @Organiser._validate_item Sample.runtime Config.MAX_FOLDER_DEPTH
     [("index", PInt 0); ("location_after", PStr "")]
   = Some (LLMReorgEntryModel.mk 0 "" "" [])
  /\ @Organiser._validate_item Sample.runtime Config.MAX_FOLDER_DEPTH
       [("index", PInt 2); ("location_after", PStr " / ")]
     = Some (LLMReorgEntryModel.mk 2 "" "" []).
Proof. repeat split; reflexivity. Qed.

(** ** The merge of one batch *)

Section Merge.

Import Organiser.

Lemma index_map_snoc (parsed : list LLMReorgEntryModel.t) (e : LLMReorgEntryModel.t) :
  index_map (parsed ++ [e]) = <[LLMReorgEntryModel.index e := e]> (index_map parsed).
Proof. unfold index_map. now rewrite foldl_app. Qed.

Lemma index_map_none (parsed : list LLMReorgEntryModel.t) (idx : Z) :
  index_map parsed !! idx = None
  <-> Forall (fun e => LLMReorgEntryModel.index e ≠ idx) parsed.
Proof.
  induction parsed as [|e parsed IH] using rev_ind.
  - split; [constructor|reflexivity].
  - rewrite index_map_snoc, Forall_app, Forall_singleton, lookup_insert_None, IH.
    tauto.
Qed.

Lemma index_map_some (parsed : list LLMReorgEntryModel.t) (idx : Z)
    (entry : LLMReorgEntryModel.t) :
  index_map parsed !! idx = Some entry <-> carries parsed idx entry.
Proof.
  induction parsed as [|e parsed IH] using rev_ind.
  - split; [discriminate|]. intros (b & a & Heq & _). now destruct b.
  - rewrite index_map_snoc, lookup_insert_Some, IH. split.
    + intros [[<- <-]|[Hne (b & a & -> & Hi & Ha)]].
      * exists parsed, []. rewrite Forall_nil. auto.
      * exists b, (a ++ [e])%list. rewrite <- app_assoc. split; [reflexivity|].
        split; [exact Hi|]. rewrite Forall_app, Forall_singleton. auto.
    + intros (b & a & Heq & Hi & Ha).
      destruct a as [|x a _] using rev_ind.
      * apply app_inj_tail in Heq as [-> ->]. auto.
      * rewrite app_comm_cons, app_assoc in Heq.
        apply app_inj_tail in Heq as [-> ->].
        rewrite Forall_app, Forall_singleton in Ha. destruct Ha as [Ha Hx].
        right. split; [exact Hx|]. exists b, a. auto.
Qed.

Lemma filter_singleton_bool {A : Type} (f : A -> bool) (x : A) :
  filter (fun e => f e) [x] = if f x then [x] else [].
Proof.
  destruct (f x) eqn:Hf.
  - rewrite filter_cons_True by (simpl; now rewrite Hf). reflexivity.
  - rewrite filter_cons_False by (simpl; now rewrite Hf). reflexivity.
Qed.

Lemma index_map_filter (P : Z -> bool) (parsed : list LLMReorgEntryModel.t) (idx : Z) :
  index_map (filter (fun e => P (LLMReorgEntryModel.index e)) parsed) !! idx
  = if P idx then index_map parsed !! idx else None.
Proof.
  induction parsed as [|e parsed IH] using rev_ind.
  - now destruct (P idx).
  - rewrite filter_app, index_map_snoc.
    rewrite (filter_singleton_bool (fun e => P (LLMReorgEntryModel.index e))).
    destruct (decide (LLMReorgEntryModel.index e = idx)) as [He|He].
    + rewrite He, lookup_insert_eq.
      destruct (P idx) eqn:HP.
      * rewrite index_map_snoc, He. apply lookup_insert_eq.
      * rewrite app_nil_r, IH. now rewrite ?HP.
    + rewrite lookup_insert_ne by exact He.
      destruct (P (LLMReorgEntryModel.index e)) eqn:HPe.
      * rewrite index_map_snoc, lookup_insert_ne by exact He. exact IH.
      * rewrite app_nil_r. exact IH.
Qed.

Lemma apply_entry_frame (entry : LLMReorgEntryModel.t) (r : BookmarkRecord.t) :
  same_frame (apply_entry entry r) r.
Proof. repeat split. Qed.

Lemma merge_loop_frame (entries : gmap Z LLMReorgEntryModel.t) (idx : nat)
    (chunk : list loc) (h : loc -> BookmarkRecord.t) (l : loc) :
  same_frame (merge_loop entries idx chunk h l) (h l).
Proof.
  revert idx h. induction chunk as [|r chunk IH]; intros idx h; cbn [merge_loop].
  - repeat split.
  - destruct (entries !! Z.of_nat idx) as [entry|]; [|apply IH].
    destruct (IH (S idx) (<[r := apply_entry entry (h r)]> h)) as (H1 & H2 & H3 & H4 & H5).
    unfold same_frame. rewrite H1, H2, H3, H4, H5.
    destruct (decide (r = l)) as [->|Hne].
    + rewrite fn_lookup_insert. apply apply_entry_frame.
    + rewrite fn_lookup_insert_ne by exact Hne. repeat split.
Qed.

Lemma merge_loop_outside (entries : gmap Z LLMReorgEntryModel.t) (idx : nat)
    (chunk : list loc) (h : loc -> BookmarkRecord.t) (l : loc) :
  ~ In l chunk -> merge_loop entries idx chunk h l = h l.
Proof.
  revert idx h. induction chunk as [|r chunk IH]; intros idx h Hn; cbn [merge_loop].
  - reflexivity.
  - simpl in Hn. rewrite IH by tauto.
    destruct (entries !! Z.of_nat idx); [|reflexivity].
    apply fn_lookup_insert_ne. tauto.
Qed.

(** With distinct records in the batch, each record is written at most once:
    by the entry of its own index. *)
Lemma merge_loop_at (entries : gmap Z LLMReorgEntryModel.t) (start : nat)
    (chunk : list loc) (h : loc -> BookmarkRecord.t) (i : nat) (record : loc) :
  NoDup chunk -> chunk !! i = Some record ->
  merge_loop entries start chunk h record
  = match entries !! Z.of_nat (start + i) with
    | None => h record
    | Some entry => apply_entry entry (h record)
    end.
Proof.
  revert start h i. induction chunk as [|r chunk IH]; intros start h i Hnd Hi.
  - discriminate.
  - apply NoDup_cons in Hnd as [Hr Hnd]. cbn [merge_loop]. destruct i as [|i].
    + injection Hi as ->. rewrite Nat.add_0_r.
      rewrite merge_loop_outside by (now rewrite <- list_elem_of_In).
      destruct (entries !! Z.of_nat start); [apply fn_lookup_insert|reflexivity].
    + cbn [lookup list_lookup] in Hi. rewrite (IH (S start) _ i Hnd Hi).
      replace (S start + i) with (start + S i) by lia.
      assert (r ≠ record).
      { intros ->. apply Hr. eapply list_elem_of_lookup_2. exact Hi. }
      destruct (entries !! Z.of_nat start);
        rewrite ?fn_lookup_insert_ne by assumption; reflexivity.
Qed.

(** Only the entries of the batch's own indices are looked up. *)
Lemma merge_loop_ext (entries entries' : gmap Z LLMReorgEntryModel.t) (start : nat)
    (chunk : list loc) (h : loc -> BookmarkRecord.t) :
  (forall i, i < length chunk ->
     entries !! Z.of_nat (start + i) = entries' !! Z.of_nat (start + i)) ->
  merge_loop entries start chunk h = merge_loop entries' start chunk h.
Proof.
  revert start h. induction chunk as [|r chunk IH]; intros start h Hagree.
  - reflexivity.
  - cbn [merge_loop].
    pose proof (Hagree 0 ltac:(simpl; lia)) as H0.
    rewrite Nat.add_0_r in H0. rewrite H0.
    apply IH. intros i Hi. replace (S start + i) with (start + S i) by lia.
    apply Hagree. simpl. lia.
Qed.

Lemma merge_loop_in_batch (parsed : list LLMReorgEntryModel.t) (start : nat)
    (chunk : list loc) (h : loc -> BookmarkRecord.t) :
  merge_loop (index_map parsed) start chunk h
  = merge_loop
      (index_map (filter (fun e => in_batch start (length chunk) (LLMReorgEntryModel.index e))
                         parsed))
      start chunk h.
Proof.
  apply merge_loop_ext. intros i Hi.
  rewrite (index_map_filter (in_batch start (length chunk))).
  unfold in_batch.
  destruct (Z.leb_spec (Z.of_nat start) (Z.of_nat (start + i))); [|lia].
  destruct (Z.ltb_spec (Z.of_nat (start + i)) (Z.of_nat (start + length chunk))); [|lia].
  reflexivity.
Qed.

End Merge.

Section MergeRecord.

Import Organiser.

Lemma keep_clean_tags (tags : list string) :
  Forall (fun tag => tag ≠ "" /\ Py.strip tag = tag) tags ->
  map Py.strip (filter (fun tag => Py.truthy (Py.strip tag)) tags) = tags.
Proof.
  induction 1 as [|tag tags [Hne Hs] _ IH]; [reflexivity|].
  rewrite filter_cons_True.
  - simpl. now rewrite Hs, IH.
  - simpl. rewrite Hs. now destruct tag.
Qed.

(** C5, as amended: in a batch of distinct record objects, a record whose
    index no validated entry carries is left as it was; a record whose index
    is carried (by the last entry of that index) gets the entry's
    [title_after], or its own [title_before] when that is empty, the entry's
    [location_after], or its own [location_before] when that is empty, and,
    in place of its tags, the entry's tags trimmed and without the empty
    ones, which are the entry's tags as they are when none of them is empty
    or untrimmed; its other fields stay. One of the two cases applies. *)
Theorem merge_loop_record (parsed : list LLMReorgEntryModel.t) (start : nat)
    (chunk : list loc) (h : loc -> BookmarkRecord.t) (i : nat) (record : loc)
    (Hdistinct : NoDup chunk) (Hrecord : chunk !! i = Some record) :
  let idx := Z.of_nat (start + i) in
  let before := h record in
  let after := Organiser.merge_loop (Organiser.index_map parsed) start chunk h record in
  (Forall (fun e => LLMReorgEntryModel.index e ≠ idx) parsed -> after = before)
  /\ (forall entry, carries parsed idx entry ->
        BookmarkRecord.title_after after
          = Py.or_else (LLMReorgEntryModel.title_after entry)
                       (BookmarkRecord.title_before before)
        /\ BookmarkRecord.location_after after
          = Py.or_else (LLMReorgEntryModel.location_after entry)
                       (BookmarkRecord.location_before before)
        /\ BookmarkMetadata.tags (BookmarkRecord.metadata after)
          = map Py.strip (filter (fun tag => Py.truthy (Py.strip tag))
                                 (LLMReorgEntryModel.tags entry))
        /\ (Forall (fun tag => tag ≠ "" /\ Py.strip tag = tag)
                   (LLMReorgEntryModel.tags entry) ->
            BookmarkMetadata.tags (BookmarkRecord.metadata after)
            = LLMReorgEntryModel.tags entry)
        /\ same_frame after before)
  /\ (Forall (fun e => LLMReorgEntryModel.index e ≠ idx) parsed
      \/ exists entry, carries parsed idx entry).
Proof.
  intros idx before after. subst after before.
  rewrite (merge_loop_at _ start chunk h i record Hdistinct Hrecord). fold idx.
  split; [|split].
  - intros Hnone. apply index_map_none in Hnone. now rewrite Hnone.
  - intros entry Hsome. apply index_map_some in Hsome. rewrite Hsome.
    split; [reflexivity|]. split; [reflexivity|]. split; [reflexivity|].
    split; [|apply apply_entry_frame].
    intros Hclean. cbn. now apply keep_clean_tags.
  - destruct (index_map parsed !! idx) as [entry|] eqn:Hl.
    + right. exists entry. now apply index_map_some.
    + left. now apply index_map_none.
Qed.

Lemma two_distinct : NoDup [0; 1].
Proof.
  apply NoDup_cons. split; [|apply NoDup_singleton].
  intros Hin. apply list_elem_of_singleton in Hin. discriminate.
Qed.

Lemma merge_loop_record_witness :
  NoDup [0; 1] /\ ([0; 1] : list nat) !! 0 = Some 0
  /\ let entry := LLMReorgEntryModel.mk 0 "Title A" "FolderA" ["a"] in
     let h := fun _ : nat =>
       BookmarkRecord.mk "Before A" "https://a.example" "Root/A"
         (BookmarkMetadata.mk "" "" ["old"]) "" "" in
     BookmarkMetadata.tags
       (BookmarkRecord.metadata
          (Organiser.merge_loop (Organiser.index_map [entry]) 0 [0; 1] h 0))
     = ["a"].
Proof.
  split; [exact two_distinct|]. split; [reflexivity|]. intros entry h.
  destruct (merge_loop_record [entry] 0 [0; 1] h 0 0 two_distinct eq_refl)
    as (_ & Hentry & _).
  destruct (Hentry entry) as (_ & _ & Htags & _).
  - exists [], []. repeat split. constructor.
  - exact Htags.
Defined.

(** C5 as first stated fails: a validated entry with an empty tag does not
    give the record its tags verbatim; and where one record object stands at
    two places of a batch, the entry of one place also changes the record at
    the other, which has no entry. *)
Lemma merge_drops_empty_tags :
  let item :=
    [("index", PInt 0); ("location_after", PStr "FolderA");
     ("tags", PList [PStr "a"; PStr " "])] in
  let h := fun _ : nat =>
    BookmarkRecord.mk "Before A" "https://a.example" "Root/A"
      (BookmarkMetadata.mk "" "" []) "" "" in
  (exists entry,
     @Organiser._validate_item Sample.runtime Config.MAX_FOLDER_DEPTH item = Some entry
     /\ LLMReorgEntryModel.tags entry = ["a"; ""]
     /\ BookmarkMetadata.tags
          (BookmarkRecord.metadata
             (Organiser.merge_loop (Organiser.index_map [entry]) 0 [0] h 0))
        = ["a"])
  /\ (let second := LLMReorgEntryModel.mk 1 "" "FolderB" [] in
      Organiser.index_map [second] !! 0%Z = None
      /\ BookmarkRecord.location_after (h 0) = ""
      /\ BookmarkRecord.location_after
           (Organiser.merge_loop (Organiser.index_map [second]) 0 [0; 0] h 0)
         = "FolderB").
Proof.
  split.
  - eexists. split; [reflexivity|]. split; reflexivity.
  - repeat split; vm_compute; reflexivity.
Qed.

End MergeRecord.

(** ** What a run leaves alone *)

Section Frame.

Context `{rt : Runtime}.
Import Organiser.

Variable MAX_FOLDER_DEPTH : nat.
Variable client : Client.

Lemma single_attempt_store (w : World) :
  same_store w (snd (_single_attempt MAX_FOLDER_DEPTH client w)).
Proof.
  unfold _single_attempt.
  destruct (client _ _ _) as [exc|response]; [repeat split|].
  destruct (_extract_items response); repeat split.
Qed.

Lemma process_exception_store (exc : PyExc) (attempt max_attempts : nat) (w : World) :
  same_store w (snd (_process_exception exc attempt max_attempts w)).
Proof.
  unfold _process_exception.
  repeat match goal with |- context [if ?b then _ else _] => destruct b end;
    repeat split.
Qed.

Lemma same_store_trans (w1 w2 w3 : World) :
  same_store w1 w2 -> same_store w2 w3 -> same_store w1 w3.
Proof. unfold same_store. intros (-> & -> & ->) (-> & -> & ->). auto. Qed.

Lemma retry_loop_store (max_attempts : nat) (attempts : list nat)
    (last_error : option PyExc) (w : World) :
  same_store w
    (snd (retry_loop MAX_FOLDER_DEPTH client max_attempts attempts last_error w)).
Proof.
  revert last_error w. induction attempts as [|attempt rest IH]; intros last_error w.
  - cbn [retry_loop]. destruct last_error; repeat split.
  - cbn [retry_loop].
    pose proof (single_attempt_store w) as H1.
    destruct (_single_attempt MAX_FOLDER_DEPTH client w) as [[exc|validated] w1].
    + pose proof (process_exception_store exc attempt max_attempts w1) as H2.
      destruct (_process_exception exc attempt max_attempts w1) as [immediate w2].
      eapply same_store_trans; [|apply IH].
      eapply same_store_trans; [exact H1|].
      eapply same_store_trans; [exact H2|]. destruct immediate; repeat split.
    + destruct validated; [|exact H1].
      eapply same_store_trans; [exact H1|apply IH].
Qed.

Lemma batch_loop_heap (records : list loc) (starts : list nat) (w : World) (l : loc) :
  let w' := snd (batch_loop MAX_FOLDER_DEPTH client records starts w) in
  same_frame (heap w' l) (heap w l)
  /\ (~ In l records -> heap w' l = heap w l).
Proof.
  revert w. induction starts as [|start rest IH]; intros w.
  - repeat split.
  - cbn [batch_loop]. unfold bind, _invoke_with_retry.
    pose proof (retry_loop_store 3 (seq 1 3) None w) as (Hh & _).
    destruct (retry_loop MAX_FOLDER_DEPTH client 3 (seq 1 3) None w) as [[e|parsed] w1].
    + cbn [snd] in *. rewrite Hh. repeat split.
    + cbn [snd] in Hh. cbv zeta in IH.
      set (chunk := take (Pos.to_nat (_batch_size (self w))) (drop start records)).
      set (w2 := set_heap (merge_loop (index_map parsed) start chunk (heap w1)) w1).
      destruct (IH w2) as [Hf Ho]. split.
      * destruct Hf as (H1 & H2 & H3 & H4 & H5).
        unfold same_frame. rewrite H1, H2, H3, H4, H5, <- Hh.
        apply merge_loop_frame.
      * intros Hout. rewrite (Ho Hout), <- Hh. apply merge_loop_outside.
        intros Hin. apply Hout. apply list_elem_of_In. apply list_elem_of_In in Hin.
        eapply subseteq_drop, subseteq_take. exact Hin.
Qed.

Lemma reorganise_heap (records : list loc) (w : World) (l : loc) :
  let w' := snd (reorganise MAX_FOLDER_DEPTH client records w) in
  same_frame (heap w' l) (heap w l)
  /\ (~ In l records -> heap w' l = heap w l).
Proof.
  unfold reorganise, bind, ret.
  pose proof (batch_loop_heap records
                (range_step (length records) (Pos.to_nat (_batch_size (self w)))) w l) as Hb.
  destruct (batch_loop _ _ _ _ w) as [[e|[]] w']; exact Hb.
Qed.

End Frame.

(** ** The retry loop *)

Section Retry.

Context `{rt : Runtime}.
Import Organiser.

Variable MAX_FOLDER_DEPTH : nat.
Variable client : Client.

Lemma process_exception_temperature (exc : PyExc) (attempt max_attempts : nat) (w : World) :
  _supports_temperature (self w) = true ->
  Py.contains "temperature" (exc_str exc) = true ->
  Py.contains "unsupported" (exc_str exc) = true ->
  _process_exception exc attempt max_attempts w
  = (true, emit Pause (set_self (without_temperature (self w)) w)).
Proof.
  intros Hon Ht Hu. unfold _process_exception.
  rewrite Hon, (contains_lower "temperature"), (contains_lower "unsupported");
    auto.
Qed.

Lemma retry_loop_temperature (max_attempts attempt : nat) (rest : list nat)
    (last_error : option PyExc) (w : World) (exc : PyExc) :
  _supports_temperature (self w) = true ->
  client (calls w) (_model (self w)) true = Raises exc ->
  Py.contains "temperature" (exc_str exc) = true ->
  Py.contains "unsupported" (exc_str exc) = true ->
  retry_loop MAX_FOLDER_DEPTH client max_attempts (attempt :: rest) last_error w
  = retry_loop MAX_FOLDER_DEPTH client max_attempts rest last_error (after_rejection w).
Proof.
  intros Hon Hexc Ht Hu. cbn [retry_loop]. unfold _single_attempt.
  rewrite Hon, Hexc.
  rewrite process_exception_temperature by assumption.
  f_equal. unfold after_rejection, emit, set_self, count_call. cbn.
  now rewrite <- app_assoc.
Qed.

Lemma stays_off_refl (w : World) :
  _supports_temperature (self w) = false -> stays_off w w.
Proof. intros H. split; [exact H|]. exists []. now rewrite app_nil_r. Qed.

Lemma stays_off_trans (w1 w2 w3 : World) :
  stays_off w1 w2 -> stays_off w2 w3 -> stays_off w1 w3.
Proof.
  intros [_ (e1 & H1 & F1)] [Hoff (e2 & H2 & F2)]. split; [exact Hoff|].
  exists (e1 ++ e2)%list. rewrite H2, H1, <- app_assoc. split; [reflexivity|].
  now apply Forall_app.
Qed.

Lemma stays_off_emit (w : World) (e : Event) :
  _supports_temperature (self w) = false -> plain e -> stays_off w (emit e w).
Proof. intros H He. split; [exact H|]. exists [e]. split; [reflexivity|]. now constructor. Qed.

Lemma single_attempt_off (w : World) :
  _supports_temperature (self w) = false ->
  stays_off w (snd (_single_attempt MAX_FOLDER_DEPTH client w)).
Proof.
  intros Hoff. unfold _single_attempt. rewrite Hoff.
  assert (Hs : stays_off w (count_call (emit (Call (_model (self w)) false) w))).
  { split; [exact Hoff|]. exists [Call (_model (self w)) false].
    split; [reflexivity|]. now constructor. }
  destruct (client _ _ _) as [exc|response]; [exact Hs|].
  destruct (_extract_items response); exact Hs.
Qed.

Lemma process_exception_off (exc : PyExc) (attempt max_attempts : nat) (w : World) :
  _supports_temperature (self w) = false ->
  stays_off w (snd (_process_exception exc attempt max_attempts w)).
Proof.
  intros Hoff. unfold _process_exception. rewrite Hoff. cbn [andb].
  match goal with |- context [if ?b then _ else _] => destruct b end.
  - split; [reflexivity|]. exists [Backoff attempt]. split; [reflexivity|].
    now constructor.
  - now apply stays_off_refl.
Qed.

Lemma retry_loop_off (max_attempts : nat) (attempts : list nat)
    (last_error : option PyExc) (w : World) :
  _supports_temperature (self w) = false ->
  stays_off w
    (snd (retry_loop MAX_FOLDER_DEPTH client max_attempts attempts last_error w)).
Proof.
  revert last_error w. induction attempts as [|attempt rest IH];
    intros last_error w Hoff; cbn [retry_loop].
  - destruct last_error; now apply stays_off_refl.
  - pose proof (single_attempt_off w Hoff) as H1.
    destruct (_single_attempt MAX_FOLDER_DEPTH client w) as [[exc|validated] w1];
      cbn [snd] in H1.
    + pose proof (process_exception_off exc attempt max_attempts w1 (proj1 H1)) as H2.
      destruct (_process_exception exc attempt max_attempts w1) as [immediate w2].
      cbn [snd] in H2.
      eapply stays_off_trans; [exact H1|].
      eapply stays_off_trans; [exact H2|].
      destruct immediate.
      * apply IH, H2.
      * eapply stays_off_trans; [apply (stays_off_emit w2 (Backoff attempt)); [apply H2|exact I]|].
        apply IH, H2.
    + destruct validated; [|exact H1].
      eapply stays_off_trans; [exact H1|]. apply IH, H1.
Qed.

Lemma batch_loop_off (records : list loc) (starts : list nat) (w : World) :
  _supports_temperature (self w) = false ->
  stays_off w (snd (batch_loop MAX_FOLDER_DEPTH client records starts w)).
Proof.
  revert w. induction starts as [|start rest IH]; intros w Hoff.
  - now apply stays_off_refl.
  - cbn [batch_loop]. unfold bind, _invoke_with_retry.
    pose proof (retry_loop_off 3 (seq 1 3) None w Hoff) as H1.
    destruct (retry_loop MAX_FOLDER_DEPTH client 3 (seq 1 3) None w) as [[e|parsed] w1];
      cbn [snd] in H1; [exact H1|].
    eapply stays_off_trans; [exact H1|].
    apply (IH (set_heap _ w1)). apply H1.
Qed.

Lemma reorganise_off (records : list loc) (w : World) :
  _supports_temperature (self w) = false ->
  stays_off w (snd (reorganise MAX_FOLDER_DEPTH client records w)).
Proof.
  intros Hoff. unfold reorganise, bind, ret.
  pose proof (batch_loop_off records
                (range_step (length records) (Pos.to_nat (_batch_size (self w)))) w Hoff) as Hb.
  destruct (batch_loop _ _ _ _ w) as [[e|[]] w']; exact Hb.
Qed.

End Retry.

(** C6: when a call that passed a temperature fails with a message that
    contains "temperature" and "unsupported", the attempt is followed by the
    remaining attempts run from a world in which the temperature is off and
    the only wait was the short pause (no backoff); with three attempts and
    the failure on the first, the second and the third remain; and once the
    temperature is off it stays off, in this retry loop and in every later
    batch of the same organiser, and no later call passes one. *)
Theorem temperature_rejection_retry `{rt : Runtime} (MAX_FOLDER_DEPTH : nat)
    (client : Organiser.Client) (w : Organiser.World) (exc : PyExc)
    (Henabled : Organiser._supports_temperature (Organiser.self w) = true)
    (Hrejected : client (Organiser.calls w) (Organiser._model (Organiser.self w)) true
                 = Organiser.Raises exc)
    (Htemperature : Py.contains "temperature" (exc_str exc) = true)
    (Hunsupported : Py.contains "unsupported" (exc_str exc) = true) :
  (forall max_attempts attempt rest last_error,
     Organiser.retry_loop MAX_FOLDER_DEPTH client max_attempts (attempt :: rest)
       last_error w
     = Organiser.retry_loop MAX_FOLDER_DEPTH client max_attempts rest last_error
         (after_rejection w))
  /\ Organiser._invoke_with_retry MAX_FOLDER_DEPTH client 3 w
     = Organiser.retry_loop MAX_FOLDER_DEPTH client 3 [2; 3] None (after_rejection w)
  /\ (forall max_attempts attempts last_error,
        stays_off (after_rejection w)
          (snd (Organiser.retry_loop MAX_FOLDER_DEPTH client max_attempts attempts
                  last_error (after_rejection w))))
  /\ (forall w' records,
        stays_off (after_rejection w) w' ->
        stays_off w' (snd (Organiser.reorganise MAX_FOLDER_DEPTH client records w'))).
Proof.
  split; [|split; [|split]].
  - intros. now apply retry_loop_temperature with (exc := exc).
  - unfold Organiser._invoke_with_retry. cbn [seq].
    now apply retry_loop_temperature with (exc := exc).
  - intros. now apply retry_loop_off.
  - intros w' records [Hoff _]. now apply reorganise_off.
Qed.

Lemma temperature_rejection_retry_witness :
  let rejected :=
    Exc (ProviderError "BadRequestError")
        "unsupported_value: 'temperature' does not support 0.2 with this model" in
  let script : Organiser.Client := fun n _ _ =>
    match n with
    | 0 => Organiser.Raises rejected
    | 1 => Organiser.Raises (Exc (ProviderError "APITimeoutError") "Request timed out.")
    | _ => Organiser.Returns
             {| Organiser.choices :=
                  [Some (Parsed (PList [PDict [("index", PInt 0);
                                               ("location_after", PStr "FolderA")]]))] |}
    end in
  let w0 :=
    Organiser.mkWorld
      (fun _ => BookmarkRecord.mk "Before A" "https://a.example" "Root/A"
                  (BookmarkMetadata.mk "" "" []) "" "")
      1 ∅ (Organiser.init "gpt-5" 25 None None) 0 [] in
  (Py.contains "temperature" (exc_str rejected) = true
   /\ Py.contains "unsupported" (exc_str rejected) = true)
  /\ fst (@Organiser._invoke_with_retry Sample.runtime Config.MAX_FOLDER_DEPTH script 3 w0)
     = inr [LLMReorgEntryModel.mk 0 "" "FolderA" []]
  /\ Organiser.trace
       (snd (@Organiser._invoke_with_retry Sample.runtime Config.MAX_FOLDER_DEPTH
               script 3 w0))
     = [Organiser.Call "gpt-5" true; Organiser.Pause;
        Organiser.Call "gpt-5" false; Organiser.Backoff 2;
        Organiser.Call "gpt-5" false].
Proof.
  intros rejected script w0. split; [split; reflexivity|].
  destruct (@temperature_rejection_retry Sample.runtime Config.MAX_FOLDER_DEPTH
              script w0 rejected eq_refl eq_refl eq_refl eq_refl) as (_ & Hnext & _).
  rewrite Hnext. split; reflexivity.
Defined.

Section TerminalFailure.

Context `{rt : Runtime}.
Import Organiser.

Variable MAX_FOLDER_DEPTH : nat.

(** An error that is neither about the temperature nor about the model. *)
Lemma process_exception_generic (exc : PyExc) (attempt max_attempts : nat) (w : World) :
  Py.contains "temperature" (Py.lower (exc_str exc)) = false ->
  Py.contains "model" (Py.lower (exc_str exc)) = false ->
  _process_exception exc attempt max_attempts w = (false, w).
Proof.
  intros Ht Hm. unfold _process_exception. rewrite Ht, Hm.
  now rewrite !andb_false_r, andb_false_l.
Qed.

Lemma retry_loop_raises (client : Client) (max_attempts : nat) (attempts : list nat)
    (last_error : option PyExc) (w : World) (e : PyExc) :
  fst (retry_loop MAX_FOLDER_DEPTH client max_attempts attempts last_error w) = inl e ->
  e = Exc LLMInvocationError ""
  \/ e = Exc ValueError "No valid items after validation"
  \/ last_error = Some e.
Proof.
  revert last_error w. induction attempts as [|attempt rest IH];
    intros last_error w; cbn [retry_loop].
  - destruct last_error; cbn [fst]; intros [= <-]; auto.
  - destruct (_single_attempt MAX_FOLDER_DEPTH client w) as [[exc|validated] w1].
    + destruct (_process_exception exc attempt max_attempts w1) as [immediate w2].
      apply IH.
    + destruct validated; [|discriminate].
      intros H. apply IH in H as [H|[H|[= H]]]; auto.
Qed.

End TerminalFailure.

(** C1, what the code does at terminal failure: when every attempt returns a
    response without a valid item, the call raises the [ValueError] "No valid
    items after validation", not [LLMInvocationError]; when every attempt
    raises, it raises a bare [LLMInvocationError] that carries no error; and
    whatever the client does, a failed call raises one of these two. *)
Theorem invoke_with_retry_terminal_failure `{rt : Runtime} (MAX_FOLDER_DEPTH : nat)
    (w : Organiser.World) :
  let empty_client : Organiser.Client := fun _ _ _ =>
    Organiser.Returns {| Organiser.choices := [Some (Parsed (PList []))] |} in
  let down_client : Organiser.Client := fun _ _ _ =>
    Organiser.Raises (Exc (ProviderError "APIConnectionError") "Connection error.") in
  fst (Organiser._invoke_with_retry MAX_FOLDER_DEPTH empty_client 3 w)
    = inl (Exc ValueError "No valid items after validation")
  /\ fst (Organiser._invoke_with_retry MAX_FOLDER_DEPTH down_client 3 w)
    = inl (Exc LLMInvocationError "")
  /\ (forall client max_attempts e,
        fst (Organiser._invoke_with_retry MAX_FOLDER_DEPTH client max_attempts w) = inl e ->
        e = Exc LLMInvocationError ""
        \/ e = Exc ValueError "No valid items after validation").
Proof.
  intros empty_client down_client. split; [|split].
  - reflexivity.
  - unfold Organiser._invoke_with_retry. cbn [seq Organiser.retry_loop].
    unfold Organiser._single_attempt, down_client.
    rewrite !process_exception_generic by reflexivity. reflexivity.
  - intros client max_attempts e H. unfold Organiser._invoke_with_retry in H.
    apply retry_loop_raises in H as [H|[H|[=]]]; auto.
Qed.

(** ** The JSON snapshot *)

Section Snapshot.

Import Organiser.

Lemma strip_each_strs (tags : list string) :
  BookmarkMetadataModel.strip_each (map PStr tags) = Valid (map Py.strip tags).
Proof.
  induction tags as [|tag tags IH]; [reflexivity|].
  cbn [map BookmarkMetadataModel.strip_each]. now rewrite IH.
Qed.

Lemma normalise_tags_strs (tags : list string) :
  BookmarkMetadataModel._normalise_tags (PList (map PStr tags))
  = Valid (map Py.strip tags).
Proof.
  unfold BookmarkMetadataModel._normalise_tags.
  destruct tags as [|tag tags]; [reflexivity|].
  cbn [map Dyn.truthy Dyn.iterate]. apply (strip_each_strs (tag :: tags)).
Qed.

Lemma validate_metadata_dump (m : BookmarkMetadataModel.t) :
  BookmarkMetadataModel.validate (BookmarkMetadataModel.model_dump m)
  = Valid (BookmarkMetadataModel.mk (BookmarkMetadataModel.title m)
             (BookmarkMetadataModel.description m)
             (map Py.strip (BookmarkMetadataModel.tags m))).
Proof.
  unfold BookmarkMetadataModel.validate, BookmarkMetadataModel.model_dump.
  change (Pydantic.optional BookmarkMetadataModel._normalise_tags [] "tags" ?d)
    with (BookmarkMetadataModel._normalise_tags
            (PList (map PStr (BookmarkMetadataModel.tags m)))).
  rewrite normalise_tags_strs. reflexivity.
Qed.

Lemma validate_entry_dump (m : BookmarkEntryModel.t) :
  BookmarkEntryModel.validate (BookmarkEntryModel.model_dump m)
  = Valid (BookmarkEntryModel.mk
             (BookmarkEntryModel.title_before m) (BookmarkEntryModel.title_after m)
             (BookmarkEntryModel.url m) (BookmarkEntryModel.location_before m)
             (BookmarkEntryModel.location_after m)
             (BookmarkMetadataModel.mk
                (BookmarkMetadataModel.title (BookmarkEntryModel.link_metadata m))
                (BookmarkMetadataModel.description (BookmarkEntryModel.link_metadata m))
                (map Py.strip
                   (BookmarkMetadataModel.tags (BookmarkEntryModel.link_metadata m))))).
Proof.
  unfold BookmarkEntryModel.validate, BookmarkEntryModel.model_dump.
  change (Pydantic.required BookmarkMetadataModel.validate "link_metadata" ?d)
    with (BookmarkMetadataModel.validate
            (BookmarkMetadataModel.model_dump (BookmarkEntryModel.link_metadata m))).
  rewrite validate_metadata_dump. reflexivity.
Qed.

Lemma strip_map_idem (tags : list string) :
  map Py.strip (map Py.strip tags) = map Py.strip tags.
Proof. rewrite map_map. apply map_ext. intros tag. apply strip_idem. Qed.

(** What [to_model] dumps validates to the same model. *)
Lemma validate_to_model (r : BookmarkRecord.t) :
  BookmarkEntryModel.model_validate (BookmarkEntryModel.model_dump (to_model r))
  = inr (to_model r).
Proof.
  unfold BookmarkEntryModel.model_validate. rewrite validate_entry_dump.
  unfold to_model, BookmarkMetadataModel.init. cbn. now rewrite strip_map_idem.
Qed.

Lemma from_to_model (r : BookmarkRecord.t) : from_model (to_model r) = trimmed r.
Proof. destruct r as [tb u lb [t d tags] ta la]. reflexivity. Qed.

Lemma validate_each_dump (values : list BookmarkRecord.t) :
  validate_each (map BookmarkEntryModel.model_dump (map to_model values))
  = inr (map to_model values).
Proof.
  induction values as [|r values IH]; [reflexivity|].
  cbn [map validate_each]. now rewrite validate_to_model, IH.
Qed.

Lemma create_all_spec (values : list BookmarkRecord.t) (w : World) :
  fst (create_all values w) = seq (next_loc w) (length values)
  /\ map (heap (snd (create_all values w))) (seq (next_loc w) (length values)) = values
  /\ (forall l, l < next_loc w -> heap (snd (create_all values w)) l = heap w l).
Proof.
  revert w. induction values as [|v values IH]; intros w.
  - repeat split.
  - cbn [create_all].
    set (w1 := mkWorld (<[next_loc w := v]> (heap w)) (S (next_loc w)) (files w)
                       (self w) (calls w) (trace w)).
    destruct (IH w1) as (Hrefs & Hvals & Hold).
    destruct (create_all values w1) as [rs w2].
    cbn [fst snd length seq map w1 next_loc heap] in *.
    split; [now rewrite Hrefs|]. split.
    + rewrite Hvals, Hold by lia. now rewrite fn_lookup_insert.
    + intros l Hl. rewrite Hold by lia. apply fn_lookup_insert_ne. lia.
Qed.

Lemma map_strip_clean (tags : list string) :
  Forall (fun tag => Py.strip tag = tag) tags -> map Py.strip tags = tags.
Proof.
  induction 1 as [|tag tags Htag _ IH]; [reflexivity|].
  cbn [map]. now rewrite Htag, IH.
Qed.

Lemma trimmed_clean (r : BookmarkRecord.t) :
  Forall (fun tag => Py.strip tag = tag) (BookmarkMetadata.tags (BookmarkRecord.metadata r)) ->
  trimmed r = r.
Proof.
  destruct r as [tb u lb [t d tags] ta la].
  unfold trimmed, BookmarkRecord.with_metadata, BookmarkMetadata.with_tags.
  cbn [BookmarkRecord.metadata BookmarkMetadata.tags BookmarkRecord.title_before
       BookmarkRecord.url BookmarkRecord.location_before BookmarkRecord.title_after
       BookmarkRecord.location_after BookmarkMetadata.title BookmarkMetadata.description].
  intros Hclean. now rewrite (map_strip_clean tags Hclean).
Qed.

(** The round trip creates the trimmed records in the world that holds the
    written file. *)
Lemma round_trip_eq (records : list loc) (path : string) (w : World) :
  round_trip records path w
  = let payload := map BookmarkEntryModel.model_dump
                     (map (fun record => to_model (heap w record)) records) in
    let w1 := mkWorld (heap w) (next_loc w) (<[path := Parsed (PList payload)]> (files w))
                      (self w) (calls w) (trace w) in
    let '(loaded, w') := create_all (map trimmed (map (heap w) records)) w1 in
    (inr loaded, w').
Proof.
  unfold round_trip, bind, write_json, load_json. cbn [files].
  rewrite lookup_insert_eq. cbn [Dyn.iterate].
  rewrite <- (map_map (heap w) to_model), validate_each_dump.
  rewrite (map_map to_model from_model).
  rewrite (map_ext _ trimmed) by apply from_to_model.
  reflexivity.
Qed.

End Snapshot.

(** C9, as amended: writing a list of records to a JSON snapshot and loading
    it back succeeds and gives new records, as many and in the same order,
    each equal to the one written in every field, but with each tag trimmed
    of surrounding white space (the order of the tags kept); they equal the
    records written when no tag has surrounding white space. The records
    that existed before are not changed. *)
Theorem json_round_trip (records : list loc) (path : string) (w : Organiser.World) :
  let written := map (Organiser.heap w) records in
  exists loaded w',
    round_trip records path w = (inr loaded, w')
    /\ length loaded = length records
    /\ map (Organiser.heap w') loaded = map trimmed written
    /\ Forall2
         (fun r r' =>
            BookmarkRecord.title_before r' = BookmarkRecord.title_before r
            /\ BookmarkRecord.title_after r' = BookmarkRecord.title_after r
            /\ BookmarkRecord.url r' = BookmarkRecord.url r
            /\ BookmarkRecord.location_before r' = BookmarkRecord.location_before r
            /\ BookmarkRecord.location_after r' = BookmarkRecord.location_after r
            /\ BookmarkMetadata.title (BookmarkRecord.metadata r')
               = BookmarkMetadata.title (BookmarkRecord.metadata r)
            /\ BookmarkMetadata.description (BookmarkRecord.metadata r')
               = BookmarkMetadata.description (BookmarkRecord.metadata r)
            /\ BookmarkMetadata.tags (BookmarkRecord.metadata r')
               = map Py.strip (BookmarkMetadata.tags (BookmarkRecord.metadata r)))
         written (map (Organiser.heap w') loaded)
    /\ (Forall (fun r => Forall (fun tag => Py.strip tag = tag)
                           (BookmarkMetadata.tags (BookmarkRecord.metadata r))) written ->
        map (Organiser.heap w') loaded = written)
    /\ (forall l, l < Organiser.next_loc w -> Organiser.heap w' l = Organiser.heap w l).
Proof.
  intros written. rewrite round_trip_eq. cbv zeta. fold written.
  match goal with |- context [Organiser.create_all ?vs ?w1] =>
    pose proof (create_all_spec vs w1) as (Hrefs & Hvals & Hold);
    destruct (Organiser.create_all vs w1) as [loaded w'] end.
  cbn [fst snd Organiser.next_loc Organiser.heap] in Hrefs, Hvals, Hold.
  rewrite length_map in Hrefs, Hvals.
  exists loaded, w'. subst loaded.
  split; [reflexivity|]. split.
  { unfold written. now rewrite length_seq, !length_map. }
  split; [exact Hvals|]. split.
  { rewrite Hvals. clear. induction written as [|r rs IH]; cbn [map]; constructor.
    - destruct r as [tb u lb [t d tags] ta la]. repeat split.
    - exact IH. }
  split; [|exact Hold].
  intros Hclean. rewrite Hvals. clear - Hclean.
  induction Hclean as [|r rs Hr _ IH]; [reflexivity|].
  cbn [map]. now rewrite (trimmed_clean r Hr), IH.
Qed.

(** C9 as first stated fails: a tag with a leading space comes back without
    it. *)
Lemma json_round_trip_trims_tags :
  let r :=
    BookmarkRecord.mk "Before A" "https://a.example" "Root/A"
      (BookmarkMetadata.mk "" "" [" a"]) "" "" in
  let w0 := Organiser.mkWorld (fun _ => r) 1 ∅ (Organiser.init "gpt-5" 25 None None) 0 [] in
  let result := round_trip [0] "bookmarks.json" w0 in
  fst result = inr [1]
  /\ BookmarkMetadata.tags (BookmarkRecord.metadata (Organiser.heap w0 0)) = [" a"]
  /\ BookmarkMetadata.tags (BookmarkRecord.metadata (Organiser.heap (snd result) 1)) = ["a"].
Proof. repeat split; vm_compute; reflexivity. Qed.

(** ** The repository's own scenarios *)

Section Scenarios.

(** tests/test_llm_retry.py: a first response that is not a list, then a list
    whose second item lacks [location_after]. The first record is updated,
    the second is left as it was, and one standard backoff was taken. *)
Example llm_retry_and_validation :
  let r1 := BookmarkRecord.mk "Before A" "https://a.example" "Root/A"
              (BookmarkMetadata.mk "" "" []) "" "" in
  let r2 := BookmarkRecord.mk "Before B" "https://b.example" "Root/B"
              (BookmarkMetadata.mk "" "" []) "" "" in
  let malformed := Parsed (PDict [("oops", PInt 1)]) in
  let valid_list :=
    Parsed (PList [PDict [("index", PInt 0); ("title_after", PStr "Title A");
                          ("location_after", PStr "FolderA");
                          ("tags", PList [PStr "a"])];
                   PDict [("index", PInt 1); ("title_after", PStr "Title B")]]) in
  let client : Organiser.Client := fun n _ _ =>
    match n with
    | 0 => Organiser.Returns {| Organiser.choices := [Some malformed] |}
    | 1 => Organiser.Returns {| Organiser.choices := [Some valid_list] |}
    | _ => Organiser.Raises (Exc RuntimeError "No more dummy payloads")
    end in
  let w0 :=
    Organiser.mkWorld (fun l => if (l =? 0)%nat then r1 else r2) 2 ∅
      (Organiser.init Organiser.DEFAULT_MODEL Config.DEFAULT_BATCH_SIZE None None) 0 [] in
  let out := @Organiser.reorganise Sample.runtime Config.MAX_FOLDER_DEPTH client [0; 1] w0 in
  fst out = inr [0; 1]
  /\ Organiser.heap (snd out) 0
     = BookmarkRecord.mk "Before A" "https://a.example" "Root/A"
         (BookmarkMetadata.mk "" "" ["a"]) "Title A" "FolderA"
  /\ Organiser.heap (snd out) 1 = r2
  /\ Organiser.trace (snd out)
     = [Organiser.Call "gpt-4.1-mini" true; Organiser.Backoff 1;
        Organiser.Call "gpt-4.1-mini" true].
Proof. repeat split; vm_compute; reflexivity. Qed.

(** Equal sets of URLs with different duplicate counts fail the URL check,
    and the payload says which URL is missing and which is extra. *)
Example url_duplicates_counted :
  let record := fun u => BookmarkRecord.mk "" u "Root" (BookmarkMetadata.mk "" "" []) "" "" in
  Validator._assert_url_multiset
    [record "https://a.example"; record "https://a.example"; record "https://b.example"]
    [record "https://a.example"; record "https://b.example"; record "https://b.example"]
  = inl (Validator.UrlMultisetMismatch {["https://a.example" := 1]}
                                       {["https://b.example" := 1]}).
Proof. vm_compute. reflexivity. Qed.

End Scenarios.

(** * Further properties of the code *)

(** ** Batching *)

Section Batching.

Lemma div_up_covers (n b : nat) : 0 < b -> n <= (n + b - 1) / b * b.
Proof.
  intros Hb.
  pose proof (Nat.div_mod_eq (n + b - 1) b) as Hd.
  pose proof (Nat.mod_upper_bound (n + b - 1) b ltac:(lia)) as Hm.
  nia.
Qed.

Lemma div_up_tight (n b j : nat) : 0 < b -> j < (n + b - 1) / b -> j * b < n.
Proof.
  intros Hb Hj.
  pose proof (Nat.div_mod_eq (n + b - 1) b) as Hd.
  nia.
Qed.

Lemma concat_slices (b : nat) (l : list loc) (k : nat) :
  concat (map (fun start => take b (drop start l)) (map (fun j => j * b) (seq 0 k)))
  = take (k * b) l.
Proof.
  induction k as [|k IH]; [reflexivity|].
  rewrite seq_S, !map_app, concat_app, IH. cbn [map concat plus].
  rewrite app_nil_r, take_take_drop. f_equal. lia.
Qed.

(** X1: the slices of the batch loop, put end to end, are the record list:
    every record is in exactly one batch, in order; no batch is empty or
    longer than the batch size; there are ceil(n / B) of them; and the i-th
    record of the batch that starts at [start] is the record at position
    [start + i] of the whole list, the index the merge loop gives it. *)
Theorem batch_slices_partition (B : positive) (records : list loc) :
  concat (batch_slices B records) = records
  /\ Forall (fun chunk => 0 < length chunk <= Pos.to_nat B) (batch_slices B records)
  /\ length (batch_slices B records)
     = (length records + Pos.to_nat B - 1) / Pos.to_nat B
  /\ (forall start i, i < Pos.to_nat B ->
        take (Pos.to_nat B) (drop start records) !! i = records !! (start + i)).
Proof.
  unfold batch_slices, Organiser.range_step.
  pose proof (Pos2Nat.is_pos B) as Hb. set (b := Pos.to_nat B) in *.
  split; [|split; [|split]].
  - rewrite concat_slices. apply take_ge, div_up_covers, Hb.
  - apply Forall_forall. intros chunk Hin.
    apply list_elem_of_In, in_map_iff in Hin as (start & <- & Hin).
    apply in_map_iff in Hin as (j & <- & Hj). apply in_seq in Hj.
    pose proof (div_up_tight (length records) b j Hb ltac:(lia)).
    rewrite length_take, length_drop. lia.
  - now rewrite !length_map, length_seq.
  - intros start i Hi. now rewrite lookup_take_lt, lookup_drop.
Qed.

End Batching.

(** ** The cost and the result of a call with retries *)

Section RetryBounds.

Context `{rt : Runtime}.
Import Organiser.

Variable MAX_FOLDER_DEPTH : nat.
Variable client : Client.

Lemma single_attempt_calls (w : World) :
  calls (snd (_single_attempt MAX_FOLDER_DEPTH client w)) = S (calls w).
Proof.
  unfold _single_attempt.
  destruct (client _ _ _) as [exc|response]; [reflexivity|].
  destruct (_extract_items response); reflexivity.
Qed.

Lemma process_exception_calls (exc : PyExc) (attempt max_attempts : nat) (w : World) :
  calls (snd (_process_exception exc attempt max_attempts w)) = calls w.
Proof.
  unfold _process_exception.
  repeat match goal with |- context [if ?b then _ else _] => destruct b end;
    reflexivity.
Qed.

Lemma retry_loop_calls (max_attempts : nat) (attempts : list nat)
    (last_error : option PyExc) (w : World) :
  let w' := snd (retry_loop MAX_FOLDER_DEPTH client max_attempts attempts last_error w) in
  calls w + Nat.min 1 (length attempts) <= calls w' <= calls w + length attempts.
Proof.
  revert last_error w. induction attempts as [|attempt rest IH]; intros last_error w.
  - cbn [retry_loop length]. destruct last_error; cbn; lia.
  - cbn [retry_loop length].
    pose proof (single_attempt_calls w) as H1.
    destruct (_single_attempt MAX_FOLDER_DEPTH client w) as [[exc|validated] w1];
      cbn [snd] in H1.
    + pose proof (process_exception_calls exc attempt max_attempts w1) as H2.
      destruct (_process_exception exc attempt max_attempts w1) as [immediate w2].
      cbn [snd] in H2.
      match goal with |- context [retry_loop _ _ _ rest ?le ?w3] =>
        pose proof (IH le w3) as H3; cbv zeta in H3;
        assert (Hc : calls w3 = calls w2) by (destruct immediate; reflexivity) end.
      cbv zeta. lia.
    + destruct validated as [|item items].
      * pose proof (IH (Some (Exc ValueError "No valid items after validation")) w1) as H3.
        cbv zeta in *. lia.
      * cbv zeta. cbn [snd]. lia.
Qed.

Lemma single_attempt_validated (w : World) (validated : list LLMReorgEntryModel.t) :
  fst (_single_attempt MAX_FOLDER_DEPTH client w) = inr validated ->
  Forall (fun e => exists obj, _validate_item MAX_FOLDER_DEPTH obj = Some e) validated.
Proof.
  unfold _single_attempt.
  destruct (client _ _ _) as [exc|response]; [discriminate|].
  destruct (_extract_items response) as [exc|raw_items]; [discriminate|].
  cbn [fst]. intros [= <-]. apply Forall_forall. intros e He.
  apply list_elem_of_omap in He as (obj & _ & Hobj). eauto.
Qed.

Lemma retry_loop_validated (max_attempts : nat) (attempts : list nat)
    (last_error : option PyExc) (w : World) (validated : list LLMReorgEntryModel.t) :
  fst (retry_loop MAX_FOLDER_DEPTH client max_attempts attempts last_error w)
    = inr validated ->
  validated ≠ []
  /\ Forall (fun e => exists obj, _validate_item MAX_FOLDER_DEPTH obj = Some e) validated.
Proof.
  revert last_error w. induction attempts as [|attempt rest IH]; intros last_error w.
  - cbn [retry_loop]. destruct last_error; discriminate.
  - cbn [retry_loop].
    pose proof (single_attempt_validated w) as H1.
    destruct (_single_attempt MAX_FOLDER_DEPTH client w) as [[exc|items] w1].
    + destruct (_process_exception exc attempt max_attempts w1) as [immediate w2].
      apply IH.
    + destruct items as [|item items]; [apply IH|].
      cbn [fst]. intros [= <-]. split; [discriminate|]. now apply H1.
Qed.

Lemma batch_loop_calls (records : list loc) (starts : list nat) (w : World) :
  calls (snd (batch_loop MAX_FOLDER_DEPTH client records starts w))
  <= calls w + 3 * length starts.
Proof.
  revert w. induction starts as [|start rest IH]; intros w.
  - cbn. lia.
  - cbn [batch_loop length]. unfold bind, _invoke_with_retry.
    pose proof (retry_loop_calls 3 (seq 1 3) None w) as H1. cbv zeta in H1.
    rewrite length_seq in H1.
    destruct (retry_loop MAX_FOLDER_DEPTH client 3 (seq 1 3) None w) as [[e|parsed] w1];
      cbn [snd] in *; [lia|].
    match goal with |- context [batch_loop _ _ _ rest ?w2] =>
      pose proof (IH w2) as H2 end.
    cbn [calls set_heap] in H2. lia.
Qed.

End RetryBounds.

(** X2: a call with retries makes at least one client call (when
    [max_attempts] is positive) and at most [max_attempts]; with no attempt
    allowed it raises [LLMInvocationError] at once and changes nothing; the
    records and the files are never touched by it; and what it returns is
    never empty and holds only entries that [_validate_item] accepted. *)
Theorem invoke_with_retry_bounds `{rt : Runtime} (MAX_FOLDER_DEPTH : nat)
    (client : Organiser.Client) (max_attempts : nat) (w : Organiser.World) :
  let result := Organiser._invoke_with_retry MAX_FOLDER_DEPTH client max_attempts w in
  (Organiser.calls w + Nat.min 1 max_attempts <= Organiser.calls (snd result)
   /\ Organiser.calls (snd result) <= Organiser.calls w + max_attempts)
  /\ Organiser._invoke_with_retry MAX_FOLDER_DEPTH client 0 w
     = (inl (Exc LLMInvocationError ""), w)
  /\ same_store w (snd result)
  /\ (forall validated, fst result = inr validated ->
        validated ≠ []
        /\ Forall (fun e => exists obj,
                     Organiser._validate_item MAX_FOLDER_DEPTH obj = Some e) validated).
Proof.
  intros result. unfold result, Organiser._invoke_with_retry.
  split; [|split; [reflexivity|split]].
  - pose proof (retry_loop_calls MAX_FOLDER_DEPTH client max_attempts
                  (seq 1 max_attempts) None w) as H.
    cbv zeta in H. rewrite length_seq in H. exact H.
  - apply retry_loop_store.
  - intros validated. apply retry_loop_validated.
Qed.

(** X3: [reorganise] makes at most three client calls for each batch, that
    is at most 3 * ceil(n / B) calls for n records, and for an empty record
    list it returns the empty list without a call and without any change. *)
Theorem reorganise_call_budget `{rt : Runtime} (MAX_FOLDER_DEPTH : nat)
    (client : Organiser.Client) (records : list loc) (w : Organiser.World) :
  let B := Pos.to_nat (Organiser._batch_size (Organiser.self w)) in
  Organiser.calls (snd (Organiser.reorganise MAX_FOLDER_DEPTH client records w))
    <= Organiser.calls w + 3 * ((length records + B - 1) / B)
  /\ Organiser.reorganise MAX_FOLDER_DEPTH client [] w = (inr [], w).
Proof.
  intros B. split.
  - unfold Organiser.reorganise, Organiser.bind, Organiser.ret.
    pose proof (batch_loop_calls MAX_FOLDER_DEPTH client records
                  (Organiser.range_step (length records) B) w) as H.
    unfold Organiser.range_step in H at 2. rewrite length_map, length_seq in H.
    fold B. destruct (Organiser.batch_loop _ _ _ _ w) as [[e|[]] w']; exact H.
  - unfold Organiser.reorganise, Organiser.bind, Organiser.ret, Organiser.range_step.
    cbn [length]. rewrite Nat.add_0_l.
    replace ((_ - 1) / _) with 0; [reflexivity|].
    symmetry. apply Nat.div_small. pose proof (Pos2Nat.is_pos (Organiser._batch_size (Organiser.self w))). lia.
Qed.

(** ** The organiser's settings *)

Section Settings.

Context `{rt : Runtime}.
Import Organiser.

Variable MAX_FOLDER_DEPTH : nat.
Variable client : Client.

Lemma settings_kept_refl (o : t) : settings_kept o o.
Proof. repeat split; auto. Qed.

Lemma settings_kept_trans (o1 o2 o3 : t) :
  settings_kept o1 o2 -> settings_kept o2 o3 -> settings_kept o1 o3.
Proof.
  intros (Hf1 & Hb1 & Hm1 & Ht1) (Hf2 & Hb2 & Hm2 & Ht2).
  split; [congruence|]. split; [congruence|]. split; [|auto].
  destruct Hm2 as [Hm2|Hm2]; rewrite Hm2; [exact Hm1|]. right. exact Hf1.
Qed.

Lemma single_attempt_self (w : World) :
  self (snd (_single_attempt MAX_FOLDER_DEPTH client w)) = self w.
Proof.
  unfold _single_attempt.
  destruct (client _ _ _) as [exc|response]; [reflexivity|].
  destruct (_extract_items response); reflexivity.
Qed.

Lemma process_exception_settings (exc : PyExc) (attempt max_attempts : nat) (w : World) :
  settings_kept (self w) (self (snd (_process_exception exc attempt max_attempts w))).
Proof.
  unfold _process_exception.
  repeat match goal with |- context [if ?b then _ else _] => destruct b end;
    cbn; repeat split; auto.
Qed.

Lemma retry_loop_settings (max_attempts : nat) (attempts : list nat)
    (last_error : option PyExc) (w : World) :
  settings_kept (self w)
    (self (snd (retry_loop MAX_FOLDER_DEPTH client max_attempts attempts last_error w))).
Proof.
  revert last_error w. induction attempts as [|attempt rest IH]; intros last_error w.
  - cbn [retry_loop]. destruct last_error; apply settings_kept_refl.
  - cbn [retry_loop].
    pose proof (single_attempt_self w) as H1.
    destruct (_single_attempt MAX_FOLDER_DEPTH client w) as [[exc|validated] w1];
      cbn [snd] in H1; rewrite <- H1.
    + pose proof (process_exception_settings exc attempt max_attempts w1) as H2.
      destruct (_process_exception exc attempt max_attempts w1) as [immediate w2].
      cbn [snd] in H2.
      eapply settings_kept_trans; [exact H2|].
      destruct immediate; [apply IH|].
      exact (IH last_error (emit (Backoff attempt) w2)).
    + destruct validated; [apply IH|apply settings_kept_refl].
Qed.

Lemma batch_loop_settings (records : list loc) (starts : list nat) (w : World) :
  settings_kept (self w)
    (self (snd (batch_loop MAX_FOLDER_DEPTH client records starts w))).
Proof.
  revert w. induction starts as [|start rest IH]; intros w.
  - apply settings_kept_refl.
  - cbn [batch_loop]. unfold bind, _invoke_with_retry.
    pose proof (retry_loop_settings 3 (seq 1 3) None w) as H1.
    destruct (retry_loop MAX_FOLDER_DEPTH client 3 (seq 1 3) None w) as [[e|parsed] w1];
      cbn [snd] in H1; [exact H1|].
    eapply settings_kept_trans; [exact H1|]. apply (IH (set_heap _ w1)).
Qed.

Lemma process_exception_fallback (exc : PyExc) (max_attempts : nat) (w : World) :
  _fallback_model (self w) ≠ _model (self w) ->
  _supports_temperature (self w)
  && Py.contains "temperature" (Py.lower (exc_str exc))
  && Py.contains "unsupported" (Py.lower (exc_str exc)) = false ->
  Py.contains "model" (Py.lower (exc_str exc)) = true ->
  Py.contains "not found" (Py.lower (exc_str exc))
  || Py.contains "does not exist" (Py.lower (exc_str exc)) = true ->
  _process_exception exc 1 max_attempts w
  = (true, emit (Backoff 1) (set_self (with_fallback (self w)) w)).
Proof.
  intros Hne Hnt Hm Hmiss. unfold _process_exception. rewrite Hnt, Hm, Hmiss.
  destruct (String.eqb_spec (_fallback_model (self w)) (_model (self w)));
    [contradiction|reflexivity].
Qed.

End Settings.

(** X4: whatever the client does, a run of [reorganise] (also one that
    raises) leaves the organiser's fallback model and batch size as they
    were, leaves its model as it was or replaces it by the fallback model,
    and never switches a temperature that is off back on. In particular an
    organiser whose model is its fallback model keeps that model. *)
Theorem reorganise_settings `{rt : Runtime} (MAX_FOLDER_DEPTH : nat)
    (client : Organiser.Client) (records : list loc) (w : Organiser.World) :
  let o := Organiser.self w in
  let o' := Organiser.self (snd (Organiser.reorganise MAX_FOLDER_DEPTH client records w)) in
  settings_kept o o'
  /\ (Organiser._model o = Organiser._fallback_model o ->
      Organiser._model o' = Organiser._model o).
Proof.
  intros o o'.
  assert (H : settings_kept o o').
  { unfold o, o', Organiser.reorganise, Organiser.bind, Organiser.ret.
    pose proof (batch_loop_settings MAX_FOLDER_DEPTH client records
                  (Organiser.range_step (length records)
                     (Pos.to_nat (Organiser._batch_size (Organiser.self w)))) w) as Hb.
    destruct (Organiser.batch_loop _ _ _ _ w) as [[e|[]] w']; exact Hb. }
  split; [exact H|]. intros Heq. destruct H as (_ & _ & [Hm|Hm] & _); congruence.
Qed.

(** X5: when the first attempt fails with a message that (lower-cased) says
    the model was "not found" or "does not exist", the fallback model differs
    from the model and the failure is not the temperature rejection, the
    remaining attempts run with the fallback model after one backoff of the
    first attempt; the same failure on a later attempt leaves the model as it
    is and takes the standard backoff. *)
Theorem model_fallback_first_attempt `{rt : Runtime} (MAX_FOLDER_DEPTH : nat)
    (client : Organiser.Client) (w : Organiser.World) (exc : PyExc)
    (Hdiffers : Organiser._fallback_model (Organiser.self w)
                ≠ Organiser._model (Organiser.self w))
    (Hraised : client (Organiser.calls w) (Organiser._model (Organiser.self w))
                 (Organiser._supports_temperature (Organiser.self w))
               = Organiser.Raises exc)
    (Hother : Organiser._supports_temperature (Organiser.self w)
              && Py.contains "temperature" (Py.lower (exc_str exc))
              && Py.contains "unsupported" (Py.lower (exc_str exc)) = false)
    (Hmodel : Py.contains "model" (Py.lower (exc_str exc)) = true)
    (Hmissing : Py.contains "not found" (Py.lower (exc_str exc))
                || Py.contains "does not exist" (Py.lower (exc_str exc)) = true) :
  (forall max_attempts rest last_error,
     Organiser.retry_loop MAX_FOLDER_DEPTH client max_attempts (1 :: rest) last_error w
     = Organiser.retry_loop MAX_FOLDER_DEPTH client max_attempts rest last_error
         (after_fallback w))
  /\ (forall max_attempts attempt rest last_error, attempt ≠ 1 ->
        Organiser.retry_loop MAX_FOLDER_DEPTH client max_attempts (attempt :: rest)
          last_error w
        = Organiser.retry_loop MAX_FOLDER_DEPTH client max_attempts rest last_error
            (Organiser.emit (Organiser.Backoff attempt)
               (Organiser.count_call
                  (Organiser.emit
                     (Organiser.Call (Organiser._model (Organiser.self w))
                        (Organiser._supports_temperature (Organiser.self w))) w)))).
Proof.
  split.
  - intros. cbn [Organiser.retry_loop]. unfold Organiser._single_attempt.
    rewrite Hraised.
    rewrite process_exception_fallback by assumption.
    f_equal. unfold after_fallback, Organiser.emit, Organiser.set_self,
      Organiser.count_call. cbn. now rewrite <- app_assoc.
  - intros max_attempts attempt rest last_error Hlater.
    cbn [Organiser.retry_loop]. unfold Organiser._single_attempt. rewrite Hraised.
    unfold Organiser._process_exception. cbn [Organiser.self Organiser.count_call
      Organiser.emit]. rewrite Hother.
    destruct (Nat.eqb_spec attempt 1) as [|_]; [contradiction|]. reflexivity.
Qed.

Lemma model_fallback_first_attempt_witness :
  let missing :=
    Exc (ProviderError "NotFoundError")
        "The model `gpt-5` does not exist or you do not have access to it." in
  let script : Organiser.Client := fun n model _ =>
    if String.eqb model "gpt-5" then Organiser.Raises missing
    else Organiser.Returns
           {| Organiser.choices :=
                [Some (Parsed (PList [PDict [("index", PInt 0);
                                             ("location_after", PStr "FolderA")]]))] |} in
  let w0 :=
    Organiser.mkWorld
      (fun _ => BookmarkRecord.mk "Before A" "https://a.example" "Root/A"
                  (BookmarkMetadata.mk "" "" []) "" "")
      1 ∅ (Organiser.init "gpt-5" 25 None None) 0 [] in
  let result :=
    @Organiser._invoke_with_retry Sample.runtime Config.MAX_FOLDER_DEPTH script 3 w0 in
  fst result = inr [LLMReorgEntryModel.mk 0 "" "FolderA" []]
  /\ Organiser._model (Organiser.self (snd result)) = "gpt-4.1-mini"
  /\ Organiser.trace (snd result)
     = [Organiser.Call "gpt-5" true; Organiser.Backoff 1;
        Organiser.Call "gpt-4.1-mini" true].
Proof.
  intros missing script w0 result. unfold result, Organiser._invoke_with_retry.
  cbn [seq].
  destruct (@model_fallback_first_attempt Sample.runtime Config.MAX_FOLDER_DEPTH
              script w0 missing) as (Hfirst & _); try reflexivity.
  - discriminate.
  - rewrite Hfirst. repeat split.
Defined.

(** ** Normalised locations *)

Section Locations.

Lemma has_char_lstrip (c : ascii) (s : string) :
  has_char c s = false -> has_char c (Py.lstrip s) = false.
Proof.
  induction s as [|a s IH]; [reflexivity|]. cbn [has_char Py.lstrip].
  intros [Ha Hs]%orb_false_elim.
  destruct (Py.isspace a); [now apply IH|]. cbn [has_char]. now rewrite Ha, Hs.
Qed.

Lemma has_char_rstrip (c : ascii) (s : string) :
  has_char c s = false -> has_char c (Py.rstrip s) = false.
Proof.
  induction s as [|a s IH]; [reflexivity|]. cbn [has_char Py.rstrip].
  intros [Ha Hs]%orb_false_elim. specialize (IH Hs).
  destruct (Py.rstrip s) as [|b r].
  - destruct (Py.isspace a); [reflexivity|]. cbn [has_char]. now rewrite Ha.
  - cbn [has_char] in *. now rewrite Ha, IH.
Qed.

Lemma has_char_strip (c : ascii) (s : string) :
  has_char c s = false -> has_char c (Py.strip s) = false.
Proof. intros H. now apply has_char_rstrip, has_char_lstrip. Qed.

(** No part of a split holds the separator. *)
Lemma split_parts_free (sep : ascii) (s : string) :
  Forall (fun p => has_char sep p = false) (Py.split sep s).
Proof.
  induction s as [|a s IH]; cbn [Py.split]; [now repeat constructor|].
  destruct (Ascii.eqb a sep) eqn:Ha; [now constructor|].
  destruct (Py.split sep s) as [|h t]; [now repeat constructor; cbn; rewrite Ha|].
  apply Forall_cons in IH as [Hh Ht]. constructor; [|exact Ht].
  cbn [has_char]. now rewrite Ha, Hh.
Qed.

Lemma split_free (sep : ascii) (p : string) :
  has_char sep p = false -> Py.split sep p = [p].
Proof.
  induction p as [|a p IH]; [reflexivity|]. cbn [has_char Py.split].
  intros [Ha Hp]%orb_false_elim. now rewrite Ha, (IH Hp).
Qed.

Lemma split_app_sep (sep : ascii) (p rest : string) :
  has_char sep p = false ->
  Py.split sep (p ++ String sep rest) = p :: Py.split sep rest.
Proof.
  induction p as [|a p IH].
  - intros _. change ("" ++ String sep rest) with (String sep rest).
    cbn [Py.split]. now rewrite Ascii.eqb_refl.
  - cbn [has_char]. intros [Ha Hp]%orb_false_elim.
    change (String a p ++ String sep rest) with (String a (p ++ String sep rest)).
    cbn [Py.split]. now rewrite Ha, (IH Hp).
Qed.

Lemma split_join (parts : list string) :
  parts ≠ [] -> Forall (fun p => has_char "/" p = false) parts ->
  Py.split "/" (Py.join "/" parts) = parts.
Proof.
  induction parts as [|p [|q ps] IH]; [congruence| |]; intros _ Hall.
  - apply Forall_cons in Hall as [Hp _]. now apply split_free.
  - apply Forall_cons in Hall as [Hp Hall].
    change (Py.join "/" (p :: q :: ps)) with (p ++ String "/" (Py.join "/" (q :: ps))).
    rewrite split_app_sep by exact Hp. f_equal. now apply IH.
Qed.

Lemma path_parts_names (s : string) : Forall folder_name (Py.path_parts s).
Proof.
  unfold Py.path_parts. apply Forall_forall. intros p Hp.
  apply list_elem_of_In, in_map_iff in Hp as (q & <- & Hq).
  apply list_elem_of_In, list_elem_of_filter in Hq as [Hq Hin].
  split; [|split].
  - intros Heq. rewrite Heq in Hq. exact Hq.
  - apply strip_idem.
  - apply has_char_strip.
    pose proof (split_parts_free "/" s) as Hfree. rewrite Forall_forall in Hfree.
    now apply Hfree.
Qed.

(** Joining folder names and splitting the result gives the names back. *)
Lemma path_parts_join (parts : list string) :
  Forall folder_name parts -> Py.path_parts (Py.join "/" parts) = parts.
Proof.
  intros Hall. destruct parts as [|p ps]; [reflexivity|].
  unfold Py.path_parts. rewrite split_join.
  - apply keep_clean_tags. eapply Forall_impl; [exact Hall|].
    intros q (Hq & Hs & _). auto.
  - discriminate.
  - eapply Forall_impl; [exact Hall|]. now intros q (_ & _ & Hq).
Qed.

Lemma rstrip_app (a b : string) :
  Py.rstrip b ≠ "" -> Py.rstrip (a ++ b) = a ++ Py.rstrip b.
Proof.
  intros Hb. induction a as [|c a IH]; [reflexivity|].
  change (String c a ++ b) with (String c (a ++ b)).
  change (String c a ++ Py.rstrip b) with (String c (a ++ Py.rstrip b)).
  cbn [Py.rstrip]. rewrite IH.
  destruct (a ++ Py.rstrip b) eqn:Happ; [|reflexivity].
  destruct a; [contradiction|discriminate].
Qed.

Lemma strip_fixed (p : string) : Py.strip p = p -> Py.lstrip p = p /\ Py.rstrip p = p.
Proof.
  intros Hp.
  assert (Hl : Py.lstrip p = p).
  { apply lstrip_of_clean. rewrite <- Hp. apply rstrip_clean, lstrip_clean. }
  split; [exact Hl|]. unfold Py.strip in Hp. now rewrite Hl in Hp.
Qed.

Lemma rstrip_join (parts : list string) :
  Forall folder_name parts -> Py.rstrip (Py.join "/" parts) = Py.join "/" parts.
Proof.
  induction parts as [|p [|q ps] IH]; [reflexivity| |]; intros Hall.
  - apply Forall_cons in Hall as [(_ & Hp & _) _]. now apply strip_fixed.
  - apply Forall_cons in Hall as [_ Hall]. specialize (IH Hall).
    change (Py.join "/" (p :: q :: ps)) with (p ++ String "/" (Py.join "/" (q :: ps))).
    assert (Hne : Py.rstrip (String "/" (Py.join "/" (q :: ps))) ≠ "").
    { cbn [Py.rstrip]. rewrite IH. destruct (Py.join "/" (q :: ps)); discriminate. }
    rewrite rstrip_app by exact Hne. f_equal.
    cbn [Py.rstrip]. rewrite IH. now destruct (Py.join "/" (q :: ps)).
Qed.

Lemma strip_join (parts : list string) :
  Forall folder_name parts -> Py.strip (Py.join "/" parts) = Py.join "/" parts.
Proof.
  intros Hall. unfold Py.strip. rewrite lstrip_of_clean; [now apply rstrip_join|].
  destruct parts as [|p ps]; [exact I|].
  apply Forall_cons in Hall as [(Hne & Hp & _) _].
  apply strip_fixed in Hp as [Hl _].
  assert (Hc : clean_front p) by (rewrite <- Hl; apply lstrip_clean).
  destruct p as [|c p]; [contradiction|].
  destruct ps; exact Hc.
Qed.

End Locations.

Section NormalForm.

Context `{rt : Runtime}.
Import Organiser.

Lemma get_set_ne (k k' : string) (v : pyval) (d : pydict) :
  k ≠ k' -> Dyn.get k' (Dyn.set k v d) = Dyn.get k' d.
Proof.
  intros Hne. induction d as [|[k0 v0] d IH]; cbn [Dyn.set Dyn.get].
  - destruct (String.eqb_spec k' k); [congruence|reflexivity].
  - destruct (String.eqb_spec k k0) as [->|Hk]; cbn [Dyn.get].
    + destruct (String.eqb_spec k' k0); [congruence|reflexivity].
    + now rewrite IH.
Qed.

Lemma set_set (k : string) (v v' : pyval) (d : pydict) :
  Dyn.set k v (Dyn.set k v' d) = Dyn.set k v d.
Proof.
  induction d as [|[k0 v0] d IH]; cbn [Dyn.set].
  - now rewrite String.eqb_refl.
  - destruct (String.eqb k k0) eqn:Hk; cbn [Dyn.set].
    + now rewrite String.eqb_refl.
    + now rewrite Hk, IH.
Qed.

Lemma set_get_id (k : string) (v : pyval) (d : pydict) :
  Dyn.get k d = Some v -> Dyn.set k v d = d.
Proof.
  induction d as [|[k0 v0] d IH]; cbn [Dyn.set Dyn.get]; [discriminate|].
  destruct (String.eqb_spec k k0) as [->|Hk].
  - now intros [= ->].
  - intros H. now rewrite (IH H).
Qed.

Lemma blank_split (sep : ascii) (s : string) :
  Py.blank s = true -> Forall (fun p => Py.blank p = true) (Py.split sep s).
Proof.
  induction s as [|a s IH]; cbn [Py.blank Py.split]; [now repeat constructor|].
  intros [Ha Hs]%andb_prop. specialize (IH Hs).
  destruct (Ascii.eqb a sep); [now constructor|].
  destruct (Py.split sep s) as [|h t]; [repeat constructor; cbn; now rewrite Ha|].
  apply Forall_cons in IH as [Hh Ht]. constructor; [|exact Ht].
  cbn [Py.blank]. now rewrite Ha, Hh.
Qed.

Lemma path_parts_blank (s : string) : Py.blank s = true -> Py.path_parts s = [].
Proof.
  intros Hb. unfold Py.path_parts.
  pose proof (blank_split "/" s Hb) as Hall.
  induction Hall as [|p ps Hp _ IH]; [reflexivity|].
  rewrite filter_cons_False; [exact IH|].
  simpl. rewrite truthy_strip, Hp. exact id.
Qed.

(** What [_validate_item] validated when it returns an entry. *)
Lemma validate_item_run (D : nat) (obj : pydict) (entry : LLMReorgEntryModel.t) :
  _validate_item D obj = Some entry ->
  exists v ix,
    Dyn.get "location_after" obj = Some v /\ Dyn.get "index" obj = Some ix
    /\ LLMReorgEntryModel.model_validate
         (if Py.truthy (Py.strip (Dyn.str v))
          then Dyn.set "location_after"
                 (PStr (Py.join "/" (clamped_parts D (Py.strip (Dyn.str v))))) obj
          else obj)
       = inr entry.
Proof.
  unfold _validate_item, Dyn.mem, Dyn.get_default.
  destruct (Dyn.get "index" obj) as [ix|]; [|discriminate].
  destruct (Dyn.get "location_after" obj) as [v|]; [|discriminate].
  cbn [negb orb]. fold (clamped_parts D (Py.strip (Dyn.str v))).
  intros H. exists v, ix. split; [reflexivity|]. split; [reflexivity|].
  destruct (Py.truthy (Py.strip (Dyn.str v)));
    destruct (LLMReorgEntryModel.model_validate _) as [e|item]; congruence.
Qed.

Lemma validate_item_again (D : nat) (obj : pydict) (la : string)
    (entry : LLMReorgEntryModel.t) (ix : pyval) :
  Dyn.get "index" obj = Some ix ->
  Py.strip la = la -> la = Py.join "/" (Py.path_parts la) ->
  length (Py.path_parts la) <= D ->
  LLMReorgEntryModel.model_validate (Dyn.set "location_after" (PStr la) obj) = inr entry ->
  _validate_item D (Dyn.set "location_after" (PStr la) obj) = Some entry.
Proof.
  intros Hix Hstrip Hjoin Hlen Hval. unfold _validate_item, Dyn.mem, Dyn.get_default.
  rewrite get_set_ne by discriminate. rewrite Hix, get_set_eq.
  cbn [negb orb Dyn.str]. rewrite Hstrip.
  destruct (Py.truthy la) eqn:Ht; [|now rewrite Hval].
  destruct (Nat.ltb_spec D (length (Py.path_parts la))); [lia|].
  now rewrite set_set, <- Hjoin, Hval.
Qed.

End NormalForm.

Section NormalFormTheorems.

Context `{rt : Runtime}.
Import Organiser.

Lemma model_validate_valid (d : pydict) (entry : LLMReorgEntryModel.t) :
  LLMReorgEntryModel.model_validate d = inr entry ->
  LLMReorgEntryModel.validate d = Valid entry.
Proof.
  unfold LLMReorgEntryModel.model_validate, Pydantic.raise_or.
  destruct (LLMReorgEntryModel.validate d); congruence.
Qed.

Lemma normal_form_facts (D : nat) (obj : pydict) (entry : LLMReorgEntryModel.t) :
  _validate_item D obj = Some entry ->
  let parts := Py.path_parts (LLMReorgEntryModel.location_after entry) in
  length parts <= D /\ Forall folder_name parts
  /\ (Py.blank (LLMReorgEntryModel.location_after entry) = false ->
      LLMReorgEntryModel.location_after entry = Py.join "/" parts)
  /\ _validate_item D
       (Dyn.set "location_after" (PStr (LLMReorgEntryModel.location_after entry)) obj)
     = Some entry.
Proof.
  intros Hsome. pose proof Hsome as (v & ix & Hv & Hix & Hval)%validate_item_run.
  cbv zeta. destruct (Py.truthy (Py.strip (Dyn.str v))) eqn:Ht.
  - pose proof (validate_location _ _ (model_validate_valid _ _ Hval)) as Hla.
    rewrite get_set_eq in Hla. injection Hla as Hla.
    rewrite clamped_parts_take in Hla, Hval.
    set (parts := take D (Py.path_parts (Py.strip (Dyn.str v)))) in *.
    assert (Hnames : Forall folder_name parts) by apply Forall_take, path_parts_names.
    rewrite <- Hla. rewrite (path_parts_join parts Hnames).
    split; [unfold parts; rewrite length_take; lia|]. split; [exact Hnames|].
    split; [reflexivity|].
    apply (validate_item_again D obj (Py.join "/" parts) entry ix Hix).
    + now apply strip_join.
    + now rewrite (path_parts_join parts Hnames).
    + rewrite (path_parts_join parts Hnames). unfold parts. rewrite length_take. lia.
    + exact Hval.
  - pose proof (validate_location _ _ (model_validate_valid _ _ Hval)) as Hla.
    rewrite Hv in Hla. injection Hla as ->. cbn [Dyn.str] in Ht.
    rewrite truthy_strip in Ht. apply negb_false_iff in Ht.
    rewrite (path_parts_blank _ Ht).
    split; [cbn; lia|]. split; [constructor|]. split; [congruence|].
    now rewrite (set_get_id _ _ _ Hv).
Qed.

End NormalFormTheorems.

(** X6: an item without an [index] key is dropped; and the location of an
    entry that [_validate_item] returns is in normal form: it splits into at
    most [D] parts, each a non-empty trimmed name without "/", it is the join
    of these parts unless it is blank, and validating the item again with
    this location in place of its own returns the same entry. *)
Theorem validate_item_normal_form `{rt : Runtime} (D : nat) (obj : pydict) :
  (Dyn.get "index" obj = None -> Organiser._validate_item D obj = None)
  /\ match Organiser._validate_item D obj with
     | Some entry =>
         let parts := Py.path_parts (LLMReorgEntryModel.location_after entry) in
         length parts <= D /\ Forall folder_name parts
         /\ (Py.blank (LLMReorgEntryModel.location_after entry) = false ->
             LLMReorgEntryModel.location_after entry = Py.join "/" parts)
         /\ Organiser._validate_item D
              (Dyn.set "location_after"
                 (PStr (LLMReorgEntryModel.location_after entry)) obj)
            = Some entry
     | None => True
     end.
Proof.
  split.
  - intros Hnone. unfold Organiser._validate_item, Dyn.mem. now rewrite Hnone.
  - destruct (Organiser._validate_item D obj) as [entry|] eqn:Hsome; [|exact I].
    now apply normal_form_facts.
Qed.

(** X7: where [build_tree] files a record that the merge loop updated from a
    validated entry: under the parts of the entry's location, all of them
    (the tree builder never has to cut a validated location), when it has
    any; where the record was filed by its [location_before] when the
    entry's location is empty; and under "Unsorted", whatever the
    [location_before], when the entry's location is not empty but blank. *)
Theorem merged_record_folder `{rt : Runtime} (D : nat) (obj : pydict)
    (record : BookmarkRecord.t) :
  match Organiser._validate_item D obj with
  | Some entry =>
      let merged := Organiser.apply_entry entry record in
      let parts := Py.path_parts (LLMReorgEntryModel.location_after entry) in
      (parts ≠ [] -> HtmlWriter.folder_path D merged = parts)
      /\ (LLMReorgEntryModel.location_after entry = "" ->
          HtmlWriter.folder_path D merged
          = HtmlWriter.folder_path D (BookmarkRecord.with_location_after "" record))
      /\ (LLMReorgEntryModel.location_after entry ≠ "" -> parts = [] ->
          HtmlWriter.folder_path D merged = take D ["Unsorted"])
  | None => True
  end.
Proof.
  destruct (Organiser._validate_item D obj) as [entry|] eqn:Hsome; [|exact I].
  pose proof (normal_form_facts D obj entry Hsome) as (Hlen & _).
  cbv zeta in *. destruct entry as [ix ta la tags].
  cbn [LLMReorgEntryModel.location_after] in *.
  destruct record as [tb u lb md ta0 la0].
  unfold HtmlWriter.folder_path, HtmlWriter.effective_parts, Organiser.apply_entry,
    BookmarkRecord.with_location_after, BookmarkRecord.with_title_after,
    BookmarkRecord.with_metadata.
  cbn [BookmarkRecord.location_after BookmarkRecord.location_before
       BookmarkRecord.title_before BookmarkRecord.metadata
       LLMReorgEntryModel.location_after LLMReorgEntryModel.title_after
       LLMReorgEntryModel.tags].
  split; [|split].
  - intros Hne. destruct la as [|c la]; [now contradiction Hne|].
    cbn [Py.or_else Py.truthy].
    destruct (Py.path_parts (String c la)) as [|p ps] eqn:Hp; [contradiction|].
    destruct (Nat.ltb_spec D (length (p :: ps))); [lia|reflexivity].
  - intros ->. cbn [Py.or_else Py.truthy]. now destruct lb.
  - intros Hne Hnil. destruct la as [|c la]; [contradiction|].
    cbn [Py.or_else Py.truthy]. rewrite Hnil.
    destruct (Nat.ltb_spec D (length ["Unsorted"])); [reflexivity|].
    now rewrite take_ge.
Qed.

(** ** Tags *)

Section Tags.

Context `{rt : Runtime}.
Import Organiser.

Lemma clean_tags_trimmed (value : pyval) (tags : list string) :
  LLMReorgEntryModel._clean_tags value = Valid tags ->
  Forall (fun tag => Py.strip tag = tag) tags.
Proof.
  unfold LLMReorgEntryModel._clean_tags.
  destruct (Dyn.truthy value); [|intros [= <-]; constructor].
  destruct (Dyn.iterate value) as [l|]; [|discriminate].
  intros [= <-]. apply Forall_forall. intros tag Hin.
  apply list_elem_of_In, in_map_iff in Hin as (x & <- & _). apply strip_idem.
Qed.

Lemma validate_tags_trimmed (d : pydict) (item : LLMReorgEntryModel.t) :
  LLMReorgEntryModel.validate d = Valid item ->
  Forall (fun tag => Py.strip tag = tag) (LLMReorgEntryModel.tags item).
Proof.
  unfold LLMReorgEntryModel.validate.
  intros (g3 & tags & H3 & Htags & ->)%ap_valid.
  apply ap_valid in H3 as (g2 & la & H2 & _ & ->).
  apply ap_valid in H2 as (g1 & ta & H1 & _ & ->).
  apply ap_valid in H1 as (g0 & ix & [= <-] & _ & ->).
  cbn [LLMReorgEntryModel.tags]. unfold Pydantic.optional in Htags.
  destruct (Dyn.get "tags" d) as [value|].
  - now apply clean_tags_trimmed with (value := value).
  - injection Htags as <-. constructor.
Qed.

Lemma apply_entry_tags (entry : LLMReorgEntryModel.t) (r : BookmarkRecord.t) :
  Forall (fun tag => tag ≠ "" /\ Py.strip tag = tag)
    (BookmarkMetadata.tags (BookmarkRecord.metadata (apply_entry entry r))).
Proof.
  unfold apply_entry. cbn. apply Forall_forall. intros tag Hin.
  apply list_elem_of_In, in_map_iff in Hin as (x & <- & Hx).
  apply list_elem_of_In, list_elem_of_filter in Hx as [Hx _].
  split; [|apply strip_idem]. intros Heq. rewrite Heq in Hx. exact Hx.
Qed.

End Tags.

(** X8: the tags of an entry that [_validate_item] returns are trimmed; the
    tags a record has after the merge loop applied an entry to it are trimmed
    and none is empty, whatever the entry; so such a record is written to the
    JSON snapshot and read back with its tags as they are. *)
Theorem merged_tags_clean `{rt : Runtime} (D : nat) (obj : pydict) :
  match Organiser._validate_item D obj with
  | Some entry => Forall (fun tag => Py.strip tag = tag) (LLMReorgEntryModel.tags entry)
  | None => True
  end
  /\ (forall entry r,
        Forall (fun tag => tag ≠ "" /\ Py.strip tag = tag)
          (BookmarkMetadata.tags (BookmarkRecord.metadata (Organiser.apply_entry entry r))))
  /\ (forall entry r,
        from_model (to_model (Organiser.apply_entry entry r))
        = Organiser.apply_entry entry r).
Proof.
  split; [|split].
  - destruct (Organiser._validate_item D obj) as [entry|] eqn:Hsome; [|exact I].
    apply validate_item_run in Hsome as (v & ix & _ & _ & Hval).
    eapply validate_tags_trimmed, model_validate_valid, Hval.
  - apply apply_entry_tags.
  - intros entry r. rewrite from_to_model. apply trimmed_clean.
    eapply Forall_impl; [apply apply_entry_tags|]. now intros tag [_ Ht].
Qed.

(** ** The validator as a whole *)

Section ValidatorWhole.

Import Validator.

Lemma occurrences_count_occ (u : string) (l : list string) :
  count_occ string_dec l u = occurrences u l.
Proof.
  induction l as [|x l IH]; simpl; [reflexivity|].
  destruct (string_dec x u) as [->|Hne].
  - now rewrite String.eqb_refl, IH.
  - destruct (String.eqb_spec x u); [congruence|]. now rewrite IH.
Qed.

Lemma Counter_perm (l k : list string) : Counter l = Counter k <-> l ≡ₚ k.
Proof.
  split.
  - intros Heq. apply Permutation_count_occ with (eq_dec := string_dec). intros u.
    rewrite !occurrences_count_occ. now apply Counter_eq.
  - intros Hp. unfold Counter. now rewrite Hp.
Qed.

Lemma url_check_ok (original reorganised : list BookmarkRecord.t) :
  _assert_url_multiset original reorganised = inr tt
  <-> map BookmarkRecord.url original ≡ₚ map BookmarkRecord.url reorganised.
Proof.
  unfold _assert_url_multiset. rewrite <- Counter_perm.
  case_bool_decide as Hd.
  - split; [discriminate|]. intros Heq. now contradiction Hd.
  - split; [intros _; exact Hd|reflexivity].
Qed.

Lemma url_check_fails (original reorganised : list BookmarkRecord.t) :
  ~ map BookmarkRecord.url original ≡ₚ map BookmarkRecord.url reorganised ->
  exists missing extra,
    _assert_url_multiset original reorganised = inl (UrlMultisetMismatch missing extra).
Proof.
  intros Hn. unfold _assert_url_multiset.
  case_bool_decide as Hd; [eauto|]. exfalso. now apply Hn, Counter_perm.
Qed.

Lemma count_check (original reorganised : list BookmarkRecord.t) :
  _assert_counts original reorganised
  = if (length original =? length reorganised)%nat then inr tt
    else inl (CountMismatch (length original) (length reorganised)).
Proof.
  unfold _assert_counts, check. now destruct (_ =? _)%nat.
Qed.

End ValidatorWhole.

(** X9: without a snapshot, [validate_reorganisation] passes exactly when
    the URLs of the output are a permutation of the URLs of the original and
    no output record has both locations blank (equal counts follow from the
    permutation). Of several violations the first check's is reported: the
    count mismatch before the URL mismatch, and the URL mismatch before the
    empty locations, with or without a snapshot. *)
Theorem validate_reorganisation_verdict (original reorganised : list BookmarkRecord.t)
    (json : option Content) :
  let urls := map BookmarkRecord.url in
  (Validator.validate_reorganisation original reorganised None = inr tt
   <-> urls original ≡ₚ urls reorganised
       /\ Forall (fun r => Validator.unplaced r = false) reorganised)
  /\ (length original ≠ length reorganised ->
      Validator.validate_reorganisation original reorganised json
      = inl (Validator.CountMismatch (length original) (length reorganised)))
  /\ (length original = length reorganised -> ~ urls original ≡ₚ urls reorganised ->
      exists missing extra,
        Validator.validate_reorganisation original reorganised json
        = inl (Validator.UrlMultisetMismatch missing extra))
  /\ (urls original ≡ₚ urls reorganised ->
      Exists (fun r => Validator.unplaced r = true) reorganised ->
      Validator.validate_reorganisation original reorganised json
      = inl (Validator.EmptyLocation
               (length (filter (fun r => Validator.unplaced r) reorganised)))).
Proof.
  intros urls. unfold Validator.validate_reorganisation. rewrite !count_check.
  split; [|split; [|split]].
  - split.
    + destruct (Nat.eqb_spec (length original) (length reorganised)); [|discriminate].
      cbn [Validator.and_then].
      destruct (Validator._assert_url_multiset original reorganised) as [f|[]] eqn:Hu;
        [discriminate|].
      cbn [Validator.and_then].
      destruct (Validator._assert_locations reorganised) as [f|[]] eqn:Hl;
        [discriminate|].
      intros _. split; [now apply url_check_ok|now apply assert_locations_ok].
    + intros [Hp Hl]. pose proof (Permutation_length Hp) as Hlen.
      unfold urls in Hlen. rewrite !length_map in Hlen.
      rewrite Hlen, Nat.eqb_refl. cbn [Validator.and_then].
      apply url_check_ok in Hp. apply assert_locations_ok in Hl.
      fold urls in Hp. unfold urls in Hp. now rewrite Hp, Hl.
  - intros Hne. destruct (Nat.eqb_spec (length original) (length reorganised));
      [contradiction|reflexivity].
  - intros Heq Hn. rewrite Heq, Nat.eqb_refl. cbn [Validator.and_then].
    destruct (url_check_fails original reorganised Hn) as (missing & extra & ->).
    eauto.
  - intros Hp Hex. pose proof (Permutation_length Hp) as Hlen.
    unfold urls in Hlen. rewrite !length_map in Hlen.
    rewrite Hlen, Nat.eqb_refl. cbn [Validator.and_then].
    apply url_check_ok in Hp. unfold urls in Hp. rewrite Hp. cbn [Validator.and_then].
    destruct (Validator._assert_locations reorganised) as [f|[]] eqn:Hl.
    + cbn [Validator.and_then]. now rewrite (assert_locations_failure _ _ Hl).
    + exfalso. apply assert_locations_ok in Hl. rewrite Forall_forall in Hl.
      apply Exists_exists in Hex as (r & Hin & Hr). rewrite (Hl r Hin) in Hr.
      discriminate.
Qed.

(** X10: with a snapshot, [validate_reorganisation] never passes: a failure
    of the first three checks is reported as without the snapshot, and when
    they pass the snapshot check fails, as an invalid snapshot when the text
    is not a list of valid entries, and otherwise on [list_model.__root__],
    an attribute the root model does not have. *)
Theorem validate_reorganisation_with_snapshot (original reorganised : list BookmarkRecord.t)
    (raw_text : Content) :
  (exists f,
     Validator.validate_reorganisation original reorganised (Some raw_text) = inl f)
  /\ (forall f,
        Validator.validate_reorganisation original reorganised None = inl f ->
        Validator.validate_reorganisation original reorganised (Some raw_text) = inl f)
  /\ (Validator.validate_reorganisation original reorganised None = inr tt ->
      Validator.validate_reorganisation original reorganised (Some raw_text)
      = inl (match Validator.model_validate_json raw_text with
             | inl _ => Validator.InvalidSnapshot
             | inr _ => Validator.NoAttribute "__root__"
             end)).
Proof.
  unfold Validator.validate_reorganisation, Validator._assert_json_consistency,
    Validator.dunder_root.
  destruct (Validator._assert_counts original reorganised) as [f|[]];
    [cbn; split; [eauto|split; [auto|discriminate]]|].
  destruct (Validator._assert_url_multiset original reorganised) as [f|[]];
    [cbn; split; [eauto|split; [auto|discriminate]]|].
  destruct (Validator._assert_locations reorganised) as [f|[]];
    [cbn; split; [eauto|split; [auto|discriminate]]|].
  cbn [Validator.and_then].
  destruct (Validator.model_validate_json raw_text);
    (split; [eauto|split; [discriminate|reflexivity]]).
Qed.

(** ** Loading and saving snapshots *)

Section Loading.

Import Organiser.

Lemma create_all_next (values : list BookmarkRecord.t) (w : World) :
  next_loc (snd (create_all values w)) = next_loc w + length values
  /\ files (snd (create_all values w)) = files w
  /\ self (snd (create_all values w)) = self w.
Proof.
  revert w. induction values as [|v values IH]; intros w.
  - cbn. repeat split. lia.
  - cbn [create_all].
    match goal with |- context [create_all values ?w1] =>
      destruct (IH w1) as (Hn & Hf & Hs); destruct (create_all values w1) as [rs w2] end.
    cbn [snd next_loc files self length] in *. repeat split; [lia|exact Hf|exact Hs].
Qed.

Lemma strip_each_trimmed (l : list pyval) (tags : list string) :
  BookmarkMetadataModel.strip_each l = Valid tags ->
  Forall (fun tag => Py.strip tag = tag) tags.
Proof.
  revert tags. induction l as [|x l IH]; intros tags; cbn [BookmarkMetadataModel.strip_each].
  - intros [= <-]. constructor.
  - destruct x; try discriminate.
    destruct (BookmarkMetadataModel.strip_each l) as [r| |]; try discriminate.
    intros [= <-]. constructor; [apply strip_idem|now apply IH].
Qed.

Lemma validate_metadata_trimmed (v : pyval) (m : BookmarkMetadataModel.t) :
  BookmarkMetadataModel.validate v = Valid m ->
  Forall (fun tag => Py.strip tag = tag) (BookmarkMetadataModel.tags m).
Proof.
  destruct v; try discriminate. unfold BookmarkMetadataModel.validate.
  intros (g2 & tags & H2 & Htags & ->)%ap_valid.
  apply ap_valid in H2 as (g1 & de & H1 & _ & ->).
  apply ap_valid in H1 as (g0 & ti & [= <-] & _ & ->).
  cbn [BookmarkMetadataModel.tags]. unfold Pydantic.optional in Htags.
  destruct (Dyn.get "tags" entries) as [value|]; [|injection Htags as <-; constructor].
  unfold BookmarkMetadataModel._normalise_tags in Htags.
  destruct (Dyn.truthy value); [|injection Htags as <-; constructor].
  destruct (Dyn.iterate value); [|discriminate]. now apply strip_each_trimmed in Htags.
Qed.

Lemma validate_entry_trimmed (v : pyval) (m : BookmarkEntryModel.t) :
  BookmarkEntryModel.model_validate v = inr m ->
  Forall (fun tag => Py.strip tag = tag)
    (BookmarkMetadataModel.tags (BookmarkEntryModel.link_metadata m)).
Proof.
  unfold BookmarkEntryModel.model_validate, Pydantic.raise_or.
  destruct (BookmarkEntryModel.validate v) as [m'| |] eqn:Hv; try discriminate.
  intros [= ->]. destruct v; try discriminate. unfold BookmarkEntryModel.validate in Hv.
  apply ap_valid in Hv as (g5 & md & H5 & Hmd & ->).
  apply ap_valid in H5 as (g4 & la & H4 & _ & ->).
  apply ap_valid in H4 as (g3 & lb & H3 & _ & ->).
  apply ap_valid in H3 as (g2 & u & H2 & _ & ->).
  apply ap_valid in H2 as (g1 & ta & H1 & _ & ->).
  apply ap_valid in H1 as (g0 & tb & [= <-] & _ & ->).
  cbn [BookmarkEntryModel.link_metadata]. unfold Pydantic.required in Hmd.
  destruct (Dyn.get "link_metadata" entries) as [value|]; [|discriminate].
  now apply validate_metadata_trimmed in Hmd.
Qed.

Lemma validate_each_spec (raw : list pyval) (models : list BookmarkEntryModel.t) :
  validate_each raw = inr models ->
  length models = length raw
  /\ Forall (fun m => Forall (fun tag => Py.strip tag = tag)
                        (BookmarkMetadataModel.tags (BookmarkEntryModel.link_metadata m)))
            models.
Proof.
  revert models. induction raw as [|item raw IH]; intros models; cbn [validate_each].
  - intros [= <-]. split; [reflexivity|constructor].
  - destruct (BookmarkEntryModel.model_validate item) as [e|m] eqn:Hm; [discriminate|].
    destruct (validate_each raw) as [e|ms]; [discriminate|].
    intros [= <-]. destruct (IH ms eq_refl) as [Hlen Hall].
    split; [cbn; now rewrite Hlen|]. constructor; [|exact Hall].
    now apply validate_entry_trimmed in Hm.
Qed.

Lemma lookup_map {A B : Type} (f : A -> B) (l : list A) (i : nat) :
  map f l !! i = f <$> l !! i.
Proof.
  revert i. induction l as [|x l IH]; intros [|i]; cbn; auto.
Qed.

Lemma to_model_trimmed (r : BookmarkRecord.t) : to_model (trimmed r) = to_model r.
Proof.
  destruct r as [tb u lb [t d tags] ta la]. unfold to_model, trimmed,
    BookmarkMetadataModel.init. cbn. now rewrite strip_map_idem.
Qed.

End Loading.

(** X11: [load_json] is all or nothing. When it raises (no file, text that
    is not JSON, a root that cannot be iterated, an item that is not a valid
    entry) the world is as before and no record was created; when it returns
    it has created one new record for each item of the file, as consecutive
    new objects in the order of the file (the i-th new record is the i-th
    item, read through the entry model), each with trimmed tags, and has
    left every older record and the files as they were. *)
Theorem load_json_all_or_nothing (path : string) (w : Organiser.World) :
  let result := Organiser.load_json path w in
  match fst result with
  | inl e =>
      snd result = w
      /\ (Organiser.files w !! path = None -> e = FileNotFoundError)
  | inr loaded =>
      exists raw items,
        Organiser.files w !! path = Some (Parsed raw)
        /\ Dyn.iterate raw = Some items
        /\ loaded = seq (Organiser.next_loc w) (length items)
        /\ Organiser.next_loc (snd result) = Organiser.next_loc w + length items
        /\ Organiser.files (snd result) = Organiser.files w
        /\ (forall l, l < Organiser.next_loc w ->
              Organiser.heap (snd result) l = Organiser.heap w l)
        /\ Forall (fun l => Forall (fun tag => Py.strip tag = tag)
                     (BookmarkMetadata.tags
                        (BookmarkRecord.metadata (Organiser.heap (snd result) l))))
                  loaded
        /\ exists models,
             Organiser.validate_each items = inr models
             /\ map (Organiser.heap (snd result)) loaded = map from_model models
  end.
Proof.
  intros result. unfold result, Organiser.load_json.
  destruct (Organiser.files w !! path) as [[msg|raw]|] eqn:Hfile; cbn [fst snd].
  - split; [reflexivity|discriminate].
  - destruct (Dyn.iterate raw) as [items|] eqn:Hit; cbn [fst snd];
      [|split; [reflexivity|discriminate]].
    destruct (Organiser.validate_each items) as [e|models] eqn:Hval; cbn [fst snd];
      [split; [reflexivity|discriminate]|].
    pose proof Hval as Hmodels.
    apply validate_each_spec in Hval as [Hlen Htrim].
    pose proof (create_all_spec (map from_model models) w) as (Hrefs & Hvals & Hold).
    pose proof (create_all_next (map from_model models) w) as (Hnext & Hfiles & _).
    destruct (Organiser.create_all (map from_model models) w) as [loaded w'].
    cbn [fst snd] in *. rewrite length_map, Hlen in *.
    exists raw, items. repeat split; auto.
    + subst loaded. apply Forall_forall. intros l Hl.
      apply list_elem_of_lookup in Hl as [i Hi].
      assert (Hv : map (Organiser.heap w') (seq (Organiser.next_loc w) (length items)) !! i
                   = Some (Organiser.heap w' l)) by (now rewrite lookup_map, Hi).
      rewrite Hvals, lookup_map in Hv.
      destruct (models !! i) as [m|] eqn:Hm; [|discriminate].
      injection Hv as <-. rewrite Forall_forall in Htrim.
      apply (Htrim m). eapply list_elem_of_lookup_2. exact Hm.
    + exists models. split; [exact Hmodels|]. subst loaded. exact Hvals.
  - split; [reflexivity|reflexivity].
Qed.

(** X12: saving a snapshot never changes a record; and a snapshot that was
    written, loaded and written again to the same path from the loaded
    records is the same file: the text the first [write_json] wrote. *)
Theorem resave_keeps_file (records : list loc) (path : string) (w : Organiser.World) :
  Organiser.heap (snd (Organiser.write_json records path w)) = Organiser.heap w
  /\ exists loaded w1,
       round_trip records path w = (inr loaded, w1)
       /\ Organiser.files w1 !! path
          = Some (Parsed (PList (map BookmarkEntryModel.model_dump
                                   (map to_model (map (Organiser.heap w) records)))))
       /\ Organiser.files (snd (Organiser.write_json loaded path w1))
          = Organiser.files w1.
Proof.
  split; [reflexivity|]. rewrite round_trip_eq. cbv zeta.
  match goal with |- context [Organiser.create_all ?vs ?w0] =>
    pose proof (create_all_spec vs w0) as (Hrefs & Hvals & _);
    pose proof (create_all_next vs w0) as (_ & Hfiles & _);
    destruct (Organiser.create_all vs w0) as [loaded w1] end.
  cbn [fst snd Organiser.files Organiser.next_loc] in Hrefs, Hvals, Hfiles.
  exists loaded, w1. split; [reflexivity|].
  assert (Hpayload :
    map (fun record => to_model (Organiser.heap w1 record)) loaded
    = map (fun record => to_model (Organiser.heap w record)) records).
  { rewrite <- (map_map (Organiser.heap w1) to_model). subst loaded. rewrite Hvals.
    rewrite !map_map. apply map_ext. intros r. apply to_model_trimmed. }
  rewrite Hfiles. split.
  - rewrite lookup_insert_eq. now rewrite (map_map (Organiser.heap w) to_model).
  - unfold Organiser.write_json. cbn [snd Organiser.files]. rewrite Hfiles, Hpayload.
    apply insert_insert_eq.
Qed.

(** ** The folder tree as a whole *)

Section TreeWhole.

Import Tree HtmlWriter.

Lemma all_get_or_create (r : loc) (part : string)
    (f : BookmarkTreeNode -> BookmarkTreeNode) (cs : list BookmarkTreeNode) :
  (forall c, all_bookmarks (f c) ≡ₚ r :: all_bookmarks c) ->
  flat_map all_bookmarks (get_or_create_child part f cs)
  ≡ₚ r :: flat_map all_bookmarks cs.
Proof.
  intros Hf. induction cs as [|c cs IH]; cbn [get_or_create_child flat_map].
  - rewrite app_nil_r, Hf. reflexivity.
  - destruct (String.eqb (name c) part); cbn [flat_map].
    + now rewrite Hf.
    + rewrite IH. now rewrite Permutation_middle.
Qed.

Lemma all_place (parts : list string) (r : loc) (n : BookmarkTreeNode) :
  all_bookmarks (place parts r n) ≡ₚ r :: all_bookmarks n.
Proof.
  revert n. induction parts as [|part rest IH]; intros [s cs bs].
  - cbn [place]. unfold add_bookmark. cbn [name children bookmarks all_bookmarks].
    rewrite <- app_assoc. cbn [app]. now rewrite Permutation_middle.
  - cbn [place name children bookmarks all_bookmarks].
    rewrite (all_get_or_create r part (place rest r) cs IH).
    now rewrite Permutation_middle.
Qed.

Lemma find_get_or_create_same (part : string) (f : BookmarkTreeNode -> BookmarkTreeNode)
    (cs : list BookmarkTreeNode) :
  (forall c, name (f c) = name c) ->
  find_child part (get_or_create_child part f cs)
  = Some (f (match find_child part cs with Some c => c | None => init part end)).
Proof.
  intros Hname. induction cs as [|c cs IH]; cbn [get_or_create_child find_child].
  - rewrite Hname. cbn [init name]. now rewrite String.eqb_refl.
  - destruct (String.eqb (name c) part) eqn:Hc; cbn [find_child].
    + now rewrite Hname, Hc.
    + now rewrite Hc, IH.
Qed.

Lemma find_get_or_create_other (part part' : string)
    (f : BookmarkTreeNode -> BookmarkTreeNode) (cs : list BookmarkTreeNode) :
  (forall c, name (f c) = name c) -> part ≠ part' ->
  find_child part (get_or_create_child part' f cs) = find_child part cs.
Proof.
  intros Hname Hne. induction cs as [|c cs IH]; cbn [get_or_create_child find_child].
  - rewrite Hname. cbn [init name].
    destruct (String.eqb_spec part' part); [congruence|reflexivity].
  - destruct (String.eqb_spec (name c) part') as [Hc|Hc]; cbn [find_child].
    + rewrite Hname, Hc.
      destruct (String.eqb_spec part' part); [congruence|reflexivity].
    + now rewrite IH.
Qed.

Lemma descend_init (path : list string) (s : string) :
  descend path (init s) = match path with [] => Some (init s) | _ => None end.
Proof. destruct path; reflexivity. Qed.

(** Filing [r] under [parts] appends it to the content of [parts] and
    changes no other content. *)
Lemma content_place (parts : list string) (r : loc) (n : BookmarkTreeNode)
    (p : list string) :
  content p (place parts r n)
  = (content p n ++ if decide (p = parts) then [r] else [])%list.
Proof.
  revert n p. induction parts as [|part' rest IH]; intros [s cs bs] p.
  - cbn [place]. unfold add_bookmark, content. cbn [name children bookmarks].
    destruct p as [|part ps]; cbn [descend children bookmarks].
    + now rewrite decide_True.
    + rewrite decide_False by discriminate. now rewrite app_nil_r.
  - cbn [place name children bookmarks]. unfold content.
    destruct p as [|part ps]; cbn [descend children bookmarks].
    + rewrite decide_False by discriminate. now rewrite app_nil_r.
    + destruct (decide (part = part')) as [->|Hne].
      * rewrite find_get_or_create_same by (intros; apply name_place).
        specialize (IH (match find_child part' cs with
                        | Some c => c | None => init part' end) ps).
        unfold content in IH. rewrite IH.
        destruct (find_child part' cs) as [c|].
        -- destruct (decide (ps = rest)) as [->|Hps].
           ++ now rewrite decide_True.
           ++ rewrite decide_False by congruence. reflexivity.
        -- rewrite descend_init.
           destruct (decide (ps = rest)) as [->|Hps].
           ++ rewrite decide_True by reflexivity. now destruct rest.
           ++ rewrite decide_False by congruence. now destruct ps.
      * rewrite find_get_or_create_other by (auto; intros; apply name_place).
        rewrite decide_False by congruence. now rewrite app_nil_r.
Qed.

(** Filing under [parts] creates the folders on the way to [parts] and no
    other. *)
Lemma descend_place (parts : list string) (r : loc) (n : BookmarkTreeNode)
    (p : list string) :
  is_Some (descend p (place parts r n))
  <-> is_Some (descend p n) \/ p `prefix_of` parts.
Proof.
  revert n p. induction parts as [|part' rest IH]; intros [s cs bs] p.
  - cbn [place]. unfold add_bookmark. cbn [name children bookmarks].
    destruct p as [|part ps]; cbn [descend children].
    + split; [intros _; left; eauto|eauto].
    + split; [tauto|]. intros [H|[k Hk]]; [exact H|discriminate].
  - cbn [place name children bookmarks].
    destruct p as [|part ps]; cbn [descend children].
    + split; [intros _; left; eauto|eauto].
    + destruct (decide (part = part')) as [->|Hne].
      * rewrite find_get_or_create_same by (intros; apply name_place).
        rewrite IH. destruct (find_child part' cs) as [c|].
        -- split; (intros [H|[k Hk]]; [left; exact H|right]).
           ++ exists k. now rewrite Hk.
           ++ exists k. now injection Hk.
        -- rewrite descend_init. split.
           ++ intros [H|[k Hk]]; right; [|exists k; now rewrite Hk].
              destruct ps; [exists rest; reflexivity|destruct H; discriminate].
           ++ intros [[x H]|[k Hk]]; [discriminate|]. right. exists k. now injection Hk.
      * rewrite find_get_or_create_other by (auto; intros; apply name_place).
        split; [tauto|]. intros [H|[k Hk]]; [exact H|]. injection Hk. congruence.
Qed.

End TreeWhole.

Section TreeInvariants.

Import Tree HtmlWriter.

Lemma unique_names_node (s : string) (cs : list BookmarkTreeNode) (bs : list loc) :
  unique_names (Node s cs bs) <-> NoDup (map name cs) /\ Forall unique_names cs.
Proof.
  cbn [unique_names]. apply and_iff_compat_l.
  induction cs as [|c cs IH]; [split; [constructor|exact (fun _ => I)]|].
  rewrite Forall_cons, IH. reflexivity.
Qed.

Lemma find_child_none (part : string) (cs : list BookmarkTreeNode) :
  find_child part cs = None -> part ∉ map name cs.
Proof.
  induction cs as [|c cs IH]; cbn [find_child map]; [intros _ H; inversion H|].
  destruct (String.eqb_spec (name c) part) as [|Hne]; [discriminate|].
  intros Hn Hin. apply elem_of_cons in Hin as [->|Hin]; [congruence|]. now apply IH.
Qed.

Lemma names_get_or_create (part : string) (f : BookmarkTreeNode -> BookmarkTreeNode)
    (cs : list BookmarkTreeNode) :
  (forall c, name (f c) = name c) ->
  map name (get_or_create_child part f cs)
  = match find_child part cs with
    | Some _ => map name cs
    | None => (map name cs ++ [part])%list
    end.
Proof.
  intros Hname. induction cs as [|c cs IH]; cbn [get_or_create_child find_child map].
  - now rewrite Hname.
  - destruct (String.eqb (name c) part); cbn [map].
    + now rewrite Hname.
    + rewrite IH. now destruct (find_child part cs).
Qed.

Lemma forall_get_or_create (P : BookmarkTreeNode -> Prop) (part : string)
    (f : BookmarkTreeNode -> BookmarkTreeNode) (cs : list BookmarkTreeNode) :
  (forall c, P c -> P (f c)) -> P (init part) -> Forall P cs ->
  Forall P (get_or_create_child part f cs).
Proof.
  intros Hf Hinit. induction 1 as [|c cs Hc Hcs IH]; cbn [get_or_create_child].
  - constructor; [now apply Hf|constructor].
  - destruct (String.eqb (name c) part); constructor; auto.
Qed.

Lemma unique_place (parts : list string) (r : loc) (n : BookmarkTreeNode) :
  unique_names n -> unique_names (place parts r n).
Proof.
  revert n. induction parts as [|part rest IH]; intros [s cs bs] Hn.
  - exact Hn.
  - cbn [place name children bookmarks].
    apply unique_names_node in Hn as [Hnd Hall]. apply unique_names_node. split.
    + rewrite names_get_or_create by (intros; apply name_place).
      destruct (find_child part cs) eqn:Hfind; [exact Hnd|].
      apply NoDup_app. split; [exact Hnd|]. split; [|apply NoDup_singleton].
      intros x Hx Hx'. apply list_elem_of_singleton in Hx'. subst x.
      now apply (find_child_none part cs Hfind).
    + apply forall_get_or_create; [exact IH| |exact Hall].
      apply unique_names_node. split; constructor.
Qed.

Lemma build_tree_fold (P : BookmarkTreeNode -> Prop) (D : nat)
    (heap : loc -> BookmarkRecord.t) (records : list loc) :
  P (init "Bookmarks Bar") ->
  (forall parts r n, P n -> P (place parts r n)) ->
  P (build_tree D heap records).
Proof.
  intros H0 Hstep. unfold build_tree. revert H0. generalize (init "Bookmarks Bar").
  induction records as [|r records IH]; intros root Hroot; cbn [fold_left]; auto.
Qed.

Lemma content_fold (D : nat) (heap : loc -> BookmarkRecord.t) (records : list loc)
    (root : BookmarkTreeNode) (p : list string) :
  content p (fold_left (fun root record => place (folder_path D (heap record)) record root)
                       records root)
  = (content p root ++ filter (fun r => folder_path D (heap r) = p) records)%list.
Proof.
  revert root. induction records as [|r records IH]; intros root; cbn [fold_left].
  - now rewrite filter_nil, app_nil_r.
  - rewrite IH, content_place, <- app_assoc. f_equal.
    destruct (decide (p = folder_path D (heap r))) as [->|Hne].
    + now rewrite filter_cons_True.
    + rewrite filter_cons_False by congruence. reflexivity.
Qed.

Lemma descend_fold (D : nat) (heap : loc -> BookmarkRecord.t) (records : list loc)
    (root : BookmarkTreeNode) (p : list string) :
  is_Some (descend p
             (fold_left (fun root record => place (folder_path D (heap record)) record root)
                        records root))
  <-> is_Some (descend p root)
      \/ exists r, r ∈ records /\ p `prefix_of` folder_path D (heap r).
Proof.
  revert root. induction records as [|r records IH]; intros root; cbn [fold_left].
  - split; [auto|]. intros [H|(r & Hr & _)]; [exact H|inversion Hr].
  - rewrite IH, descend_place. split.
    + intros [[H|H]|(r' & Hr' & Hp)]; [auto| |].
      * right. exists r. split; [left|exact H].
      * right. exists r'. split; [now right|exact Hp].
    + intros [H|(r' & Hr' & Hp)]; [auto|].
      apply elem_of_cons in Hr' as [->|Hr']; [auto|]. right. eauto.
Qed.

End TreeInvariants.

(** X13: the tree that [build_tree] makes holds the records it was given,
    each as often as it occurs in the list: no bookmark is lost and none is
    added. *)
Theorem build_tree_keeps_every_record (D : nat) (heap : loc -> BookmarkRecord.t)
    (records : list loc) :
  all_bookmarks (HtmlWriter.build_tree D heap records) ≡ₚ records
  /\ length (all_bookmarks (HtmlWriter.build_tree D heap records)) = length records.
Proof.
  assert (H : all_bookmarks (HtmlWriter.build_tree D heap records) ≡ₚ records).
  { unfold HtmlWriter.build_tree.
    assert (Hgen : forall root,
      all_bookmarks
        (fold_left (fun root record =>
                      HtmlWriter.place (HtmlWriter.folder_path D (heap record)) record root)
                   records root)
      ≡ₚ (all_bookmarks root ++ records)%list).
    { induction records as [|r records IH]; intros root; cbn [fold_left].
      - now rewrite app_nil_r.
      - rewrite IH, all_place. apply Permutation_middle. }
    now rewrite Hgen. }
  split; [exact H|]. now rewrite H.
Qed.

(** X14: the bookmarks filed directly under a path of folder names are the
    records whose folder path is that path, in the order of the record list;
    and a folder exists in the tree exactly when its path is the beginning
    of some record's folder path: the tree has no folder without a bookmark
    below it. *)
Theorem build_tree_folder_contents (D : nat) (heap : loc -> BookmarkRecord.t)
    (records : list loc) (p : list string) :
  let tree := HtmlWriter.build_tree D heap records in
  content p tree = filter (fun r => HtmlWriter.folder_path D (heap r) = p) records
  /\ (is_Some (descend p tree)
      <-> p = [] \/ exists r, r ∈ records
                              /\ p `prefix_of` HtmlWriter.folder_path D (heap r)).
Proof.
  intros tree. unfold tree, HtmlWriter.build_tree. split.
  - rewrite content_fold. unfold content. rewrite descend_init. now destruct p.
  - rewrite descend_fold, descend_init. destruct p; [|split].
    + split; [auto|intros _; left; eauto].
    + intros [[x Hx]|H]; [discriminate|auto].
    + intros [H|H]; [discriminate|auto].
Qed.

(** X15: in the tree that [build_tree] makes no two folders of one node have
    the same name, at any level, so a path of names leads to at most one
    folder. *)
Theorem build_tree_unique_names (D : nat) (heap : loc -> BookmarkRecord.t)
    (records : list loc) :
  unique_names (HtmlWriter.build_tree D heap records).
Proof.
  apply build_tree_fold.
  - split; [constructor|exact I].
  - intros parts r n. apply unique_place.
Qed.

(** ** Sorting *)

Section Sorting.

Import Builtins.

Lemma string_leb_trans (s1 s2 s3 : string) :
  String.leb s1 s2 = true -> String.leb s2 s3 = true -> String.leb s1 s3 = true.
Proof.
  unfold String.leb. revert s2 s3.
  induction s1 as [|c1 s1 IH]; intros [|c2 s2] [|c3 s3]; cbn [String.compare];
    try congruence.
  unfold Ascii.compare.
  destruct (N.compare_spec (N_of_ascii c1) (N_of_ascii c2)) as [H12|H12|H12];
    destruct (N.compare_spec (N_of_ascii c2) (N_of_ascii c3)) as [H23|H23|H23];
    destruct (N.compare_spec (N_of_ascii c1) (N_of_ascii c3)) as [H13|H13|H13];
    try congruence; try lia.
  apply IH.
Qed.

Lemma string_ltb_leb (x y : string) : String.ltb y x = true -> String.leb y x = true.
Proof. unfold String.ltb, String.leb. now destruct (String.compare y x). Qed.

Lemma string_ltb_false (x y : string) : String.ltb y x = false -> String.leb x y = true.
Proof.
  unfold String.ltb, String.leb. rewrite (String.compare_antisym x y).
  now destruct (String.compare y x).
Qed.

Context {A : Type} (key : A -> string).

Lemma insert_by_perm (x : A) (l : list A) : insert_by key x l ≡ₚ x :: l.
Proof.
  induction l as [|y l IH]; cbn [insert_by]; [reflexivity|].
  destruct (String.ltb (key y) (key x)); [|reflexivity].
  rewrite IH. apply Permutation_swap.
Qed.

Lemma sorted_perm (l : list A) : sorted key l ≡ₚ l.
Proof.
  induction l as [|x l IH]; [reflexivity|].
  unfold sorted in *. cbn [foldr]. now rewrite insert_by_perm, IH.
Qed.

Lemma insert_by_sorted (x : A) (l : list A) :
  StronglySorted (key_le key) l -> StronglySorted (key_le key) (insert_by key x l).
Proof.
  induction 1 as [|y l Hl IH Hy]; cbn [insert_by].
  - constructor; constructor.
  - destruct (String.ltb (key y) (key x)) eqn:Hlt.
    + constructor; [exact IH|].
      rewrite (insert_by_perm x l). constructor; [|exact Hy].
      now apply string_ltb_leb.
    + apply string_ltb_false in Hlt.
      constructor; [now constructor|]. constructor; [exact Hlt|].
      eapply Forall_impl; [exact Hy|]. intros z Hz.
      unfold key_le in *. eapply string_leb_trans; eassumption.
Qed.

Lemma sorted_sorted (l : list A) : StronglySorted (key_le key) (sorted key l).
Proof.
  induction l as [|x l IH]; [constructor|].
  unfold sorted in *. cbn [foldr]. now apply insert_by_sorted.
Qed.

End Sorting.

(** ** The payload of a batch *)

Section Payload.

Import Request.

Lemma build_payload_app (l1 l2 : list BookmarkRecord.t) (start : nat) :
  _build_payload (l1 ++ l2) start
  = (_build_payload l1 start ++ _build_payload l2 (start + length l1))%list.
Proof.
  unfold _build_payload. rewrite imap_app. f_equal.
  apply imap_ext. intros i r _. cbn. now rewrite Nat.add_assoc.
Qed.

Lemma build_payload_slices (heap : loc -> BookmarkRecord.t) (b : nat) (l : list loc)
    (k : nat) :
  concat (map (fun start => _build_payload (map heap (take b (drop start l))) start)
              (map (fun j => j * b) (seq 0 k)))
  = _build_payload (map heap (take (k * b) l)) 0.
Proof.
  induction k as [|k IH]; [reflexivity|].
  rewrite seq_S, !map_app, concat_app, IH. cbn [map concat plus].
  rewrite app_nil_r.
  replace (S k * b) with (k * b + b) by lia.
  rewrite <- take_take_drop, map_app, build_payload_app. f_equal.
  destruct (decide (k * b <= length l)) as [Hle|Hgt].
  - now rewrite length_map, length_take, Nat.min_l.
  - rewrite drop_ge by lia. now rewrite take_nil.
Qed.

Lemma build_payload_lookup (chunk : list BookmarkRecord.t) (start i : nat)
    (entry : pydict) :
  _build_payload chunk start !! i = Some entry ->
  exists record,
    chunk !! i = Some record
    /\ Dyn.get "index" entry = Some (PInt (Z.of_nat (start + i)))
    /\ Dyn.get "url" entry = Some (PStr (BookmarkRecord.url record))
    /\ Dyn.get "title_before" entry = Some (PStr (BookmarkRecord.title_before record))
    /\ Dyn.get "location_before" entry
       = Some (PStr (BookmarkRecord.location_before record)).
Proof.
  unfold _build_payload. rewrite list_lookup_imap.
  destruct (chunk !! i) as [record|]; [|discriminate].
  cbn. intros [= <-]. exists record. repeat split.
Qed.

End Payload.

(** X16: the payloads of the batches of [reorganise], put end to end, are
    the payload of the whole record list from index 0: every record is sent
    once, under its position in the list; and the entry at place [i] of the
    payload built from [start_index] carries the index [start_index + i],
    which lies in the batch, with the URL, title and location of the record
    at place [i]. *)
Theorem build_payload_batches (B : positive) (heap : loc -> BookmarkRecord.t)
    (records : list loc) :
  concat (map (fun start =>
                 Request._build_payload
                   (map heap (take (Pos.to_nat B) (drop start records))) start)
              (Organiser.range_step (length records) (Pos.to_nat B)))
  = Request._build_payload (map heap records) 0
  /\ map payload_index (Request._build_payload (map heap records) 0)
     = map (fun i => Some (PInt (Z.of_nat i))) (seq 0 (length records))
  /\ (forall chunk start_index i entry,
        Request._build_payload chunk start_index !! i = Some entry ->
        exists record,
          chunk !! i = Some record
          /\ payload_index entry = Some (PInt (Z.of_nat (start_index + i)))
          /\ in_batch start_index (length chunk) (Z.of_nat (start_index + i)) = true
          /\ Dyn.get "url" entry = Some (PStr (BookmarkRecord.url record))
          /\ Dyn.get "title_before" entry
             = Some (PStr (BookmarkRecord.title_before record))
          /\ Dyn.get "location_before" entry
             = Some (PStr (BookmarkRecord.location_before record))).
Proof.
  split; [|split].
  - unfold Organiser.range_step. rewrite build_payload_slices.
    rewrite take_ge; [reflexivity|].
    apply div_up_covers, Pos2Nat.is_pos.
  - apply list_eq. intros i. rewrite !lookup_map.
    destruct (Request._build_payload (map heap records) 0 !! i) as [entry|] eqn:He.
    + destruct (build_payload_lookup _ _ _ _ He) as (record & Hr & Hidx & _).
      apply lookup_lt_Some in Hr. rewrite length_map in Hr.
      rewrite lookup_seq_lt by exact Hr. cbn. unfold payload_index. now rewrite Hidx.
    + apply lookup_ge_None in He.
      unfold Request._build_payload in He. rewrite length_imap, length_map in He.
      now rewrite lookup_seq_ge by exact He.
  - intros chunk start_index i entry He.
    destruct (build_payload_lookup _ _ _ _ He) as (record & Hr & Hidx & Hu & Ht & Hl).
    exists record. repeat split; try assumption.
    apply lookup_lt_Some in Hr. unfold in_batch.
    apply andb_true_intro. split; [apply Z.leb_le|apply Z.ltb_lt]; lia.
Qed.

(** ** The structure summary *)

Section Summary.

Import Request.

Lemma get_append_to (k location title : string) (d : list (string * list string)) :
  get_titles k (append_to location title d)
  = if String.eqb location k
    then Some (default [] (get_titles location d) ++ [title])%list
    else get_titles k d.
Proof.
  induction d as [|[key titles] d IH]; cbn [append_to get_titles].
  - destruct (String.eqb location k); reflexivity.
  - destruct (String.eqb_spec key location) as [->|Hne]; cbn [get_titles].
    + destruct (String.eqb location k); reflexivity.
    + rewrite IH. destruct (String.eqb_spec key k) as [->|Hk].
      * destruct (String.eqb_spec location k); [congruence|reflexivity].
      * reflexivity.
Qed.

Lemma get_titles_none (k : string) (d : list (string * list string)) :
  get_titles k d = None <-> k ∉ map fst d.
Proof.
  induction d as [|[key titles] d IH]; cbn [get_titles map fst].
  - split; [intros _ H; inversion H|reflexivity].
  - rewrite not_elem_of_cons, <- IH.
    destruct (String.eqb_spec key k) as [->|Hne].
    + split; [discriminate|]. intros [H _]. congruence.
    + split; [|tauto]. intros H. split; [congruence|exact H].
Qed.

Lemma get_titles_elem (k : string) (titles : list string)
    (d : list (string * list string)) :
  get_titles k d = Some titles -> (k, titles) ∈ d.
Proof.
  induction d as [|[key ts] d IH]; cbn [get_titles]; [discriminate|].
  destruct (String.eqb_spec key k) as [->|Hne].
  - intros [= ->]. left.
  - intros H. right. now apply IH.
Qed.

Lemma elem_get_titles (k : string) (titles : list string)
    (d : list (string * list string)) :
  NoDup (map fst d) -> (k, titles) ∈ d -> get_titles k d = Some titles.
Proof.
  induction d as [|[key ts] d IH]; cbn [get_titles map fst]; intros Hnd Hin.
  - inversion Hin.
  - apply NoDup_cons in Hnd as [Hkey Hnd].
    apply elem_of_cons in Hin as [[= -> ->]|Hin].
    + now rewrite String.eqb_refl.
    + destruct (String.eqb_spec key k) as [->|Hne]; [|now apply IH].
      exfalso. apply Hkey. apply list_elem_of_In, in_map_iff.
      exists (k, titles). split; [reflexivity|now apply list_elem_of_In].
Qed.

Lemma append_to_keys (location title : string) (d : list (string * list string)) :
  map fst (append_to location title d)
  = match get_titles location d with
    | Some _ => map fst d
    | None => (map fst d ++ [location])%list
    end.
Proof.
  induction d as [|[key titles] d IH]; cbn [append_to get_titles map fst]; [reflexivity|].
  destruct (String.eqb key location); cbn [map fst]; [reflexivity|].
  rewrite IH. now destruct (get_titles location d).
Qed.

Lemma append_to_NoDup (location title : string) (d : list (string * list string)) :
  NoDup (map fst d) -> NoDup (map fst (append_to location title d)).
Proof.
  intros Hnd. rewrite append_to_keys.
  destruct (get_titles location d) eqn:Hget; [exact Hnd|].
  apply get_titles_none in Hget.
  apply NoDup_app. split; [exact Hnd|]. split; [|apply NoDup_singleton].
  intros x Hx Hx'. apply list_elem_of_singleton in Hx'. now subst x.
Qed.

Lemma append_to_sum (location title : string) (d : list (string * list string)) :
  sum_list_with (fun e => length (snd e)) (append_to location title d)
  = S (sum_list_with (fun e => length (snd e)) d).
Proof.
  induction d as [|[key titles] d IH]; cbn [append_to sum_list_with snd length].
  - reflexivity.
  - destruct (String.eqb key location); cbn [sum_list_with snd].
    + rewrite length_app. cbn [length]. lia.
    + rewrite IH. lia.
Qed.

(** A record that the summary counts, under some folder. *)
Lemma collect_cases (d : list (string * list string)) (record : BookmarkRecord.t) :
  let location := Py.strip (BookmarkRecord.location_after record) in
  (location ≠ "" /\ summarised location record = true
   /\ collect d record = append_to location (summary_title record) d)
  \/ ((forall p, p ≠ "" -> summarised p record = false) /\ collect d record = d).
Proof.
  intros location. unfold collect, summarised. fold location. fold (summary_title record).
  destruct location as [|c location'] eqn:Hloc; cbn [Py.truthy negb].
  - right. split; [|reflexivity]. intros p Hp.
    destruct (String.eqb_spec "" p); [congruence|reflexivity].
  - destruct (Py.truthy (summary_title record)) eqn:Ht.
    + left. rewrite String.eqb_refl. repeat split. discriminate.
    + right. split; [|reflexivity]. intros p _. apply andb_false_r.
Qed.

Lemma collect_fold (records : list BookmarkRecord.t) (d : list (string * list string))
    (p : string) :
  p ≠ "" ->
  get_titles p (foldl collect d records)
  = match titles_under p records with
    | [] => get_titles p d
    | titles => Some (default [] (get_titles p d) ++ titles)%list
    end.
Proof.
  intros Hp. revert d. unfold titles_under.
  induction records as [|record records IH]; intros d; [reflexivity|].
  cbn [foldl]. rewrite IH.
  destruct (collect_cases d record) as [(Hloc & Hsum & ->)|[Hno ->]].
  - rewrite get_append_to.
    destruct (String.eqb_spec (Py.strip (BookmarkRecord.location_after record)) p)
      as [Heq|Hne].
    + rewrite Heq in Hsum. rewrite filter_cons_True by now rewrite Hsum.
      rewrite Heq. cbn [map default].
      destruct (map summary_title (filter (fun r => summarised p r) records));
        cbn [from_option id]; [reflexivity|].
      now rewrite <- app_assoc.
    + rewrite filter_cons_False; [reflexivity|].
      unfold summarised.
      destruct (String.eqb_spec (Py.strip (BookmarkRecord.location_after record)) p);
        [congruence|]. cbn. auto.
  - rewrite filter_cons_False; [reflexivity|]. rewrite (Hno p Hp). auto.
Qed.

Lemma collect_fold_empty (records : list BookmarkRecord.t)
    (d : list (string * list string)) :
  get_titles "" (foldl collect d records) = get_titles "" d.
Proof.
  revert d. induction records as [|record records IH]; intros d; [reflexivity|].
  cbn [foldl]. rewrite IH.
  destruct (collect_cases d record) as [(Hloc & _ & ->)|[_ ->]]; [|reflexivity].
  rewrite get_append_to.
  destruct (String.eqb_spec (Py.strip (BookmarkRecord.location_after record)) "");
    [congruence|reflexivity].
Qed.

Lemma collect_NoDup (records : list BookmarkRecord.t) (d : list (string * list string)) :
  NoDup (map fst d) -> NoDup (map fst (foldl collect d records)).
Proof.
  revert d. induction records as [|record records IH]; intros d Hd; [exact Hd|].
  cbn [foldl]. apply IH.
  destruct (collect_cases d record) as [(_ & _ & ->)|[_ ->]]; [|exact Hd].
  now apply append_to_NoDup.
Qed.

Lemma collect_sum (records : list BookmarkRecord.t) (d : list (string * list string)) :
  sum_list_with (fun e => length (snd e)) (foldl collect d records)
  = sum_list_with (fun e => length (snd e)) d
    + length (filter (fun record =>
                        Py.truthy (Py.strip (BookmarkRecord.location_after record))
                        && Py.truthy (summary_title record)) records).
Proof.
  revert d. induction records as [|record records IH]; intros d; cbn [foldl].
  - rewrite filter_nil. cbn. lia.
  - rewrite IH.
    destruct (collect_cases d record) as [(Hloc & Hsum & ->)|[Hno ->]].
    + rewrite append_to_sum.
      unfold summarised in Hsum. rewrite String.eqb_refl in Hsum. cbn [andb] in Hsum.
      rewrite filter_cons_True.
      * cbn [length]. lia.
      * rewrite Hsum.
        destruct (Py.strip (BookmarkRecord.location_after record)); [congruence|]. exact I.
    + rewrite filter_cons_False; [reflexivity|].
      destruct (Py.strip (BookmarkRecord.location_after record)) as [|c s] eqn:Hloc;
        [auto|].
      specialize (Hno (String c s) ltac:(discriminate)).
      unfold summarised in Hno. rewrite Hloc, String.eqb_refl in Hno. cbn [andb] in Hno.
      rewrite Hno. auto.
Qed.

Lemma titles_under_path (p : string) (records : list BookmarkRecord.t) :
  titles_under p records ≠ [] -> Py.strip p = p.
Proof.
  unfold titles_under. induction records as [|record records IH];
    [intros H; exfalso; apply H; reflexivity|].
  destruct (summarised p record) eqn:Hs.
  - intros _. unfold summarised in Hs. apply andb_prop in Hs as [Hs _].
    apply String.eqb_eq in Hs. subst p. apply strip_idem.
  - rewrite filter_cons_False by now rewrite Hs. exact IH.
Qed.

End Summary.

(** X17: the structure summary has one item for each folder that some record
    counts for (a record counts for its trimmed [location_after] when that is
    not empty and the record has a title to show), and no other item. The
    paths of the items are distinct, not empty and trimmed; the count of an
    item is the number of records that count for it, at least one; its
    examples are the first five of their titles in the order of the records;
    the items are in the order of their lower-cased paths; and the counts
    add up to the number of records that count. *)
Theorem summarise_structure_spec (records : list BookmarkRecord.t) :
  let summary := Request._summarise_structure records in
  NoDup (map Request.path summary)
  /\ (forall item, item ∈ summary ->
        Request.path item ≠ ""
        /\ Py.strip (Request.path item) = Request.path item
        /\ Request.count item = length (titles_under (Request.path item) records)
        /\ 0 < Request.count item
        /\ Request.examples item = take 5 (titles_under (Request.path item) records))
  /\ (forall p, p ≠ "" -> titles_under p records ≠ [] -> p ∈ map Request.path summary)
  /\ StronglySorted (key_le (fun item => Py.lower (Request.path item))) summary
  /\ sum_list_with Request.count summary
     = length (filter (fun record =>
                         Py.truthy (Py.strip (BookmarkRecord.location_after record))
                         && Py.truthy (summary_title record)) records).
Proof.
  intros summary. unfold summary, Request._summarise_structure.
  set (folders := foldl Request.collect [] records).
  set (make := fun '(key, titles) =>
                 Request.mkFolderSummary key (length titles) (take 5 titles)).
  set (key := fun item => Py.lower (Request.path item)).
  pose proof (sorted_perm key (map make folders)) as Hperm.
  assert (Hnd : NoDup (map fst folders)) by (apply collect_NoDup; constructor).
  assert (Hpaths : map Request.path (map make folders) = map fst folders).
  { rewrite map_map. apply map_ext. now intros [k ts]. }
  assert (Hitem : forall item, item ∈ map make folders ->
            exists titles, get_titles (Request.path item) folders = Some titles
                           /\ item = make (Request.path item, titles)).
  { intros item Hin. apply list_elem_of_In, in_map_iff in Hin as ([k ts] & <- & Hin).
    exists ts. split; [|reflexivity].
    apply elem_get_titles; [exact Hnd|now apply list_elem_of_In]. }
  split; [|split; [|split; [|split]]].
  - rewrite (Permutation_map Request.path Hperm), Hpaths. exact Hnd.
  - intros item Hin. rewrite Hperm in Hin.
    destruct (Hitem item Hin) as (titles & Hget & Hmake).
    destruct (decide (Request.path item = "")) as [Hempty|Hpath].
    { rewrite Hempty in Hget. unfold folders in Hget.
      rewrite collect_fold_empty in Hget. discriminate. }
    unfold folders in Hget. rewrite (collect_fold records [] _ Hpath) in Hget.
    cbn [get_titles default app] in Hget.
    destruct (titles_under (Request.path item) records) as [|t ts] eqn:Hunder;
      [discriminate|].
    injection Hget as <-.
    split; [exact Hpath|]. split.
    { apply (titles_under_path _ records). rewrite Hunder. discriminate. }
    rewrite Hmake. cbn. repeat split. lia.
  - intros p Hp Hunder.
    rewrite (Permutation_map Request.path Hperm), Hpaths.
    destruct (get_titles p folders) as [titles|] eqn:Hget.
    + apply get_titles_elem in Hget. apply list_elem_of_In, in_map_iff.
      exists (p, titles). split; [reflexivity|now apply list_elem_of_In].
    + unfold folders in Hget. rewrite (collect_fold records [] p Hp) in Hget.
      destruct (titles_under p records); [congruence|discriminate].
  - apply sorted_sorted.
  - rewrite Hperm.
    assert (Hsum : sum_list_with Request.count (map make folders)
                   = sum_list_with (fun e => length (snd e)) folders).
    { clear. induction folders as [|[k ts] d IH]; [reflexivity|].
      cbn [map sum_list_with]. now rewrite IH. }
    rewrite Hsum. unfold folders. now rewrite collect_sum.
Qed.

(** ** The text of the bookmark file *)

Section Rendering.

Import Tree HtmlWriter Render.

Lemma tree_ind_all (P : BookmarkTreeNode -> Prop) :
  (forall s cs bs, Forall P cs -> P (Node s cs bs)) -> forall n, P n.
Proof.
  intros H. fix IH 1. intros [s cs bs]. apply H.
  induction cs as [|c cs IHcs]; constructor; [apply IH|exact IHcs].
Qed.

Lemma links_app (a b : list Line) : links (a ++ b)%list = (links a ++ links b)%list.
Proof. apply omap_app. Qed.

Lemma links_folders (depth : nat) (folders : list (string * list Line)) :
  links (flat_map (fun folder =>
                     ([FolderTitle depth (fst folder); ListOpen depth]
                      ++ snd folder ++ [ListClose depth])%list) folders)
  = flat_map (fun folder => links (snd folder)) folders.
Proof.
  induction folders as [|folder folders IH]; [reflexivity|].
  cbn [flat_map]. rewrite links_app, IH. f_equal.
  cbn [app].
  change (links (FolderTitle depth (fst folder) :: ListOpen depth
                 :: (snd folder ++ [ListClose depth])%list))
    with (links (snd folder ++ [ListClose depth])%list).
  rewrite links_app. apply app_nil_r.
Qed.

Lemma flat_map_perm_ext {A B : Type} (f g : A -> list B) (l : list A) :
  Forall (fun x => f x ≡ₚ g x) l -> flat_map f l ≡ₚ flat_map g l.
Proof.
  induction 1 as [|x l Hx _ IH]; [reflexivity|].
  cbn [flat_map]. now rewrite Hx, IH.
Qed.

Lemma flat_map_map_out {A B C : Type} (f : B -> C) (g : A -> list B) (l : list A) :
  flat_map (fun x => map f (g x)) l = map f (flat_map g l).
Proof.
  induction l as [|x l IH]; [reflexivity|].
  cbn [flat_map]. now rewrite map_app, IH.
Qed.

Lemma links_render (heap : loc -> BookmarkRecord.t) (n : BookmarkTreeNode) :
  forall depth,
    links (_render_node heap n depth) ≡ₚ map (fun r => link_of (heap r)) (all_bookmarks n).
Proof.
  induction n as [s cs bs IH] using tree_ind_all. intros depth.
  cbn [_render_node all_bookmarks]. rewrite links_app, links_folders, map_app.
  rewrite Permutation_app_comm. apply Permutation_app.
  - set (key := fun record => bookmark_key (heap record)).
    transitivity (map (fun r => link_of (heap r)) (Builtins.sorted key bs));
      [|apply Permutation_map, sorted_perm].
    unfold links. clear.
    induction (Builtins.sorted key bs) as [|r l IHl]; [reflexivity|].
    cbn [map omap]. cbn. now rewrite IHl.
  - rewrite (Permutation_flat_map _ (sorted_perm _ _)).
    rewrite flat_map_concat_map, map_map, <- flat_map_concat_map. cbn [snd].
    rewrite <- flat_map_map_out. apply flat_map_perm_ext.
    eapply Forall_impl; [exact IH|]. intros c Hc. apply Hc.
Qed.

Lemma nesting_app (level : nat) (a b : list Line) :
  nesting level (a ++ b)%list
  = match nesting level a with Some level' => nesting level' b | None => None end.
Proof.
  revert level. induction a as [|line a IH]; intros level; [reflexivity|].
  destruct line as [d name|d|d|d url title]; cbn [app nesting];
    match goal with |- context [(?x =? ?y)%nat] => destruct (x =? y)%nat end;
    auto.
Qed.

Lemma nesting_folders (depth : nat) (folders : list (string * list Line)) :
  Forall (fun folder => nesting (S depth) (snd folder) = Some (S depth)) folders ->
  nesting depth
    (flat_map (fun folder =>
                 ([FolderTitle depth (fst folder); ListOpen depth]
                  ++ snd folder ++ [ListClose depth])%list) folders)
  = Some depth.
Proof.
  induction 1 as [|folder folders Hf _ IH]; [reflexivity|].
  cbn [flat_map]. rewrite nesting_app.
  cbn [app nesting]. rewrite Nat.eqb_refl, nesting_app, Hf.
  cbn [nesting]. now rewrite Nat.eqb_refl.
Qed.

Lemma nesting_links (heap : loc -> BookmarkRecord.t) (depth : nat) (bs : list loc) :
  nesting depth
    (map (fun record =>
            Link depth (BookmarkRecord.url (heap record))
                 (Py.or_else (BookmarkRecord.title_after (heap record))
                             (BookmarkRecord.title_before (heap record)))) bs)
  = Some depth.
Proof.
  induction bs as [|r bs IH]; [reflexivity|].
  cbn [map nesting]. now rewrite Nat.eqb_refl.
Qed.

Lemma nesting_render (heap : loc -> BookmarkRecord.t) (n : BookmarkTreeNode) :
  forall depth, nesting depth (_render_node heap n depth) = Some depth.
Proof.
  induction n as [s cs bs IH] using tree_ind_all. intros depth.
  cbn [_render_node]. rewrite nesting_app, nesting_folders; [apply nesting_links|].
  rewrite (sorted_perm _ _). apply Forall_forall. intros folder Hin.
  apply list_elem_of_In, in_map_iff in Hin as (c & <- & Hin).
  cbn [snd]. rewrite Forall_forall in IH. apply IH. now apply list_elem_of_In.
Qed.

Lemma depth_child (s : string) (cs : list BookmarkTreeNode) (bs : list loc)
    (c : BookmarkTreeNode) :
  c ∈ cs -> S (depth c) <= depth (Node s cs bs).
Proof.
  cbn [depth]. induction cs as [|c' cs IH]; intros Hin; [inversion Hin|].
  cbn [fold_right]. apply elem_of_cons in Hin as [->|Hin]; [lia|].
  specialize (IH Hin). lia.
Qed.

Lemma depth_render (heap : loc -> BookmarkRecord.t) (n : BookmarkTreeNode) :
  forall d, Forall (fun line => d <= line_depth line <= d + depth n)
                   (_render_node heap n d).
Proof.
  induction n as [s cs bs IH] using tree_ind_all. intros d.
  cbn [_render_node]. apply Forall_app. split.
  - apply Forall_forall. intros line Hin.
    apply list_elem_of_In, in_flat_map in Hin as (folder & Hfolder & Hin).
    apply list_elem_of_In in Hfolder. rewrite (sorted_perm _ _) in Hfolder.
    apply list_elem_of_In, in_map_iff in Hfolder as (c & <- & Hc).
    apply list_elem_of_In in Hc.
    pose proof (depth_child s cs bs c Hc) as Hdepth.
    cbn [fst snd app] in Hin.
    destruct Hin as [<-|[<-|Hin]]; [cbn; lia|cbn; lia|].
    apply in_app_iff in Hin as [Hin|[<-|[]]]; [|cbn; lia].
    rewrite Forall_forall in IH. specialize (IH c Hc (S d)).
    rewrite Forall_forall in IH. apply list_elem_of_In in Hin.
    specialize (IH line Hin). lia.
  - apply Forall_forall. intros line Hin.
    apply list_elem_of_In, in_map_iff in Hin as (r & <- & _). cbn. lia.
Qed.

End Rendering.

(** X18: the bookmark file has one link for every bookmark of the tree, with
    the record's URL and its [title_after], or its [title_before] when that
    is empty; so the file [write_bookmark_html] writes for a list of records
    has exactly their links, each as often as the record is in the list. *)
Theorem render_writes_every_bookmark (D : nat) (heap : loc -> BookmarkRecord.t)
    (records : list loc) :
  (forall root depth,
     links (Render._render_node heap root depth)
     ≡ₚ map (fun r => link_of (heap r)) (all_bookmarks root))
  /\ links (Render._render_node heap (HtmlWriter.build_tree D heap records) 1)
     ≡ₚ map (fun r => link_of (heap r)) records
  /\ map fst (links (Render._render_node heap (HtmlWriter.build_tree D heap records) 1))
     ≡ₚ map (fun r => BookmarkRecord.url (heap r)) records.
Proof.
  assert (H : links (Render._render_node heap (HtmlWriter.build_tree D heap records) 1)
              ≡ₚ map (fun r => link_of (heap r)) records).
  { rewrite links_render. apply Permutation_map.
    unfold HtmlWriter.build_tree.
    assert (Hgen : forall root,
      all_bookmarks
        (fold_left (fun root record =>
                      HtmlWriter.place (HtmlWriter.folder_path D (heap record)) record root)
                   records root)
      ≡ₚ (all_bookmarks root ++ records)%list).
    { induction records as [|r records IH]; intros root; cbn [fold_left].
      - now rewrite app_nil_r.
      - rewrite IH, all_place. apply Permutation_middle. }
    now rewrite Hgen. }
  split; [intros root depth; apply links_render|]. split; [exact H|].
  rewrite (Permutation_map fst H), map_map. reflexivity.
Qed.

(** X19: the text [render_html] makes is the header and then the printed
    lines of a list that is opened at level 0, holds the lines of the root at
    level 1 and is closed at level 0; these lines are well nested: every list
    that is opened is closed, and every line stands at the level of the list
    it is in; and in the file of [write_bookmark_html] no line stands deeper
    than one level more than the folder depth limit. *)
Theorem render_html_nesting (D : nat) (heap : loc -> BookmarkRecord.t)
    (records : list loc) (root : BookmarkTreeNode) :
  Render.render_html heap root
  = Py.join Render.nl
      (Py.strip Render.HTML_HEADER
       :: map Render.show
            (Render.ListOpen 0
             :: (Render._render_node heap root 1 ++ [Render.ListClose 0])%list))
  /\ nesting 0 (Render.ListOpen 0
                :: (Render._render_node heap root 1 ++ [Render.ListClose 0])%list)
     = Some 0
  /\ Forall (fun line => 1 <= line_depth line <= 1 + Tree.depth root)
            (Render._render_node heap root 1)
  /\ Forall (fun line => line_depth line <= 1 + D)
            (Render._render_node heap (HtmlWriter.build_tree D heap records) 1).
Proof.
  split; [|split; [|split]].
  - unfold Render.render_html. cbn [app map]. rewrite map_app. reflexivity.
  - cbn [nesting Nat.eqb]. rewrite nesting_app, nesting_render. reflexivity.
  - apply depth_render.
  - eapply Forall_impl; [apply depth_render|].
    intros line Hline. pose proof (depth_build_tree D heap records). cbn beta in Hline. lia.
Qed.

(** ** The metadata cache *)

Section Cache.

Import Organiser Main.

Lemma with_metadata_eta (m : BookmarkMetadata.t) (r : BookmarkRecord.t) :
  BookmarkRecord.with_metadata
    (BookmarkMetadata.mk (BookmarkMetadata.title m) (BookmarkMetadata.description m)
                         (BookmarkMetadata.tags m)) r
  = BookmarkRecord.with_metadata m r.
Proof. now destruct m. Qed.

Lemma same_but_metadata_refl (a : BookmarkRecord.t) : same_but_metadata a a.
Proof. repeat split. Qed.

Lemma same_but_metadata_trans (a b c : BookmarkRecord.t) :
  same_but_metadata a b -> same_but_metadata b c -> same_but_metadata a c.
Proof.
  unfold same_but_metadata. intros (?&?&?&?&?) (?&?&?&?&?). repeat split; congruence.
Qed.

(** One turn of the loop of [_reuse_metadata]. *)
Lemma reuse_loop_cons (cache_map : gmap string loc) (record : loc) (rest : list loc)
    (reused : nat) (h : loc -> BookmarkRecord.t) :
  reuse_loop cache_map (record :: rest) reused h
  = if reusable cache_map h record
    then reuse_loop cache_map rest (S reused)
           (<[record := reused_record cache_map h record]> h)
    else reuse_loop cache_map rest reused h.
Proof.
  cbn [reuse_loop]. unfold reusable, reused_record.
  destruct (cache_map !! BookmarkRecord.url (h record)) as [cached|]; [|reflexivity].
  destruct (has_metadata (BookmarkRecord.metadata (h cached))); [|reflexivity].
  now rewrite with_metadata_eta.
Qed.

Lemma reused_record_frame (cache_map : gmap string loc) (h : loc -> BookmarkRecord.t)
    (record : loc) :
  same_but_metadata (reused_record cache_map h record) (h record).
Proof.
  unfold reused_record.
  destruct (cache_map !! BookmarkRecord.url (h record)) as [cached|];
    [|apply same_but_metadata_refl].
  destruct (has_metadata (BookmarkRecord.metadata (h cached)));
    [|apply same_but_metadata_refl].
  repeat split.
Qed.

Lemma reuse_loop_frame (cache_map : gmap string loc) (records : list loc) (reused : nat)
    (h : loc -> BookmarkRecord.t) :
  (forall l, same_but_metadata (snd (reuse_loop cache_map records reused h) l) (h l))
  /\ (forall l, l ∉ records -> snd (reuse_loop cache_map records reused h) l = h l)
  /\ reused <= fst (reuse_loop cache_map records reused h) <= reused + length records.
Proof.
  revert reused h. induction records as [|record rest IH]; intros reused h.
  - cbn. split; [intros; apply same_but_metadata_refl|]. split; [reflexivity|lia].
  - rewrite reuse_loop_cons. destruct (reusable cache_map h record).
    + destruct (IH (S reused) (<[record := reused_record cache_map h record]> h))
        as (Hframe & Hout & Hn).
      split; [|split].
      * intros l. eapply same_but_metadata_trans; [apply Hframe|].
        destruct (decide (l = record)) as [->|Hne].
        -- rewrite fn_lookup_insert. apply reused_record_frame.
        -- rewrite fn_lookup_insert_ne by congruence. apply same_but_metadata_refl.
      * intros l Hl. apply not_elem_of_cons in Hl as [Hne Hl].
        rewrite Hout by exact Hl. rewrite fn_lookup_insert_ne by congruence. reflexivity.
      * cbn [length]. lia.
    + destruct (IH reused h) as (Hframe & Hout & Hn).
      split; [exact Hframe|]. split.
      * intros l Hl. apply not_elem_of_cons in Hl as [_ Hl]. now apply Hout.
      * cbn [length]. lia.
Qed.

Lemma filter_ext_bool {A : Type} (f g : A -> bool) (l : list A) :
  (forall x, x ∈ l -> f x = g x) -> filter (fun x => f x) l = filter (fun x => g x) l.
Proof.
  induction l as [|x l IH]; intros Hfg; [reflexivity|].
  rewrite !filter_cons, (Hfg x) by left.
  rewrite IH by (intros y Hy; apply Hfg; now right). reflexivity.
Qed.

Lemma reuse_loop_copies (cache_map : gmap string loc) (records : list loc) (reused : nat)
    (h : loc -> BookmarkRecord.t) :
  (forall u cached, cache_map !! u = Some cached -> cached ∉ records) ->
  (forall r, r ∈ records ->
     snd (reuse_loop cache_map records reused h) r = reused_record cache_map h r)
  /\ fst (reuse_loop cache_map records reused h)
     = reused + length (filter (fun r => reusable cache_map h r) records).
Proof.
  revert reused h. induction records as [|record rest IH]; intros reused h Hsep.
  - split; [intros r Hr; inversion Hr|]. rewrite filter_nil. cbn. lia.
  - assert (Hrest : forall u cached, cache_map !! u = Some cached -> cached ∉ rest).
    { intros u cached Hc. specialize (Hsep u cached Hc).
      now apply not_elem_of_cons in Hsep. }
    assert (Hhead : forall u cached, cache_map !! u = Some cached -> cached ≠ record).
    { intros u cached Hc. specialize (Hsep u cached Hc).
      now apply not_elem_of_cons in Hsep. }
    rewrite reuse_loop_cons, filter_cons.
    destruct (reusable cache_map h record) eqn:Hreusable; cbn [Is_true decide_rel].
    + set (h1 := <[record := reused_record cache_map h record]> h).
      assert (Hurl : forall r, BookmarkRecord.url (h1 r) = BookmarkRecord.url (h r)).
      { intros r. unfold h1. destruct (decide (r = record)) as [->|Hne].
        - rewrite fn_lookup_insert. apply reused_record_frame.
        - rewrite fn_lookup_insert_ne by congruence. reflexivity. }
      assert (Hcached : forall u cached, cache_map !! u = Some cached ->
                h1 cached = h cached).
      { intros u cached Hc. unfold h1. rewrite fn_lookup_insert_ne; [reflexivity|].
        intros Heq. now apply (Hhead u cached Hc). }
      assert (Hsame : forall r, reused_record cache_map h1 r = reused_record cache_map h r).
      { intros r. unfold reused_record. rewrite Hurl.
        destruct (cache_map !! BookmarkRecord.url (h r)) as [cached|] eqn:Hc.
        - rewrite (Hcached _ _ Hc).
          destruct (decide (r = record)) as [->|Hne].
          + unfold h1. rewrite fn_lookup_insert. unfold reused_record. rewrite Hc.
            now destruct (has_metadata (BookmarkRecord.metadata (h cached))).
          + unfold h1. rewrite fn_lookup_insert_ne by congruence. reflexivity.
        - destruct (decide (r = record)) as [->|Hne].
          + unfold h1. rewrite fn_lookup_insert. unfold reused_record. now rewrite Hc.
          + unfold h1. rewrite fn_lookup_insert_ne by congruence. reflexivity. }
      assert (Hreus : forall r, reusable cache_map h1 r = reusable cache_map h r).
      { intros r. unfold reusable. rewrite Hurl.
        destruct (cache_map !! BookmarkRecord.url (h r)) as [cached|] eqn:Hc;
          [|reflexivity].
        now rewrite (Hcached _ _ Hc). }
      destruct (IH (S reused) h1 Hrest) as (Hrec & Hn). split.
      * intros r Hr. destruct (decide (r ∈ rest)) as [Hin|Hout].
        -- rewrite Hrec by exact Hin. apply Hsame.
        -- apply elem_of_cons in Hr as [->|Hr]; [|contradiction].
           destruct (reuse_loop_frame cache_map rest (S reused) h1) as (_ & Hframe & _).
           rewrite Hframe by exact Hout. unfold h1. now rewrite fn_lookup_insert.
      * rewrite Hn.
        rewrite (filter_ext_bool (reusable cache_map h1) (reusable cache_map h) rest)
          by (intros; apply Hreus).
        destruct (decide True) as [_|Hf]; [|exfalso; apply Hf; exact I].
        cbn [length]. lia.
    + destruct (IH reused h Hrest) as (Hrec & Hn). split.
      * intros r Hr. destruct (decide (r ∈ rest)) as [Hin|Hout].
        -- now apply Hrec.
        -- apply elem_of_cons in Hr as [->|Hr]; [|contradiction].
           destruct (reuse_loop_frame cache_map rest reused h) as (_ & Hframe & _).
           rewrite Hframe by exact Hout. unfold reused_record, reusable in *.
           destruct (cache_map !! BookmarkRecord.url (h record)) as [cached|];
             [|reflexivity].
           now rewrite Hreusable.
      * rewrite Hn.
        destruct (decide False) as [Hf|_]; [destruct Hf|]. reflexivity.
Qed.

Lemma reuse_loop_nothing (cache_map : gmap string loc) (records : list loc)
    (reused : nat) (h : loc -> BookmarkRecord.t) :
  (forall u cached, cache_map !! u = Some cached ->
     has_metadata (BookmarkRecord.metadata (h cached)) = false) ->
  reuse_loop cache_map records reused h = (reused, h).
Proof.
  intros Hnone. induction records as [|record rest IH]; [reflexivity|].
  rewrite reuse_loop_cons. unfold reusable.
  destruct (cache_map !! BookmarkRecord.url (h record)) as [cached|] eqn:Hc;
    [|exact IH].
  now rewrite (Hnone _ _ Hc).
Qed.

Lemma url_map_elem (h : loc -> BookmarkRecord.t) (cached_records : list loc)
    (u : string) (cached : loc) :
  url_map h cached_records !! u = Some cached -> cached ∈ cached_records.
Proof.
  unfold url_map.
  assert (Hgen : forall m : gmap string loc,
    foldl (fun m entry => <[BookmarkRecord.url (h entry) := entry]> m) m cached_records
      !! u = Some cached ->
    m !! u = Some cached \/ cached ∈ cached_records).
  { induction cached_records as [|entry rest IH]; intros m; cbn [foldl]; [auto|].
    intros H. apply IH in H as [H|H]; [|right; now right].
    destruct (decide (BookmarkRecord.url (h entry) = u)) as [Hu|Hu].
    - rewrite Hu, lookup_insert_eq in H. injection H as ->. right. left.
    - rewrite lookup_insert_ne in H by exact Hu. now left. }
  intros H. apply Hgen in H as [H|H]; [|exact H].
  rewrite lookup_empty in H. discriminate.
Qed.

Lemma set_heap_same (w : World) : set_heap (heap w) w = w.
Proof. now destruct w. Qed.

Lemma trimmed_has_metadata (r : BookmarkRecord.t) :
  has_metadata (BookmarkRecord.metadata r) = false ->
  has_metadata (BookmarkRecord.metadata (trimmed r)) = false.
Proof.
  destruct r as [tb u lb [t d tags] ta la]. unfold has_metadata, trimmed. cbn.
  destruct tags; [auto|]. now rewrite !orb_true_r.
Qed.

Lemma load_written (records : list loc) (path : string) (w : World) :
  load_json path (snd (write_json records path w)) = round_trip records path w.
Proof. reflexivity. Qed.

End Cache.

(** X20: [_reuse_metadata] writes nothing but metadata: after it every record
    has the titles, the URL and the locations it had; a record that is not in
    the list is as it was; the number it returns is at most the number of
    records; and it creates no record and touches no file. *)
Theorem reuse_metadata_frame (records : list loc) (cache_map : gmap string loc)
    (w : Organiser.World) :
  let result := Main._reuse_metadata records cache_map w in
  (forall l, same_but_metadata (Organiser.heap (snd result) l) (Organiser.heap w l))
  /\ (forall l, l ∉ records -> Organiser.heap (snd result) l = Organiser.heap w l)
  /\ fst result <= length records
  /\ Organiser.next_loc (snd result) = Organiser.next_loc w
  /\ Organiser.files (snd result) = Organiser.files w
  /\ map (fun r => BookmarkRecord.url (Organiser.heap (snd result) r)) records
     = map (fun r => BookmarkRecord.url (Organiser.heap w r)) records.
Proof.
  intros result. unfold result, Main._reuse_metadata.
  destruct (reuse_loop_frame cache_map records 0 (Organiser.heap w)) as (Hframe & Hout & Hn).
  destruct (Main.reuse_loop cache_map records 0 (Organiser.heap w)) as [reused h].
  cbn [fst snd Organiser.set_heap Organiser.heap Organiser.next_loc Organiser.files] in *.
  repeat split; try apply Hframe; try lia.
  - exact Hout.
  - apply map_ext. intros r. apply Hframe.
Qed.

(** X21: when no record of the list is itself an entry of the cache,
    [_reuse_metadata] gives every record whose URL the cache has with some
    metadata (a title, a description or a tag) the metadata of that entry,
    leaves every other record of the list as it was, and returns the number
    of records it gave metadata to. *)
Theorem reuse_metadata_copies (records : list loc) (cache_map : gmap string loc)
    (w : Organiser.World)
    (Hapart : forall u cached, cache_map !! u = Some cached -> cached ∉ records) :
  let result := Main._reuse_metadata records cache_map w in
  (forall r, r ∈ records ->
     Organiser.heap (snd result) r = reused_record cache_map (Organiser.heap w) r)
  /\ fst result
     = length (filter (fun r => reusable cache_map (Organiser.heap w) r) records).
Proof.
  intros result. unfold result, Main._reuse_metadata.
  destruct (reuse_loop_copies cache_map records 0 (Organiser.heap w) Hapart) as (Hrec & Hn).
  destruct (Main.reuse_loop cache_map records 0 (Organiser.heap w)) as [reused h].
  cbn [fst snd Organiser.set_heap Organiser.heap] in *. split; [exact Hrec|exact Hn].
Qed.

Lemma reuse_metadata_copies_witness :
  let fresh := BookmarkRecord.mk "A" "https://a.example" "Root" (BookmarkMetadata.mk "" "" [])
                                 "" "" in
  let cached := BookmarkRecord.mk "A" "https://a.example" "Root"
                                  (BookmarkMetadata.mk "Page A" "" ["news"]) "" "" in
  let w0 :=
    Organiser.mkWorld (fun l => if (l =? 1)%nat then cached else fresh)
      2 ∅ (Organiser.init "gpt-4.1-mini" 25 None None) 0 [] in
  let result := Main._reuse_metadata [0] {["https://a.example" := 1]} w0 in
  BookmarkRecord.metadata (Organiser.heap (snd result) 0)
  = BookmarkMetadata.mk "Page A" "" ["news"]
  /\ fst result = 1.
Proof.
  intros fresh cached w0 result.
  assert (Hapart : forall u c, ({["https://a.example" := 1]} : gmap string nat) !! u = Some c ->
                     c ∉ [0]).
  { intros u c Hc. apply lookup_singleton_Some in Hc as [_ <-].
    intros Hin. apply list_elem_of_singleton in Hin. discriminate. }
  destruct (reuse_metadata_copies [0] {["https://a.example" := 1]} w0 Hapart)
    as (Hrec & Hn).
  fold result in Hrec, Hn. split.
  - rewrite (Hrec 0) by left. reflexivity.
  - rewrite Hn. reflexivity.
Defined.

(** X22: a cache that is read from the file the records were just written
    to, as [main] does after parsing, reuses nothing: when no record has
    metadata (the parser creates every record without), [_maybe_reuse_cache]
    after [write_json] to the same path does what loading the cache does and
    changes no record, whatever the options and the mode are. *)
Theorem cache_after_parse_reuses_nothing (use_json_cache fresh_scrape : bool)
    (json_path effective_mode : string) (records : list loc) (w : Organiser.World)
    (Hparsed : forall r, r ∈ records ->
                 Main.has_metadata (BookmarkRecord.metadata (Organiser.heap w r)) = false) :
  let w1 := snd (Organiser.write_json records json_path w) in
  Main._maybe_reuse_cache use_json_cache fresh_scrape json_path records effective_mode w1
  = (if use_json_cache then Main._load_cache json_path w1 else (∅, w1))
  /\ forall cache_map w2,
       Main._load_cache json_path w1 = (cache_map, w2) ->
       Main._reuse_metadata records cache_map w2 = (0, w2).
Proof.
  intros w1.
  assert (Hreuse : forall cache_map w2,
            Main._load_cache json_path w1 = (cache_map, w2) ->
            Main._reuse_metadata records cache_map w2 = (0, w2)).
  { intros cache_map w2. unfold Main._load_cache.
    unfold w1 at 1. cbn [Organiser.write_json snd Organiser.files].
    rewrite lookup_insert_eq. fold w1. unfold w1 at 1.
    rewrite load_written, round_trip_eq. cbv zeta.
    match goal with |- context [Organiser.create_all ?vs ?w'] =>
      pose proof (create_all_spec vs w') as (Hlocs & Hvals & _);
      destruct (Organiser.create_all vs w') as [loaded w3] end.
    cbn [fst snd] in Hlocs, Hvals. intros [= <- <-].
    unfold Main._reuse_metadata. rewrite reuse_loop_nothing.
    - now rewrite set_heap_same.
    - intros u cached Hc. apply url_map_elem in Hc.
      rewrite Hlocs in Hc. apply list_elem_of_lookup in Hc as (i & Hi).
      assert (Hval : map (Organiser.heap w3) (seq (Organiser.next_loc w) (length (map trimmed (map (Organiser.heap w) records)))) !! i
                     = Some (Organiser.heap w3 cached)).
      { rewrite lookup_map. cbn [Organiser.next_loc] in Hi. now rewrite Hi. }
      cbn [Organiser.next_loc] in Hvals. rewrite Hvals in Hval.
      rewrite !lookup_map in Hval.
      destruct (records !! i) as [r|] eqn:Hr; [|discriminate].
      cbn in Hval. injection Hval as <-.
      apply trimmed_has_metadata, Hparsed. eapply list_elem_of_lookup_2, Hr. }
  split; [|exact Hreuse].
  unfold Main._maybe_reuse_cache. destruct use_json_cache.
  - destruct (Main._load_cache json_path w1) as [cache_map w2] eqn:Hload.
    destruct (negb (bool_decide (cache_map = ∅))
              && (String.eqb effective_mode "metadata" || String.eqb effective_mode "llm")
              && negb fresh_scrape); [|reflexivity].
    now rewrite (Hreuse cache_map w2 eq_refl).
  - rewrite bool_decide_eq_true_2 by reflexivity. reflexivity.
Qed.

Lemma cache_after_parse_reuses_nothing_witness :
  let parsed := BookmarkRecord.mk "A" "https://a.example" "Root" (BookmarkMetadata.mk "" "" [])
                                  "" "" in
  let w0 :=
    Organiser.mkWorld (fun _ => parsed) 1 ∅ (Organiser.init "gpt-4.1-mini" 25 None None)
                      0 [] in
  let w1 := snd (Organiser.write_json [0] "bookmarks.json" w0) in
  Main._maybe_reuse_cache true false "bookmarks.json" [0] "llm" w1
  = Main._load_cache "bookmarks.json" w1.
Proof.
  intros parsed w0 w1.
  destruct (cache_after_parse_reuses_nothing true false "bookmarks.json" "llm" [0] w0)
    as (Hsame & _).
  - intros r _. reflexivity.
  - exact Hsame.
Defined.

(** ** The order of the output *)

Section RenderOrder.

Import Tree HtmlWriter Render.

Lemma insert_by_map {A B : Type} (f : A -> B) (key : B -> string) (x : A) (l : list A) :
  map f (Builtins.insert_by (fun a => key (f a)) x l)
  = Builtins.insert_by key (f x) (map f l).
Proof.
  induction l as [|y l IH]; [reflexivity|].
  cbn [Builtins.insert_by map].
  destruct (String.ltb (key (f y)) (key (f x))); cbn [map]; [now rewrite IH|reflexivity].
Qed.

Lemma sorted_map {A B : Type} (f : A -> B) (key : B -> string) (l : list A) :
  map f (Builtins.sorted (fun a => key (f a)) l) = Builtins.sorted key (map f l).
Proof.
  induction l as [|x l IH]; [reflexivity|].
  unfold Builtins.sorted in *. cbn [foldr map]. now rewrite insert_by_map, IH.
Qed.

Lemma titles_at_app (d : nat) (a b : list Line) :
  folder_titles_at d (a ++ b)%list = (folder_titles_at d a ++ folder_titles_at d b)%list.
Proof. apply omap_app. Qed.

Lemma links_at_app (d : nat) (a b : list Line) :
  links_at d (a ++ b)%list = (links_at d a ++ links_at d b)%list.
Proof. apply omap_app. Qed.

Lemma titles_at_cons (d : nat) (line : Line) (lines : list Line) :
  folder_titles_at d (line :: lines)
  = match line with
    | FolderTitle d' name =>
        if (d' =? d)%nat then name :: folder_titles_at d lines else folder_titles_at d lines
    | _ => folder_titles_at d lines
    end.
Proof.
  destruct line as [d' name|d'|d'|d' url title]; try reflexivity.
  unfold folder_titles_at. cbn. now destruct (d' =? d)%nat.
Qed.

Lemma links_at_cons (d : nat) (line : Line) (lines : list Line) :
  links_at d (line :: lines)
  = match line with
    | Link d' url title =>
        if (d' =? d)%nat then (url, title) :: links_at d lines else links_at d lines
    | _ => links_at d lines
    end.
Proof.
  destruct line as [d' name|d'|d'|d' url title]; try reflexivity.
  unfold links_at. cbn. now destruct (d' =? d)%nat.
Qed.

Lemma deeper_none (d : nat) (lines : list Line) :
  Forall (fun line => S d <= line_depth line) lines ->
  folder_titles_at d lines = [] /\ links_at d lines = [].
Proof.
  induction 1 as [|line lines Hline _ [IH1 IH2]]; [split; reflexivity|].
  rewrite titles_at_cons, links_at_cons, IH1, IH2.
  destruct line as [d' name|d'|d'|d' url title]; cbn in Hline;
    try (split; reflexivity);
    destruct (Nat.eqb_spec d' d); try lia; split; reflexivity.
Qed.

Lemma folders_at (d : nat) (folders : list (string * list Line)) :
  Forall (fun folder => Forall (fun line => S d <= line_depth line) (snd folder)) folders ->
  let block := flat_map (fun folder =>
                           ([FolderTitle d (fst folder); ListOpen d]
                            ++ snd folder ++ [ListClose d])%list) folders in
  folder_titles_at d block = map fst folders /\ links_at d block = [].
Proof.
  induction 1 as [|folder folders Hf _ IH]; [split; reflexivity|].
  cbn zeta in *. cbn [flat_map map]. destruct IH as [IH1 IH2].
  destruct (deeper_none d (snd folder) Hf) as [Hd1 Hd2].
  rewrite titles_at_app, links_at_app, IH1, IH2. cbn [app].
  rewrite !titles_at_cons, !links_at_cons, titles_at_app, links_at_app, Hd1, Hd2.
  rewrite Nat.eqb_refl. split; reflexivity.
Qed.

Lemma own_links_at (heap : loc -> BookmarkRecord.t) (d : nat) (bs : list loc) :
  let own := map (fun record =>
                    Link d (BookmarkRecord.url (heap record))
                         (Py.or_else (BookmarkRecord.title_after (heap record))
                                     (BookmarkRecord.title_before (heap record)))) bs in
  folder_titles_at d own = [] /\ links_at d own = map (fun r => link_of (heap r)) bs.
Proof.
  induction bs as [|r bs [IH1 IH2]]; [split; reflexivity|].
  cbn zeta in *. cbn [map]. rewrite titles_at_cons, links_at_cons, Nat.eqb_refl, IH1, IH2.
  split; reflexivity.
Qed.

End RenderOrder.

(** X23: the order of the output. The lines of a node are the blocks of its
    folders and then its own links, with no link of the node before the block
    of a folder; the folder titles at the node's level are the names of its
    folders, each once, in the order of their lower-cased names; and the
    links at the node's level are the links of its own bookmarks in the order
    of their lower-cased titles (of [title_before] where [title_after] is
    empty). *)
Theorem render_node_order (heap : loc -> BookmarkRecord.t) (s : string)
    (cs : list BookmarkTreeNode) (bs : list loc) (d : nat) :
  let lines := Render._render_node heap (Node s cs bs) d in
  let names := Builtins.sorted Py.lower (map Tree.name cs) in
  let own := Builtins.sorted (fun r => Render.bookmark_key (heap r)) bs in
  folder_titles_at d lines = names
  /\ names ≡ₚ map Tree.name cs
  /\ StronglySorted (key_le Py.lower) names
  /\ links_at d lines = map (fun r => link_of (heap r)) own
  /\ own ≡ₚ bs
  /\ StronglySorted (key_le (fun r => Render.bookmark_key (heap r))) own
  /\ exists blocks,
       lines = (blocks
                ++ map (fun r => Render.Link d (fst (link_of (heap r)))
                                             (snd (link_of (heap r)))) own)%list
       /\ links_at d blocks = []
       /\ folder_titles_at d blocks = names.
Proof.
  intros lines names own. unfold lines. cbn [Render._render_node].
  set (folders := Builtins.sorted (fun folder => Py.lower (fst folder))
                    (map (fun child => (Tree.name child,
                                        Render._render_node heap child (S d))) cs)).
  assert (Hdeep : Forall (fun folder =>
                            Forall (fun line => S d <= line_depth line) (snd folder))
                         folders).
  { unfold folders. rewrite (sorted_perm _ _). apply Forall_forall. intros folder Hin.
    apply list_elem_of_In, in_map_iff in Hin as (c & <- & _). cbn [snd].
    eapply Forall_impl; [apply depth_render|]. cbn beta. intros line Hline. lia. }
  destruct (folders_at d folders Hdeep) as [Hft Hfl]. cbn zeta in Hft, Hfl.
  destruct (own_links_at heap d own) as [Hot Hol]. cbn zeta in Hot, Hol.
  assert (Hnames : map fst folders = names).
  { unfold folders, names.
    rewrite (sorted_map fst Py.lower), map_map. cbn [fst]. reflexivity. }
  rewrite titles_at_app, links_at_app. fold own.
  rewrite Hft, Hfl, Hot, Hol, Hnames, app_nil_r. cbn [app].
  split; [reflexivity|]. split; [apply sorted_perm|]. split; [apply sorted_sorted|].
  split; [reflexivity|]. split; [apply sorted_perm|]. split; [apply sorted_sorted|].
  eexists. split; [reflexivity|]. split; [exact Hfl|]. rewrite <- Hnames. exact Hft.
Qed.

(** ** The organiser as it is made *)

(** X24: an organiser as the constructor makes it has a batch size of at
    least one (the given one, or 1 when that is smaller), a fallback model
    that is not empty (the given one, else the one of the environment, else
    the default model, an empty name counting as none), and its temperature
    on; and after any run of [reorganise] its model is the given model or
    that fallback, so it is not empty when the given model was not. *)
Theorem organiser_init_settings `{rt : Runtime} (model : string) (batch_size : Z)
    (fallback_model env : option string) :
  let o := Organiser.init model batch_size fallback_model env in
  Organiser._model o = model
  /\ Z.pos (Organiser._batch_size o) = Z.max 1 batch_size
  /\ Organiser._supports_temperature o = true
  /\ Organiser._fallback_model o ≠ ""
  /\ Organiser._fallback_model o
     = Organiser.or_default fallback_model (Organiser.or_default env Organiser.DEFAULT_MODEL)
  /\ (forall f, fallback_model = Some f -> f ≠ "" -> Organiser._fallback_model o = f)
  /\ (forall D client records w,
        let o' := Organiser.self
                    (snd (Organiser.reorganise D client records (Organiser.set_self o w))) in
        Organiser._batch_size o' = Organiser._batch_size o
        /\ (Organiser._model o' = model
            \/ Organiser._model o' = Organiser._fallback_model o)
        /\ (model ≠ "" -> Organiser._model o' ≠ "")).
Proof.
  intros o.
  assert (Hdefault : forall a b, b ≠ "" -> Organiser.or_default a b ≠ "").
  { intros [[|c a]|] b Hb; cbn; try exact Hb. discriminate. }
  assert (Hfallback : Organiser._fallback_model o ≠ "").
  { unfold o, Organiser.init. cbn [Organiser._fallback_model].
    apply Hdefault, Hdefault. discriminate. }
  split; [reflexivity|]. split; [unfold o; cbn; lia|]. split; [reflexivity|].
  split; [exact Hfallback|]. split; [reflexivity|]. split.
  - intros f -> Hf. unfold o. cbn. destruct f; [congruence|reflexivity].
  - intros D client records w o'.
    assert (H : settings_kept o o').
    { unfold o', Organiser.reorganise, Organiser.bind, Organiser.ret.
      pose proof (batch_loop_settings D client records
                    (Organiser.range_step (length records)
                       (Pos.to_nat (Organiser._batch_size
                                      (Organiser.self (Organiser.set_self o w)))))
                    (Organiser.set_self o w)) as Hb.
      destruct (Organiser.batch_loop _ _ _ _ (Organiser.set_self o w)) as [[e|[]] w'];
        exact Hb. }
    destruct H as (Hf & Hb & Hm & _). split; [exact Hb|]. split; [exact Hm|].
    intros Hmodel. destruct Hm as [Hm|Hm]; rewrite Hm; [exact Hmodel|exact Hfallback].
Qed.

(** * The frame of a run *)

(** ** The batches of a run *)

Section BatchesOfRun.

Context `{rt : Runtime}.
Import Organiser.

Variable MAX_FOLDER_DEPTH : nat.
Variable client : Client.

(** The calls do not read the records. *)
Lemma single_attempt_set_heap (h : loc -> BookmarkRecord.t) (w : World) :
  _single_attempt MAX_FOLDER_DEPTH client (set_heap h w)
  = (fst (_single_attempt MAX_FOLDER_DEPTH client w),
     set_heap h (snd (_single_attempt MAX_FOLDER_DEPTH client w))).
Proof.
  unfold _single_attempt. cbn [set_heap self calls].
  destruct (client (calls w) (_model (self w)) (_supports_temperature (self w)))
    as [exc|response]; [reflexivity|].
  destruct (_extract_items response); reflexivity.
Qed.

Lemma process_exception_set_heap (h : loc -> BookmarkRecord.t) (exc : PyExc)
    (attempt max_attempts : nat) (w : World) :
  _process_exception exc attempt max_attempts (set_heap h w)
  = (fst (_process_exception exc attempt max_attempts w),
     set_heap h (snd (_process_exception exc attempt max_attempts w))).
Proof.
  unfold _process_exception. cbn [set_heap self].
  repeat match goal with |- context [if ?b then _ else _] => destruct b end;
    reflexivity.
Qed.

Lemma retry_loop_set_heap (h : loc -> BookmarkRecord.t) (max_attempts : nat)
    (attempts : list nat) (last_error : option PyExc) (w : World) :
  retry_loop MAX_FOLDER_DEPTH client max_attempts attempts last_error (set_heap h w)
  = (fst (retry_loop MAX_FOLDER_DEPTH client max_attempts attempts last_error w),
     set_heap h
       (snd (retry_loop MAX_FOLDER_DEPTH client max_attempts attempts last_error w))).
Proof.
  revert last_error w. induction attempts as [|attempt rest IH]; intros last_error w.
  - cbn [retry_loop]. destruct last_error; reflexivity.
  - cbn [retry_loop]. rewrite single_attempt_set_heap.
    destruct (_single_attempt MAX_FOLDER_DEPTH client w) as [[exc|validated] w1];
      cbn [fst snd].
    + rewrite process_exception_set_heap.
      destruct (_process_exception exc attempt max_attempts w1) as [immediate w2].
      cbn [fst snd]. destruct immediate; [apply IH|].
      change (emit (Backoff attempt) (set_heap h w2))
        with (set_heap h (emit (Backoff attempt) w2)).
      apply IH.
    + destruct validated; [apply IH|reflexivity].
Qed.

Lemma responses_set_heap (batches : nat) (h : loc -> BookmarkRecord.t) (w : World) :
  responses MAX_FOLDER_DEPTH client batches (set_heap h w)
  = responses MAX_FOLDER_DEPTH client batches w.
Proof.
  revert h w. induction batches as [|batches IH]; intros h w; [reflexivity|].
  cbn [responses]. unfold _invoke_with_retry. rewrite retry_loop_set_heap.
  destruct (retry_loop MAX_FOLDER_DEPTH client 3 (seq 1 3) None w) as [[e|parsed] w1];
    cbn [fst snd]; [reflexivity|].
  f_equal. apply IH.
Qed.

(** The merge, position by position. *)
Lemma merge_loop_positions (entries : gmap Z LLMReorgEntryModel.t) (idx : nat)
    (chunk : list loc) (h : loc -> BookmarkRecord.t) :
  merge_loop entries idx chunk h
  = merge_positions (fun i => entries !! Z.of_nat i) idx chunk h.
Proof.
  revert idx h. induction chunk as [|r chunk IH]; intros idx h; [reflexivity|].
  cbn [merge_loop merge_positions]. apply IH.
Qed.

Lemma merge_positions_ext (E E' : nat -> option LLMReorgEntryModel.t) (idx : nat)
    (chunk : list loc) (h : loc -> BookmarkRecord.t) :
  (forall i, i < length chunk -> E (idx + i) = E' (idx + i)) ->
  merge_positions E idx chunk h = merge_positions E' idx chunk h.
Proof.
  revert idx h. induction chunk as [|r chunk IH]; intros idx h Hagree; [reflexivity|].
  cbn [merge_positions].
  pose proof (Hagree 0 ltac:(simpl; lia)) as H0. rewrite Nat.add_0_r in H0. rewrite H0.
  apply IH. intros i Hi. replace (S idx + i) with (idx + S i) by lia.
  apply Hagree. simpl. lia.
Qed.

Lemma merge_positions_app (E : nat -> option LLMReorgEntryModel.t) (idx : nat)
    (a b : list loc) (h : loc -> BookmarkRecord.t) :
  merge_positions E idx (a ++ b)%list h
  = merge_positions E (idx + length a) b (merge_positions E idx a h).
Proof.
  revert idx h. induction a as [|r a IH]; intros idx h.
  - cbn. now rewrite Nat.add_0_r.
  - cbn [app merge_positions length]. rewrite IH. f_equal. lia.
Qed.

Lemma merge_positions_none (E : nat -> option LLMReorgEntryModel.t) (idx : nat)
    (chunk : list loc) (h : loc -> BookmarkRecord.t) :
  (forall i, i < length chunk -> E (idx + i) = None) ->
  merge_positions E idx chunk h = h.
Proof.
  revert idx. induction chunk as [|r chunk IH]; intros idx Hnone; [reflexivity|].
  cbn [merge_positions].
  pose proof (Hnone 0 ltac:(simpl; lia)) as H0. rewrite Nat.add_0_r in H0. rewrite H0.
  apply IH. intros i Hi. replace (S idx + i) with (idx + S i) by lia.
  apply Hnone. simpl. lia.
Qed.

Lemma merge_positions_outside (E : nat -> option LLMReorgEntryModel.t) (idx : nat)
    (chunk : list loc) (h : loc -> BookmarkRecord.t) (l : loc) :
  l ∉ chunk -> merge_positions E idx chunk h l = h l.
Proof.
  revert idx h. induction chunk as [|r chunk IH]; intros idx h Hl; [reflexivity|].
  apply not_elem_of_cons in Hl as [Hne Hl]. cbn [merge_positions].
  rewrite IH by exact Hl. destruct (E idx); [|reflexivity].
  apply fn_lookup_insert_ne. congruence.
Qed.

Lemma merge_positions_at (E : nat -> option LLMReorgEntryModel.t) (idx : nat)
    (chunk : list loc) (h : loc -> BookmarkRecord.t) (i : nat) (record : loc) :
  NoDup chunk -> chunk !! i = Some record ->
  merge_positions E idx chunk h record
  = match E (idx + i) with
    | Some entry => apply_entry entry (h record)
    | None => h record
    end.
Proof.
  revert idx h i. induction chunk as [|r chunk IH]; intros idx h i Hnd Hi;
    [discriminate|].
  apply NoDup_cons in Hnd as [Hr Hnd]. cbn [merge_positions]. destruct i as [|i].
  - injection Hi as ->. rewrite Nat.add_0_r, merge_positions_outside by exact Hr.
    destruct (E idx); [apply fn_lookup_insert|reflexivity].
  - cbn in Hi. rewrite (IH (S idx) _ i Hnd Hi).
    replace (S idx + i) with (idx + S i) by lia.
    assert (Hne : r ≠ record).
    { intros ->. apply Hr. eapply list_elem_of_lookup_2, Hi. }
    destruct (E idx); [|reflexivity].
    rewrite fn_lookup_insert_ne by exact Hne. reflexivity.
Qed.

(** The batch loop from the batch number [j0] on, for [n] batches. *)
Lemma batch_loop_positions (records : list loc) (n j0 : nat) (w : World) :
  let B := Pos.to_nat (_batch_size (self w)) in
  heap (snd (batch_loop MAX_FOLDER_DEPTH client records
               (map (fun j => j * B) (seq j0 n)) w))
  = merge_positions
      (fun i => match responses MAX_FOLDER_DEPTH client n w !! (i / B - j0) with
                | Some parsed => index_map parsed !! Z.of_nat i
                | None => None
                end)
      (j0 * B) (drop (j0 * B) records) (heap w).
Proof.
  cbv zeta. revert j0 w. induction n as [|n IH]; intros j0 w.
  - cbn. symmetry. apply merge_positions_none. reflexivity.
  - cbn [seq map batch_loop responses]. unfold bind, _invoke_with_retry.
    pose proof (retry_loop_store MAX_FOLDER_DEPTH client 3 (seq 1 3) None w) as (Hh & _).
    pose proof (retry_loop_settings MAX_FOLDER_DEPTH client 3 (seq 1 3) None w)
      as (_ & Hsize & _).
    destruct (retry_loop MAX_FOLDER_DEPTH client 3 (seq 1 3) None w) as [[e|parsed] w1];
      cbn [snd] in Hh, Hsize.
    + cbn [snd]. rewrite Hh. symmetry. apply merge_positions_none. reflexivity.
    + set (B := Pos.to_nat (_batch_size (self w))) in *.
      pose proof (Pos2Nat.is_pos (_batch_size (self w))) as HB. fold B in HB.
      set (chunk := take B (drop (j0 * B) records)).
      set (w2 := set_heap (merge_loop (index_map parsed) (j0 * B) chunk (heap w1)) w1).
      assert (HB2 : Pos.to_nat (_batch_size (self w2)) = B).
      { unfold w2. cbn [set_heap self]. unfold B. now rewrite Hsize. }
      specialize (IH (S j0) w2). rewrite HB2 in IH. rewrite IH.
      assert (Hsplit : drop (j0 * B) records = (chunk ++ drop (S j0 * B) records)%list).
      { unfold chunk. replace (S j0 * B) with (j0 * B + B) by lia.
        rewrite <- drop_drop. symmetry. apply take_drop. }
      rewrite Hsplit, merge_positions_app.
      unfold w2. rewrite responses_set_heap. cbn [set_heap heap]. rewrite Hh.
      rewrite merge_loop_positions.
      rewrite (merge_positions_ext
                 (fun i => match (parsed :: responses MAX_FOLDER_DEPTH client n w1)
                                   !! (i / B - j0) with
                           | Some parsed0 => index_map parsed0 !! Z.of_nat i
                           | None => None
                           end)
                 (fun i => index_map parsed !! Z.of_nat i) (j0 * B) chunk).
      * destruct (decide (length chunk = B)) as [Hfull|Hshort].
        -- rewrite Hfull. replace (j0 * B + B) with (S j0 * B) by lia.
           apply merge_positions_ext. intros i _.
           replace ((S j0 * B + i) / B - j0) with (S ((S j0 * B + i) / B - S j0)).
           ++ reflexivity.
           ++ assert (S j0 <= (S j0 * B + i) / B).
              { apply Nat.div_le_lower_bound; lia. }
              lia.
        -- assert (Hlen : length (drop (j0 * B) records) < B).
           { unfold chunk in Hshort. rewrite length_take in Hshort. lia. }
           rewrite length_drop in Hlen.
           rewrite (drop_ge records (S j0 * B)) by lia. reflexivity.
      * intros i Hi. unfold chunk in Hi. rewrite length_take in Hi.
        replace ((j0 * B + i) / B) with j0.
        -- now rewrite Nat.sub_diag.
        -- apply Nat.div_unique with (r := i); lia.
Qed.

Lemma reorganise_positions (records : list loc) (w : World) :
  let B := Pos.to_nat (_batch_size (self w)) in
  heap (snd (reorganise MAX_FOLDER_DEPTH client records w))
  = merge_positions
      (entry_at B (responses MAX_FOLDER_DEPTH client
                     (length (range_step (length records) B)) w))
      0 records (heap w).
Proof.
  cbv zeta. set (B := Pos.to_nat (_batch_size (self w))).
  unfold reorganise, bind, ret. fold B.
  pose proof (batch_loop_positions records ((length records + B - 1) / B) 0 w) as Hb.
  cbv zeta in Hb. fold B in Hb. cbn [Nat.mul drop] in Hb.
  unfold range_step. rewrite length_map, length_seq.
  destruct (batch_loop MAX_FOLDER_DEPTH client records
              (map (fun k => k * B) (seq 0 ((length records + B - 1) / B))) w)
    as [[e|[]] w']; cbn [snd] in Hb |- *; rewrite Hb;
    apply merge_positions_ext; intros i _; unfold entry_at; cbn [plus];
    now rewrite Nat.sub_0_r.
Qed.

(** The entries outside the range of their batch are never looked at. *)
Lemma entry_at_in_range (B n : nat) (replies : list (list LLMReorgEntryModel.t))
    (i : nat) :
  0 < B -> i < n -> entry_at B (in_range B n replies) i = entry_at B replies i.
Proof.
  intros HB Hi. unfold entry_at, in_range. rewrite list_lookup_imap.
  destruct (replies !! (i / B)) as [parsed|]; [|reflexivity]. cbn.
  rewrite (index_map_filter (in_batch (i / B * B) (Nat.min B (n - i / B * B)))).
  pose proof (Nat.div_mod_eq i B) as Hdiv.
  pose proof (Nat.mod_upper_bound i B ltac:(lia)) as Hmod.
  unfold in_batch.
  destruct (Z.leb_spec (Z.of_nat (i / B * B)) (Z.of_nat i)); [|nia].
  destruct (Z.ltb_spec (Z.of_nat i)
              (Z.of_nat (i / B * B + Nat.min B (n - i / B * B)))); [reflexivity|nia].
Qed.

End BatchesOfRun.

(** C10: [reorganise] returns the list of record objects it was given, the
    same objects in the same order; whether it returns or raises, no object
    has its [title_before], [url], [location_before], metadata title or
    metadata description changed, and an object that is not in the list is
    not changed at all; the merge of a batch is the same with and without the
    validated entries whose index is outside the batch, and it leaves every
    object that is not in the batch as it was. Over the whole run, the
    records are as if they were taken one by one in the order of the list,
    the record at position [i] given the entry that the reply to its own
    batch (the batch number [i / B]) carries for the index [i], when there is
    one: so the entries whose index is outside the range of their batch can
    be left out of every reply without any difference, and where the list
    holds each object once the record at position [i] is changed by that
    entry alone, whatever the replies to the other batches hold. *)
Theorem reorganise_frame `{rt : Runtime} (MAX_FOLDER_DEPTH : nat)
    (client : Organiser.Client) (records : list loc) (w : Organiser.World) :
  let result := Organiser.reorganise MAX_FOLDER_DEPTH client records w in
  let B := Pos.to_nat (Organiser._batch_size (Organiser.self w)) in
  let replies :=
    responses MAX_FOLDER_DEPTH client
      (length (Organiser.range_step (length records) B)) w in
  (forall out, fst result = inr out -> out = records)
  /\ (forall l, same_frame (Organiser.heap (snd result) l) (Organiser.heap w l))
  /\ (forall l, ~ In l records ->
        Organiser.heap (snd result) l = Organiser.heap w l)
  /\ (forall parsed start chunk h,
        Organiser.merge_loop (Organiser.index_map parsed) start chunk h
        = Organiser.merge_loop
            (Organiser.index_map
               (filter (fun e => in_batch start (length chunk)
                                   (LLMReorgEntryModel.index e)) parsed))
            start chunk h)
  /\ (forall parsed start chunk h l, ~ In l chunk ->
        Organiser.merge_loop (Organiser.index_map parsed) start chunk h l = h l)
  /\ Organiser.heap (snd result)
     = merge_positions (entry_at B replies) 0 records (Organiser.heap w)
  /\ Organiser.heap (snd result)
     = merge_positions (entry_at B (in_range B (length records) replies)) 0 records
         (Organiser.heap w)
  /\ (NoDup records ->
      forall i record, records !! i = Some record ->
        Organiser.heap (snd result) record
        = match entry_at B replies i with
          | Some entry => Organiser.apply_entry entry (Organiser.heap w record)
          | None => Organiser.heap w record
          end).
Proof.
  intros result B replies.
  assert (Hrun : Organiser.heap (snd result)
                 = merge_positions (entry_at B replies) 0 records (Organiser.heap w))
    by apply reorganise_positions.
  split; [|split; [|split; [|split; [|split; [|split; [|split]]]]]].
  - intros out Hout.
    destruct (reorganise_result MAX_FOLDER_DEPTH client records w) as [[e He]|Hr].
    + unfold result in Hout. congruence.
    + unfold result in Hout. rewrite Hr in Hout. now injection Hout as <-.
  - intros l. apply (reorganise_heap MAX_FOLDER_DEPTH client records w l).
  - intros l. apply (reorganise_heap MAX_FOLDER_DEPTH client records w l).
  - intros. apply merge_loop_in_batch.
  - intros. now apply merge_loop_outside.
  - exact Hrun.
  - rewrite Hrun. apply merge_positions_ext. intros i Hi. cbn [plus]. symmetry.
    apply entry_at_in_range; [apply Pos2Nat.is_pos|exact Hi].
  - intros Hnd i record Hi. rewrite Hrun.
    now rewrite (merge_positions_at _ 0 records _ i record Hnd Hi).
Qed.

Lemma five_distinct : NoDup [0; 1; 2; 3; 4].
Proof.
  repeat (apply NoDup_cons; split;
          [intros Hin; repeat (apply elem_of_cons in Hin as [Hin|Hin]; [discriminate|]);
           inversion Hin|]).
  apply NoDup_nil_2.
Qed.

Lemma reorganise_frame_witness :
  let fresh := BookmarkRecord.mk "Before" "https://a.example" "Root"
                 (BookmarkMetadata.mk "" "" []) "" "" in
  let item := fun (i : Z) location =>
    PDict [("index", PInt i); ("location_after", PStr location)] in
  let reply := fun items =>
    Organiser.Returns {| Organiser.choices := [Some (Parsed (PList items))] |} in
  let client : Organiser.Client := fun n _ _ =>
    match n with
    | 0 => reply [item 0%Z "A"; item 3%Z "Stolen"]
    | 1 => reply [item 2%Z "B"]
    | _ => reply [item 4%Z "C"]
    end in
  let w0 :=
    Organiser.mkWorld (fun _ => fresh) 5 ∅
      (Organiser.init Organiser.DEFAULT_MODEL 2 None None) 0 [] in
  let result :=
    @Organiser.reorganise Sample.runtime Config.MAX_FOLDER_DEPTH client [0; 1; 2; 3; 4] w0 in
  NoDup [0; 1; 2; 3; 4]
  /\ fst result = inr [0; 1; 2; 3; 4]
  /\ map (fun r => BookmarkRecord.location_after (Organiser.heap (snd result) r))
         [0; 1; 2; 3; 4]
     = ["A"; ""; "B"; ""; "C"].
Proof.
  intros fresh item reply client w0 result.
  split; [exact five_distinct|]. split; [vm_compute; reflexivity|].
  destruct (@reorganise_frame Sample.runtime Config.MAX_FOLDER_DEPTH client
              [0; 1; 2; 3; 4] w0) as (_ & _ & _ & _ & _ & _ & _ & Hat).
  fold result in Hat. cbn [map].
  rewrite (Hat five_distinct 0 0 eq_refl), (Hat five_distinct 1 1 eq_refl),
    (Hat five_distinct 2 2 eq_refl), (Hat five_distinct 3 3 eq_refl),
    (Hat five_distinct 4 4 eq_refl).
  vm_compute. reflexivity.
Defined.
